(** * crypto-api: the cache layer and the market-cap canonicalisation engine

    A shallow embedding of [index.js] (the Express routes with their
    in-memory cache) and of [utils.js] (the scrapers and the two market-cap
    conversions), followed by the properties the specification states about
    them.

    - JavaScript numbers are IEEE 754 binary64 values: [spec_float] with
      [prec = 53] and [emax = 1024], with the arithmetic of the standard
      library's [SpecFloat].
    - Strings are [string]s of bytes. The built-ins that look at the
      characters themselves ([trim], [toUpperCase], [toLowerCase],
      [charAt], [slice]) are modelled on ASCII text, and the properties
      that depend on them are stated for such text.
    - The [Map] used as cache is a [gmap string CacheEntry].
    - [Date.now()] is an integer number of milliseconds. *)

From Stdlib Require Import ZArith QArith Qabs Qpower Bool List Ascii String SpecFloat.
From Stdlib Require Import Lia Lqa.
From stdpp Require Import gmap strings list fin_maps.

Local Open Scope string_scope.
Local Open Scope Z_scope.

(** ** JavaScript numbers *)

Module Num.

Definition prec : Z := 53.
Definition emax : Z := 1024.

Definition number : Type := spec_float.

Definition NaN : number := S754_nan.
Definition mul : number -> number -> number := SFmul prec emax.
Definition div : number -> number -> number := SFdiv prec emax.

(** [x >= y] of JavaScript: false as soon as one side is [NaN]. *)
Definition geb (x y : number) : bool := SFleb y x.

(** The number nearest to the integer [z] (an integer literal). *)
Definition of_Z (z : Z) : number := binary_normalize prec emax z 0 false.

(** The number nearest to [(-1)^s * m / d], for [0 <= m] and [0 < d]:
    the rounding of a decimal literal. *)
Definition of_ratio (s : bool) (m d : Z) : number :=
  if m =? 0 then S754_zero s
  else let '(q, e, l) := SFdiv_core_binary prec emax m 0 d 0 in
       binary_round_aux prec emax s q e l.

(** The number nearest to [(-1)^s * m * 10^p]. *)
Definition of_decimal (s : bool) (m p : Z) : number :=
  if 0 <=? p then of_ratio s (m * 10 ^ p) 1 else of_ratio s m (10 ^ (- p)).

(** The exact value of a finite number, as a fraction [(n, d)] with [0 < d];
    the sign is left out. *)
Definition magnitude (m : positive) (e : Z) : Z * Z :=
  if 0 <=? e then (Z.pos m * 2 ^ e, 1) else (Z.pos m, 2 ^ (- e)).

(** The value of a number as a rational; [None] for [NaN] and the
    infinities. *)
Definition toQ (x : number) : option Q :=
  match x with
  | S754_zero _ => Some 0%Q
  | S754_finite s m e =>
      let '(n, d) := magnitude m e in
      Some (Qmake (if s then - n else n) (Z.to_pos d))
  | _ => None
  end.

(** A number of the format: a finite one is the canonical pair of mantissa
    and exponent. *)
Definition is_number (x : number) : bool := valid_binary prec emax x.

(** The value [m * 2^e]. *)
Definition val (m : positive) (e : Z) : Q := (inject_Z (Z.pos m) * 2 ^ e)%Q.

(** A mantissa of full width, that of a normal number. *)
Definition normal (m : positive) : Prop := 2 ^ 52 <= Z.pos m < 2 ^ 53.

(** The bound used here on the relative error of one rounding. *)
Definition eps : Q := (1 # 2 ^ 52)%Q.

End Num.

(** ** Strings *)

Module Str.

Definition is_digit (c : ascii) : bool :=
  let n := Z.of_nat (nat_of_ascii c) in (48 <=? n) && (n <=? 57).

Definition digit_val (c : ascii) : Z := Z.of_nat (nat_of_ascii c) - 48.

Definition digit_char (d : Z) : ascii := ascii_of_nat (Z.to_nat (48 + d)).

(** [s.includes(sub)] *)
Fixpoint includes (s sub : string) : bool :=
  String.prefix sub s ||
  match s with
  | EmptyString => false
  | String _ s' => includes s' sub
  end.

Fixpoint filter (f : ascii -> bool) (s : string) : string :=
  match s with
  | EmptyString => EmptyString
  | String c s' => if f c then String c (filter f s') else filter f s'
  end.

(** The characters the class [[\d.-]] accepts. *)
Definition numeric_char (c : ascii) : bool :=
  is_digit c || Ascii.eqb c "." || Ascii.eqb c "-".

(** [s.replace(/[^\d.-]/g, '')], also written [/[^0-9.-]/g] in the source. *)
Definition strip (s : string) : string := filter numeric_char s.

(** The longest prefix of digits, and what follows it. *)
Fixpoint span_digits (s : string) : string * string :=
  match s with
  | EmptyString => (EmptyString, EmptyString)
  | String c s' =>
      if is_digit c
      then let '(ds, r) := span_digits s' in (String c ds, r)
      else (EmptyString, s)
  end.

(** The value of a string of digits, continuing from [acc]. *)
Fixpoint digits_val (acc : Z) (s : string) : Z :=
  match s with
  | EmptyString => acc
  | String c s' => digits_val (10 * acc + digit_val c) s'
  end.

Definition len (s : string) : Z := Z.of_nat (String.length s).

(** The decimal digits of [n >= 0], most significant first. *)
Fixpoint digits_fuel (fuel : nat) (n : Z) (acc : string) : string :=
  match fuel with
  | O => acc
  | S f =>
      let acc' := String (digit_char (n mod 10)) acc in
      if n / 10 =? 0 then acc' else digits_fuel f (n / 10) acc'
  end.

Definition of_Z (n : Z) : string :=
  digits_fuel (S (Z.to_nat (Z.log2 n))) n EmptyString.

Fixpoint zeros (n : nat) : string :=
  match n with
  | O => EmptyString
  | S k => String "0" (zeros k)
  end.

(** [s.padStart(n, '0')] *)
Definition pad_left (n : nat) (s : string) : string :=
  zeros (n - String.length s) ++ s.

Definition is_ws (c : ascii) : bool :=
  existsb (Ascii.eqb c) [" "; "009"; "010"; "011"; "012"; "013"]%char.

Fixpoint drop_ws (s : string) : string :=
  match s with
  | String c s' => if is_ws c then drop_ws s' else s
  | EmptyString => EmptyString
  end.

Definition rev (s : string) : string :=
  string_of_list_ascii (List.rev (list_ascii_of_string s)).

(** [s.trim()] on ASCII text: the white space removed at both ends is the
    space, the tab, the line feed, the vertical tab, the form feed and the
    carriage return. *)
Definition trim (s : string) : string := rev (drop_ws (rev (drop_ws s))).

(** Strings of digits. *)
Fixpoint all_digits (s : string) : bool :=
  match s with
  | EmptyString => true
  | String c s' => is_digit c && all_digits s'
  end.

(** Strings made of the characters [strip] keeps. *)
Fixpoint numeric (s : string) : bool :=
  match s with
  | EmptyString => true
  | String c s' => numeric_char c && numeric s'
  end.

(** A word that starts with a letter starts neither within the digits nor
    at the dollar sign. *)
Definition worded (sub : string) : Prop :=
  match sub with
  | String c _ => numeric_char c = false /\ c <> "$"%char
  | EmptyString => False
  end.

(** The characters of a grouped decimal text. *)
Definition grouped_char (c : ascii) : bool :=
  is_digit c || Ascii.eqb c "," || Ascii.eqb c "." || Ascii.eqb c "$".

Fixpoint grouped (s : string) : bool :=
  match s with
  | EmptyString => true
  | String c s' => grouped_char c && grouped s'
  end.

End Str.

(** ** More of the strings of JavaScript *)

Module Text.

Import Str.

(** [c.toUpperCase()] and [c.toLowerCase()] on the letters of ASCII; the
    other characters are left as they are. *)
Definition upper_char (c : ascii) : ascii :=
  let n := nat_of_ascii c in
  if (97 <=? n)%nat && (n <=? 122)%nat then ascii_of_nat (n - 32) else c.

Definition lower_char (c : ascii) : ascii :=
  let n := nat_of_ascii c in
  if (65 <=? n)%nat && (n <=? 90)%nat then ascii_of_nat (n + 32) else c.

Fixpoint map_chars (f : ascii -> ascii) (s : string) : string :=
  match s with
  | EmptyString => EmptyString
  | String c s' => String (f c) (map_chars f s')
  end.

Definition toUpperCase (s : string) : string := map_chars upper_char s.

Definition toLowerCase (s : string) : string := map_chars lower_char s.

(** [s.split(sep)] for a separator of one character. *)
Fixpoint split (sep : ascii) (s : string) : list string :=
  match s with
  | EmptyString => [EmptyString]
  | String c s' =>
      if Ascii.eqb c sep then EmptyString :: split sep s'
      else match split sep s' with
           | w :: ws => String c w :: ws
           | [] => [String c EmptyString]
           end
  end.

(** [words.join('')] *)
Fixpoint join (words : list string) : string :=
  match words with
  | [] => EmptyString
  | w :: ws => (w ++ join ws)%string
  end.

(** [s.charAt(0)] and [s.slice(1)]; a character is a byte, which is the
    unit of the text when it is ASCII. *)
Definition charAt0 (s : string) : string :=
  match s with
  | EmptyString => EmptyString
  | String c _ => String c EmptyString
  end.

Definition slice1 (s : string) : string :=
  match s with
  | EmptyString => EmptyString
  | String _ s' => s'
  end.

(** A text of ASCII characters. *)
Fixpoint ascii_text (s : string) : bool :=
  match s with
  | EmptyString => true
  | String c s' => (nat_of_ascii c <? 128)%nat && ascii_text s'
  end.

(** A text without a space. *)
Fixpoint spaceless (s : string) : bool :=
  match s with
  | EmptyString => true
  | String c s' => negb (Ascii.eqb c " ") && spaceless s'
  end.

(** A text without any digit. *)
Fixpoint digitless (s : string) : bool :=
  match s with
  | EmptyString => true
  | String c s' => negb (is_digit c) && digitless s'
  end.

(** A text of points and minus signs. *)
Fixpoint punctuation (s : string) : bool :=
  match s with
  | EmptyString => true
  | String c s' => (Ascii.eqb c "." || Ascii.eqb c "-") && punctuation s'
  end.

End Text.

(** ** The built-in conversions between numbers and strings *)

Module JS.

Import Num Str.

(** [parseFloat(s)]: leading white space is skipped, then the longest prefix
    that is a decimal literal (sign, digits, fraction, exponent) is read;
    what follows it is ignored, and [NaN] is returned when there is none. *)
Definition parse_exponent (s : string) : Z :=
  match s with
  | String c r =>
      if Ascii.eqb c "e" || Ascii.eqb c "E" then
        let '(neg, r') :=
          match r with
          | String "-" t => (true, t)
          | String "+" t => (false, t)
          | _ => (false, r)
          end in
        let '(ds, _) := span_digits r' in
        match ds with
        | EmptyString => 0
        | _ => if neg then - digits_val 0 ds else digits_val 0 ds
        end
      else 0
  | EmptyString => 0
  end.

Definition parse_unsigned (neg : bool) (s : string) : number :=
  if String.prefix "Infinity" s then S754_infinity neg
  else
    let '(ip, r) := span_digits s in
    let '(fp, r') :=
      match r with
      | String "." t => span_digits t
      | _ => (EmptyString, r)
      end in
    match (ip ++ fp)%string with
    | EmptyString => NaN
    | ds => of_decimal neg (digits_val 0 ds) (parse_exponent r' - len fp)
    end.

Definition parseFloat (s : string) : number :=
  match drop_ws s with
  | String "-" r => parse_unsigned true r
  | String "+" r => parse_unsigned false r
  | r => parse_unsigned false r
  end.

(** Rounding of the fraction [n / d] (with [0 <= n], [0 < d]) to the nearest
    integer, the larger one on a tie. *)
Definition round_half_up (n d : Z) : Z := (2 * n + d) / (2 * d).

(** The integer nearest to [10^f] times the magnitude of a finite number. *)
Definition scaled (f : Z) (m : positive) (e : Z) : Z :=
  let '(n, d) := magnitude m e in round_half_up (10 ^ f * n) d.

(** The digits of [n / 10^f] with [f] fraction digits: the integer part,
    and after the point the last [f] digits of [n]. *)
Definition fixed_digits (f : nat) (n : Z) : string :=
  match f with
  | O => Str.of_Z n
  | _ => (Str.of_Z (n / 10 ^ Z.of_nat f) ++ "." ++
          pad_left f (Str.of_Z (n mod 10 ^ Z.of_nat f)))%string
  end.

(** The shortest decimal digits that read back as the finite number
    [S754_finite false m e]: the pair [(s, n)] of Number::toString, the
    digits being those of [s] and the value [s * 10^(n - k)] for [k] the
    number of digits of [s]. *)
Fixpoint decimal_exponent_up (fuel : nat) (n d p : Z) : Z :=
  match fuel with
  | O => p
  | S f => if 10 ^ p * d <=? n then decimal_exponent_up f n d (p + 1) else p
  end.

Fixpoint decimal_exponent_down (fuel : nat) (n d p : Z) : Z :=
  match fuel with
  | O => p
  | S f => if n * 10 ^ p <? d then decimal_exponent_down f n d (p + 1) else - p + 1
  end.

(** The [n] with [10^(n-1) <= num/den < 10^n]. *)
Definition decimal_exponent (num den : Z) : Z :=
  if den <=? num then decimal_exponent_up 400 num den 0
  else decimal_exponent_down 400 num den 1.

Definition reads_back (m : positive) (e : Z) (s p : Z) : bool :=
  SFeqb (of_decimal false s p) (S754_finite false m e).

Fixpoint shortest_fuel (fuel : nat) (m : positive) (e : Z) (n0 k : Z) : Z * Z :=
  let '(num, den) := magnitude m e in
  let p := n0 - k in
  let lo := if 0 <=? p then num / (den * 10 ^ p) else (num * 10 ^ (- p)) / den in
  let hi := lo + 1 in
  let ok_lo := reads_back m e lo p in
  let ok_hi := reads_back m e hi p in
  (* twice the distance of each candidate to the value, over a common scale *)
  let closer_hi :=
    if 0 <=? p
    then (hi * 10 ^ p * den - num) <? (num - lo * 10 ^ p * den)
    else (hi * den - num * 10 ^ (- p)) <? (num * 10 ^ (- p) - lo * den) in
  let tie :=
    if 0 <=? p
    then (hi * 10 ^ p * den - num) =? (num - lo * 10 ^ p * den)
    else (hi * den - num * 10 ^ (- p)) =? (num * 10 ^ (- p) - lo * den) in
  let pick_hi := ok_hi && (negb ok_lo || closer_hi || (tie && Z.even hi)) in
  let found := ok_lo || ok_hi in
  match fuel with
  | O => (lo, n0)
  | S f =>
      if found then
        if pick_hi then (if hi =? 10 ^ k then (10 ^ (k - 1), n0 + 1) else (hi, n0))
        else (lo, n0)
      else shortest_fuel f m e n0 (k + 1)
  end.

Definition shortest (m : positive) (e : Z) : Z * Z :=
  let '(num, den) := magnitude m e in
  shortest_fuel 17 m e (decimal_exponent num den) 1.

(** Number::toString(x) in radix 10 *)
Definition exponent_part (n : Z) : string :=
  let sign := if 0 <=? n - 1 then "+" else "-" in
  ("e" ++ sign ++ Str.of_Z (Z.abs (n - 1)))%string.

Definition toString_digits (s n : Z) : string :=
  let ds := Str.of_Z s in
  let k := len ds in
  if (k <=? n) && (n <=? 21) then
    (ds ++ zeros (Z.to_nat (n - k)))%string
  else if (0 <? n) && (n <=? 21) then
    (substring 0 (Z.to_nat n) ds ++ "." ++
     substring (Z.to_nat n) (Z.to_nat (k - n)) ds)%string
  else if (-6 <? n) && (n <=? 0) then
    ("0." ++ zeros (Z.to_nat (- n)) ++ ds)%string
  else if k =? 1 then
    (ds ++ exponent_part n)%string
  else
    (substring 0 1 ds ++ "." ++ substring 1 (Z.to_nat (k - 1)) ds
     ++ exponent_part n)%string.

Definition toString (x : number) : string :=
  match x with
  | S754_nan => "NaN"
  | S754_zero _ => "0"
  | S754_infinity s => if s then "-Infinity" else "Infinity"
  | S754_finite sg m e =>
      let '(s, n) := shortest m e in
      ((if sg then "-" else "") ++ toString_digits s n)%string
  end.

(** [x.toFixed(f)] for [0 <= f <= 100] *)
Definition toFixed (x : number) (f : nat) : string :=
  match x with
  | S754_finite sg m e =>
      if geb (S754_finite false m e) (Num.of_Z (10 ^ 21))
      then toString x
      else ((if sg then "-" else "") ++
            fixed_digits f (scaled (Z.of_nat f) m e))%string
  | S754_zero _ => fixed_digits f 0
  | _ => toString x
  end.

(** Digits in groups of three, separated by commas. *)
Fixpoint group3_fuel (fuel : nat) (n : Z) (acc : string) : string :=
  match fuel with
  | O => acc
  | S f =>
      if n <? 1000 then (Str.of_Z n ++ acc)%string
      else group3_fuel f (n / 1000)
             ("," ++ pad_left 3 (Str.of_Z (n mod 1000)) ++ acc)%string
  end.

Definition group3 (n : Z) : string :=
  group3_fuel (S (Z.to_nat (Z.log2 n))) n EmptyString.

Fixpoint drop_trailing_zeros_rev (s : list ascii) : list ascii :=
  match s with
  | "0"%char :: r => drop_trailing_zeros_rev r
  | _ => s
  end.

Definition drop_trailing_zeros (s : string) : string :=
  string_of_list_ascii
    (List.rev (drop_trailing_zeros_rev (List.rev (list_ascii_of_string s)))).

(** The magnitude [n / 1000] in the en-US style: grouped integer part, at
    most three fraction digits, no trailing zeros. *)
Definition locale_digits (n : Z) : string :=
  let fr := drop_trailing_zeros (pad_left 3 (Str.of_Z (n mod 1000))) in
  match fr with
  | EmptyString => group3 (n / 1000)
  | _ => (group3 (n / 1000) ++ "." ++ fr)%string
  end.

(** The thousandths of the decimal [s * 10^(n - k)], for [k] the number of
    digits of [s]: the integer nearest to a thousand times the decimal, a
    half going up. The rounding is that of the decimal digits. *)
Definition thousandths (s n : Z) : Z :=
  let p := n - len (Str.of_Z s) + 3 in
  if 0 <=? p then s * 10 ^ p else round_half_up s (10 ^ (- p)).

(** [x.toLocaleString()] with no argument, for a process whose default
    locale is en-US, with the defaults of Intl.NumberFormat: decimal style,
    grouping, at most three fraction digits. As V8 does through ICU, the
    digits are those of the shortest decimal that reads back as [x] (the
    digits of [toString]), and it is these that are rounded to three
    fraction digits, a half away from zero: 1.0005 gives "1.001". *)
Definition toLocaleString (x : number) : string :=
  match x with
  | S754_nan => "NaN"
  | S754_infinity s => if s then "-∞" else "∞"
  | S754_zero s => if s then "-0" else "0"
  | S754_finite sg m e =>
      let '(s, n) := shortest m e in
      ((if sg then "-" else "") ++ locale_digits (thousandths s n))%string
  end.

(** The fraction digits kept for the thousandths [x]. *)
Definition fraction (x : Z) : string :=
  drop_trailing_zeros (pad_left 3 (Str.of_Z x)).

Definition fraction_ok (x : Z) : bool :=
  all_digits (fraction x)
  && (len (fraction x) <=? 3)
  && (digits_val 0 (fraction x) * 10 ^ (3 - len (fraction x)) =? x).

(** The text written for [q] units and the fraction digits [fr]. *)
Definition plain_text (q : Z) (fr : string) : string :=
  "$" ++ match fr with
         | EmptyString => group3 q
         | _ => group3 q ++ "." ++ fr
         end.

End JS.

(** ** utils.js: the canonicalisation engine *)

Module Utils.

Import Num Str JS.

Definition trillion : number := Num.of_Z 1000000000000.
Definition billion : number := Num.of_Z 1000000000.
Definition million : number := Num.of_Z 1000000.

Definition marketCapNumToText (value : number) : string :=
  if geb value trillion then
    ("$" ++ toFixed (div value trillion) 2 ++ " trillion")%string
  else if geb value billion then
    ("$" ++ toFixed (div value billion) 2 ++ " billion")%string
  else if geb value million then
    ("$" ++ toFixed (div value million) 2 ++ " million")%string
  else
    ("$" ++ toLocaleString value)%string.

Definition marketCapTextToNum (marketCapText : string) : number :=
  if includes marketCapText "trillion" || includes marketCapText "T" then
    mul (parseFloat (strip marketCapText)) trillion
  else if includes marketCapText "million" || includes marketCapText "M" then
    mul (parseFloat (strip marketCapText)) million
  else if includes marketCapText "billion" || includes marketCapText "B" then
    mul (parseFloat (strip marketCapText)) billion
  else
    parseFloat (strip marketCapText).

End Utils.

(** ** Dates *)

Module Date.

Import Str.

(** The civil date of a day number counted from 1970-01-01. *)
Definition civil_from_days (days : Z) : Z * Z * Z :=
  let z := days + 719468 in
  let era := z / 146097 in
  let doe := z - era * 146097 in
  let yoe := (doe - doe / 1460 + doe / 36524 - doe / 146096) / 365 in
  let doy := doe - (365 * yoe + yoe / 4 - yoe / 100) in
  let mp := (5 * doy + 2) / 153 in
  let d := doy - (153 * mp + 2) / 5 + 1 in
  let m := if mp <? 10 then mp + 3 else mp - 9 in
  let y := yoe + era * 400 + (if m <=? 2 then 1 else 0) in
  (y, m, d).

Definition pad (n : nat) (z : Z) : string := pad_left n (Str.of_Z z).

Definition year_string (y : Z) : string :=
  if (0 <=? y) && (y <=? 9999) then pad 4 y
  else let sign := if y <? 0 then "-" else "+" in
       (sign ++ pad 6 (Z.abs y))%string.

(** [new Date(ms).toISOString()], for a time value [ms] in the range of
    Date (which [Date.now()] always is). *)
Definition toISOString (ms : Z) : string :=
  let '(y, m, d) := civil_from_days (ms / 86400000) in
  let t := ms mod 86400000 in
  (year_string y ++ "-" ++ pad 2 m ++ "-" ++ pad 2 d ++ "T" ++
   pad 2 (t / 3600000) ++ ":" ++ pad 2 (t / 60000 mod 60) ++ ":" ++
   pad 2 (t / 1000 mod 60) ++ "." ++ pad 3 (t mod 1000) ++ "Z")%string.

End Date.

(** ** JSON values and the scraped pages *)

Module Json.

Import Num.

#[local] Set Warnings "-register-all".

Inductive value : Type :=
  | Null
  | Bool (b : bool)
  | Number (x : number)
  | Str (s : string)
  | Arr (l : list value)
  | Obj (fields : list (string * value)).

Definition object : Type := list (string * value).

(** [o.k], [None] when the property is absent ([undefined]). *)
Fixpoint get (k : string) (o : object) : option value :=
  match o with
  | [] => None
  | (k', v) :: r => if String.eqb k k' then Some v else get k r
  end.

(** [{...o, k: v}]: an existing property keeps its place and takes the new
    value, a new one comes last. *)
Fixpoint set (k : string) (v : value) (o : object) : object :=
  match o with
  | [] => [(k, v)]
  | (k', v') :: r =>
      if String.eqb k k' then (k, v) :: r else (k', v') :: set k v r
  end.

Definition has (k : string) (o : object) : bool :=
  match get k o with Some _ => true | None => false end.

End Json.

(** ** The state of the server and its effects *)

Module Server.

Import Num Json.

(** What [cache.set] stores: the response object built by [getCachedData]
    and the time it was built. *)
Record ResponseData : Type := {
  status : string;
  timestamp : string;
  data : value
}.

Record CacheEntry : Type := {
  entry_data : ResponseData;
  entry_timestamp : Z
}.

(** The effects that leave the process. *)
Inductive event : Type :=
  | Fetch (url : string)
  | ConsoleError (line : string)
  | ConsoleLog (line : string).

(** [cache] is the module-level [Map]; [clock] is what [Date.now()] reads;
    [trace] collects the effects, oldest first. *)
Record world : Type := {
  cache : gmap string CacheEntry;
  clock : Z;
  trace : list event
}.

Definition CACHE_DURATION : Z := 5 * 60 * 1000.

(** A computation either returns or throws an [Error] with a message. *)
Inductive outcome (A : Type) : Type :=
  | Ok (a : A)
  | Throw (message : string).
Arguments Ok {A} a.
Arguments Throw {A} message.

Definition M (A : Type) : Type := world -> outcome A * world.

Definition ret {A} (a : A) : M A := fun w => (Ok a, w).

Definition bind {A B} (m : M A) (k : A -> M B) : M B :=
  fun w => match m w with
           | (Ok a, w') => k a w'
           | (Throw e, w') => (Throw e, w')
           end.

Definition throw {A} (e : string) : M A := fun w => (Throw e, w).

(** [try { m } catch (error) { h error.message }] *)
Definition try_catch {A} (m : M A) (h : string -> M A) : M A :=
  fun w => match m w with
           | (Ok a, w') => (Ok a, w')
           | (Throw e, w') => h e w'
           end.

Definition lift {A} (o : outcome A) : M A := fun w => (o, w).

Definition emit (e : event) : M unit :=
  fun w => (Ok tt, {| cache := cache w; clock := clock w; trace := (trace w ++ [e])%list |}).

Definition Date_now : M Z := fun w => (Ok (clock w), w).

(** Time that passes while the process waits. *)
Definition sleep (d : Z) : M unit :=
  fun w => (Ok tt, {| cache := cache w; clock := clock w + d; trace := trace w |}).

Definition cache_get (k : string) : M (option CacheEntry) :=
  fun w => (Ok (cache w !! k), w).

Definition cache_set (k : string) (e : CacheEntry) : M unit :=
  fun w => (Ok tt, {| cache := <[k := e]> (cache w); clock := clock w; trace := trace w |}).

Definition cache_update (f : gmap string CacheEntry -> gmap string CacheEntry) : M unit :=
  fun w => (Ok tt, {| cache := f (cache w); clock := clock w; trace := trace w |}).

#[global] Instance M_ret : MRet M := @ret.
#[global] Instance M_bind : MBind M := fun A B k m => bind m k.

End Server.

(** ** utils.js: the scrapers

    The pages are fetched with axios and read with cheerio. A page is
    modelled by what the selectors of the scrapers find in it: for each
    table row the text of the cells the scraper reads. *)

Module Scrapers.

Import Num Str JS Json Utils Server.

(** A row of a coin table: [sponsored] is
    [hasClass('table__sponsored-row')], the other fields are the [.text()]
    of the named element of the row. *)
Record coin_row : Type := {
  sponsored : bool;
  coin_profile_name : string;
  coin_profile_symbol : string;
  real_time_price : string;
  hidden_tablet_landscape : string;
  change_percentage : string;
  change : string;
  semibold : string
}.

(** An element of class [trending-categories__item]; [href] is [None] when
    the attribute is missing. *)
Record category_item : Type := {
  category_profile_name : string;
  category_profile_symbol : string;
  category_change_percentage : string;
  change_positive : bool;
  href : option string
}.

(** A row of the statistics table. *)
Record stats_row : Type := {
  th : string;
  key_value_table_auto_nav : string
}.

Record page : Type := {
  trending_coins_table : list coin_row;
  coins_table : list coin_row;
  all_time_highs_table : list coin_row;
  trending_categories__item : list category_item;
  stats_table : list stats_row
}.

(** What the network answers to one request, after [latency]
    milliseconds: a page, or a failure with its message. *)
Record reply : Type := {
  latency : Z;
  answer : page + string
}.

(** [await axios.get(url, ...)], then [cheerio.load(response.data)] *)
Definition axios_get (url : string) (r : reply) : M page :=
  emit (Fetch url);;
  sleep (latency r);;
  match answer r with
  | inl p => mret p
  | inr message => throw message
  end.

(** [$(selector).each(callback)]: the callback is run on the elements in
    order, until it returns [false]. *)
Fixpoint each {A S : Type} (callback : S -> A -> S * bool) (s : S) (l : list A) : S :=
  match l with
  | [] => s
  | x :: r =>
      let '(s', continue) := callback s x in
      if continue then each callback s' r else s'
  end.

Definition zero : number := Num.of_Z 0.

(** [changePercentage >= 0 ? `+${...toFixed(2)}%` : `${...toFixed(2)}%`] *)
Definition formatted24hChange (changePercentage : number) : string :=
  if geb changePercentage zero
  then ("+" ++ toFixed changePercentage 2 ++ "%")%string
  else (toFixed changePercentage 2 ++ "%")%string.

Definition trendingCoin (element : coin_row) : value :=
  let name := trim (coin_profile_name element) in
  let symbol := trim (coin_profile_symbol element) in
  let priceText := trim (real_time_price element) in
  let price := parseFloat (strip priceText) in
  let marketCapText := trim (hidden_tablet_landscape element) in
  let marketCap := marketCapTextToNum marketCapText in
  let marketCapFormatted := marketCapNumToText marketCap in
  let changePercentageText := trim (change_percentage element) in
  let changePercentage := parseFloat (strip changePercentageText) in
  Obj [("name", Str name);
       ("symbol", Str symbol);
       ("price", Number price);
       ("priceFormatted", Str ("$" ++ toString price));
       ("marketCap", Number marketCap);
       ("marketCapFormatted", Str marketCapFormatted);
       ("change24h", Number changePercentage);
       ("change24hFormatted", Str (formatted24hChange changePercentage));
       ("trending", Bool true)].

Definition scrapeTrendingCoins (r : reply) : M value :=
  p ← axios_get "https://coinranking.com/" r;
  mret (Arr (each (fun trendingCoins element =>
                     ((trendingCoins ++ [trendingCoin element])%list, true))
                  [] (trending_coins_table p))).

(** The callback of [scrapeTrendingCategories] throws a TypeError when the
    element has no [href]: [categoryUrl.startsWith] is read on [undefined]. *)
Definition trendingCategory (element : category_item) : outcome value :=
  let name := trim (category_profile_name element) in
  let marketCapElement := trim (category_profile_symbol element) in
  let marketCap := marketCapTextToNum marketCapElement in
  let marketCapFormatted := marketCapNumToText marketCap in
  let changePercentageText := trim (category_change_percentage element) in
  let changePercentage := parseFloat (strip changePercentageText) in
  let sign := if change_positive element then "+" else "" in
  match href element with
  | None => Throw "Cannot read properties of undefined (reading 'startsWith')"
  | Some _ =>
      Ok (Obj [("name", Str name);
               ("marketCap", Number marketCap);
               ("marketCapFormatted", Str marketCapFormatted);
               ("change24h", Number changePercentage);
               ("change24hFormatted",
                Str (sign ++ toFixed changePercentage 2 ++ "%"))])
  end.

Fixpoint each_throwing {A S : Type} (callback : S -> A -> outcome S)
    (s : S) (l : list A) : outcome S :=
  match l with
  | [] => Ok s
  | x :: r =>
      match callback s x with
      | Ok s' => each_throwing callback s' r
      | Throw e => Throw e
      end
  end.

Definition scrapeTrendingCategories (r : reply) : M value :=
  p ← axios_get "https://coinranking.com/" r;
  l ← lift (each_throwing
              (fun trendingCategories element =>
                 match trendingCategory element with
                 | Ok c => Ok (trendingCategories ++ [c])%list
                 | Throw e => Throw e
                 end)
              [] (trending_categories__item p));
  mret (Arr l).

(** The record pushed by [scrapeTopGainers] and by [scrapeTopLosers]. *)
Definition rankedCoin (element : coin_row) : value :=
  let name := trim (coin_profile_name element) in
  let symbol := trim (coin_profile_symbol element) in
  let price := parseFloat (strip (trim (real_time_price element))) in
  let priceFormatted := ("$" ++ toString price)%string in
  let marketCap := marketCapTextToNum (trim (hidden_tablet_landscape element)) in
  let marketCapText := marketCapNumToText marketCap in
  let changePercentageText := trim (change_percentage element) in
  let changePercentage := parseFloat (strip changePercentageText) in
  Obj [("name", Str name);
       ("symbol", Str symbol);
       ("price", Number price);
       ("priceFormatted", Str priceFormatted);
       ("marketCap", Number marketCap);
       ("marketCapFormatted", Str marketCapText);
       ("change24h", Number changePercentage);
       ("change24hFormatted", Str changePercentageText)].

(** The callback shared by the three ranking scrapers: sponsored rows are
    skipped ([return true]), every other row is counted and pushed, and the
    iteration is stopped ([return false]) once the count reaches 10. *)
Definition ranking_callback (record : coin_row -> value)
    (s : list value * Z) (element : coin_row) : (list value * Z) * bool :=
  let '(results, num) := s in
  if sponsored element then (s, true)
  else
    let num := num + 1 in
    let results := (results ++ [record element])%list in
    if 10 <=? num then ((results, num), false) else ((results, num), true).

Definition scrapeTopGainers (r : reply) : M value :=
  p ← axios_get "https://coinranking.com/coins/gainers" r;
  mret (Arr (fst (each (ranking_callback rankedCoin) ([], 0) (coins_table p)))).

Definition scrapeTopLosers (r : reply) : M value :=
  p ← axios_get "https://coinranking.com/coins/losers" r;
  mret (Arr (fst (each (ranking_callback rankedCoin) ([], 0) (coins_table p)))).

Definition allTimeHigh (element : coin_row) : value :=
  let name := trim (coin_profile_name element) in
  let symbol := trim (coin_profile_symbol element) in
  let price := parseFloat (strip (trim (real_time_price element))) in
  let priceFormatted := ("$" ++ toString price)%string in
  let changePercentageText := trim (change element) in
  let changePercentage := parseFloat (strip changePercentageText) in
  let allTimeHighText := trim (semibold element) in
  let allTimeHigh := parseFloat (strip allTimeHighText) in
  let allTimeHighFormatted := ("$" ++ toFixed allTimeHigh 2)%string in
  Obj [("name", Str name);
       ("symbol", Str symbol);
       ("price", Number price);
       ("priceFormatted", Str priceFormatted);
       ("allTimeHigh", Number allTimeHigh);
       ("allTimeHighFormatted", Str allTimeHighFormatted);
       ("change24h", Number changePercentage);
       ("change24hFormatted", Str changePercentageText)].

Definition allTimeHighs (r : reply) : M value :=
  p ← axios_get "https://coinranking.com/coins/all-time-highs" r;
  mret (Arr (fst (each (ranking_callback allTimeHigh) ([], 0)
                    (all_time_highs_table p)))).

(** [scrapeBTCDominance]: the first row whose title includes
    "BTC dominance" gives the value; without one the value stays [null] and
    [btcDominanceValue.toFixed(2)] throws. *)
Definition btc_callback (s : option number) (element : stats_row)
    : option number * bool :=
  let rowTitle := trim (th element) in
  if includes rowTitle "BTC dominance" then
    let btcDominanceText := trim (key_value_table_auto_nav element) in
    (Some (parseFloat (strip btcDominanceText)), false)
  else (s, true).

Definition scrapeBTCDominance (r : reply) : M value :=
  p ← axios_get "https://coinranking.com/" r;
  match each btc_callback None (stats_table p) with
  | None => throw "Cannot read properties of null (reading 'toFixed')"
  | Some btcDominanceValue =>
      mret (Obj [("btcDominance", Number btcDominanceValue);
                 ("btcDominanceFormatted",
                  Str (toFixed btcDominanceValue 2 ++ "%"))])
  end.

End Scrapers.

(** ** utils.js: the details of a coin, from LiveCoinWatch *)

Module Details.

Import Num Str JS Json Utils Server Scrapers Text.

(** An element of class [cion-item]: the [.text()] of what the scraper
    looks for in it. *)
Record cion_item : Type := {
  label : string;
  span_price : string;
  span : string;
  span_percent_first : string
}.

Record details_page : Type := {
  coin_name : string;
  price_container_rate : string;
  coin_price_large_price : string;
  cion_items : list cion_item
}.

Record details_reply : Type := {
  details_latency : Z;
  details_answer : details_page + string
}.

Definition details_get (url : string) (r : details_reply) : M details_page :=
  emit (Fetch url);;
  sleep (details_latency r);;
  match details_answer r with
  | inl p => mret p
  | inr message => throw message
  end.

(** [word.charAt(0).toUpperCase() + word.slice(1).toLowerCase()] *)
Definition capitalise (word : string) : string :=
  (toUpperCase (charAt0 word) ++ toLowerCase (slice1 word))%string.

(** [coinName.split(' ').map(word => ...).join('')], then [.slice(1)] *)
Definition formattedName (coinName : string) : string :=
  slice1 (join (capitalise <$> split " " coinName)).

(** [coinSymbol.toUpperCase()], then [.slice(1)] *)
Definition formattedSymbol (coinSymbol : string) : string :=
  slice1 (toUpperCase coinSymbol).

Definition details_url (coinName coinSymbol : string) : string :=
  ("https://www.livecoinwatch.com/price/" ++ formattedName coinName ++ "-"
   ++ formattedSymbol coinSymbol)%string.

(** [$(element).find("label").text().trim().toLowerCase()] *)
Definition label_of (element : cion_item) : string :=
  toLowerCase (trim (label element)).

(** The readers of the loops. *)
Definition price_text (element : cion_item) : string := trim (span_price element).

Definition span_text (element : cion_item) : string := trim (span element).

Definition percent_text (element : cion_item) : string :=
  trim (span_percent_first element).

(** A supply: the number of the text, times a million with an "M" in the
    text, else times a billion with a "B". *)
Definition supply (formatted : string) : number :=
  let v := parseFloat (strip formatted) in
  if includes formatted "M" then mul v (Num.of_Z 1000000)
  else if includes formatted "B" then mul v (Num.of_Z 1000000000)
  else v.

(** The loops over the items. Each keeps the variables it assigns; [null]
    is [Null]. *)
Definition market_cap_loop (s : value * value) (element : cion_item)
    : (value * value) * bool :=
  if String.eqb (label_of element) "market cap" then
    let marketCapFormatted := price_text element in
    ((Number (marketCapTextToNum marketCapFormatted), Str marketCapFormatted), true)
  else (s, true).

Definition volume_loop (s : value * value) (element : cion_item)
    : (value * value) * bool :=
  if String.eqb (label_of element) "volume" then
    let volume24hFormatted := price_text element in
    ((Number (marketCapTextToNum volume24hFormatted), Str volume24hFormatted), true)
  else (s, true).

Definition ath_loop (s : value * value) (element : cion_item)
    : (value * value) * bool :=
  if String.eqb (label_of element) "all time high" then
    let athFormatted := span_text element in
    ((Number (parseFloat (strip athFormatted)), Str athFormatted), true)
  else (s, true).

Record changes : Type := {
  change_1h : value; change_24h : value; change_7d : value;
  change_30d : value; change_90d : value; change_1y : value
}.

Definition change_of (element : cion_item) : value :=
  Number (parseFloat (strip (percent_text element))).

Definition changes_loop (s : changes) (element : cion_item) : changes * bool :=
  let l := label_of element in
  let c := change_of element in
  ((if String.eqb l "1h usd" then
      {| change_1h := c; change_24h := change_24h s; change_7d := change_7d s;
         change_30d := change_30d s; change_90d := change_90d s; change_1y := change_1y s |}
    else if String.eqb l "24h usd" then
      {| change_1h := change_1h s; change_24h := c; change_7d := change_7d s;
         change_30d := change_30d s; change_90d := change_90d s; change_1y := change_1y s |}
    else if String.eqb l "7d usd" then
      {| change_1h := change_1h s; change_24h := change_24h s; change_7d := c;
         change_30d := change_30d s; change_90d := change_90d s; change_1y := change_1y s |}
    else if String.eqb l "30d usd" then
      {| change_1h := change_1h s; change_24h := change_24h s; change_7d := change_7d s;
         change_30d := c; change_90d := change_90d s; change_1y := change_1y s |}
    else if String.eqb l "90d usd" then
      {| change_1h := change_1h s; change_24h := change_24h s; change_7d := change_7d s;
         change_30d := change_30d s; change_90d := c; change_1y := change_1y s |}
    else if String.eqb l "1y usd" then
      {| change_1h := change_1h s; change_24h := change_24h s; change_7d := change_7d s;
         change_30d := change_30d s; change_90d := change_90d s; change_1y := c |}
    else s), true).

Record supplies : Type := {
  circulatingSupply : value * value;
  totalSupply : value * value;
  maxSupply : value * value
}.

Definition supply_of (element : cion_item) : value * value :=
  let formatted := price_text element in
  (Number (supply formatted), Str formatted).

Definition supply_loop (s : supplies) (element : cion_item) : supplies * bool :=
  let l := label_of element in
  ((if String.eqb l "circ. supply" then
      {| circulatingSupply := supply_of element; totalSupply := totalSupply s; maxSupply := maxSupply s |}
    else if String.eqb l "total supply" then
      {| circulatingSupply := circulatingSupply s; totalSupply := supply_of element; maxSupply := maxSupply s |}
    else if String.eqb l "max supply" then
      {| circulatingSupply := circulatingSupply s; totalSupply := totalSupply s; maxSupply := supply_of element |}
    else s), true).

Record trading : Type := { range24h : value; low24h : value; high24h : value }.

Definition span_number (element : cion_item) : value :=
  Number (parseFloat (strip (span_text element))).

Definition trading_loop (s : trading) (element : cion_item) : trading * bool :=
  let l := label_of element in
  ((if String.eqb l "24 hr range" then
      {| range24h := span_number element; low24h := low24h s; high24h := high24h s |}
    else if String.eqb l "24 hr low" then
      {| range24h := range24h s; low24h := span_number element; high24h := high24h s |}
    else if String.eqb l "24 hr high" then
      {| range24h := range24h s; low24h := low24h s; high24h := span_number element |}
    else s), true).

(** What the function returns for a page. *)
Definition details_of (p : details_page) : value :=
  let name := trim (coin_name p) in
  let symbol := trim (price_container_rate p) in
  let priceText := trim (coin_price_large_price p) in
  let price := parseFloat (strip priceText) in
  let items := cion_items p in
  let '(marketCap, marketCapFormatted) := each market_cap_loop (Null, Null) items in
  let '(volume24h, volume24hFormatted) := each volume_loop (Null, Null) items in
  let '(ath, athFormatted) := each ath_loop (Null, Null) items in
  let priceChanges :=
    each changes_loop
      {| change_1h := Null; change_24h := Null; change_7d := Null;
         change_30d := Null; change_90d := Null; change_1y := Null |} items in
  let s :=
    each supply_loop
      {| circulatingSupply := (Null, Null); totalSupply := (Null, Null); maxSupply := (Null, Null) |}
      items in
  let t := each trading_loop
             {| range24h := Null; low24h := Null; high24h := Null |} items in
  Obj [("name", Str name);
       ("symbol", Str symbol);
       ("price", Number price);
       ("priceFormatted", Str priceText);
       ("marketCap", marketCap);
       ("marketCapFormatted", marketCapFormatted);
       ("volume24h", volume24h);
       ("volume24hFormatted", volume24hFormatted);
       ("allTimeHigh", ath);
       ("allTimeHighFormatted", athFormatted);
       ("priceChanges",
        Obj [("1h", change_1h priceChanges); ("24h", change_24h priceChanges);
             ("7d", change_7d priceChanges); ("30d", change_30d priceChanges);
             ("90d", change_90d priceChanges); ("1y", change_1y priceChanges)]);
       ("supply",
        Obj [("circulating", (circulatingSupply s).1);
             ("circulatingFormatted", (circulatingSupply s).2);
             ("total", (totalSupply s).1);
             ("totalFormatted", (totalSupply s).2);
             ("max", (maxSupply s).1);
             ("maxFormatted", (maxSupply s).2)]);
       ("trading24h",
        Obj [("range", range24h t); ("low", low24h t); ("high", high24h t)])].

(** The whole function: the URL is logged, the page is fetched and read;
    an error is logged and thrown on. *)
Definition scrapeLiveCoinWatchCoinDetailsByNameAndSymbol
    (coinName coinSymbol : string) (r : details_reply) : M value :=
  try_catch
    (let url := details_url coinName coinSymbol in
     emit (ConsoleLog ("URL: " ++ url));;
     p ← details_get url r;
     mret (details_of p))
    (fun error =>
       emit (ConsoleError ("Error scraping LiveCoinWatch details for " ++ coinName
                           ++ " (" ++ coinSymbol ++ "): " ++ error));;
       throw error).

End Details.

(** ** index.js: the cache layer and the routes *)

Module Index.

Import Num Json Server Scrapers.

(** The own properties of a response object, in order: what [...result]
    spreads. *)
Definition spread (r : ResponseData) : object :=
  [("status", Str (status r));
   ("timestamp", Str (timestamp r));
   ("data", data r)].

(** [cached && (Date.now() - cached.timestamp) < CACHE_DURATION]: the
    entry when the condition holds. *)
Definition valid (now : Z) (cached : option CacheEntry) : option CacheEntry :=
  match cached with
  | Some c => if now - entry_timestamp c <? CACHE_DURATION then Some c else None
  | None => None
  end.

Definition getCachedData (cacheKey : string) (scraperFunction : M value)
    : M ResponseData :=
  cached ← cache_get cacheKey;
  now ← Date_now;
  match valid now cached with
  | Some c => mret (entry_data c)
  | None =>
      freshData ← scraperFunction;
      created ← Date_now;
      let responseData :=
        {| status := "success";
           timestamp := Date.toISOString created;
           data := freshData |} in
      stored ← Date_now;
      cache_set cacheKey {| entry_data := responseData; entry_timestamp := stored |};;
      mret responseData
  end.

(** What [res.status(code).json(body)] sends; [res.json(body)] sends it
    with code 200. *)
Record response : Type := {
  code : Z;
  body : value
}.

Definition fallback_message : string := "Serving cached data due to fetch error".

Definition handleErrorWithCacheFallback (cacheKey : string) (error_message : string)
    (errorMessage : string) : M response :=
  emit (ConsoleError ("Error: " ++ error_message));;
  cached ← cache_get cacheKey;
  match cached with
  | Some c =>
      mret {| code := 200;
              body := Obj (set "message" (Str fallback_message)
                             (spread (entry_data c))) |}
  | None =>
      t ← Date_now;
      mret {| code := 500;
              body := Obj [("status", Str "error");
                           ("message", Str errorMessage);
                           ("timestamp", Str (Date.toISOString t));
                           ("error", Str error_message)] |}
  end.

(** [v.length]: [None] is [undefined]; reading it on [null] throws. *)
Definition length_of (v : value) : outcome (option value) :=
  match v with
  | Arr l => Ok (Some (Number (Num.of_Z (Z.of_nat (length l)))))
  | Str s => Ok (Some (Number (Num.of_Z (Z.of_nat (String.length s)))))
  | Obj o => Ok (get "length" o)
  | Null => Throw "Cannot read properties of null (reading 'length')"
  | _ => Ok None
  end.

(** [v === 0] *)
Definition is_zero (v : option value) : bool :=
  match v with
  | Some (Number x) => SFeqb x (Num.of_Z 0)
  | _ => false
  end.

(** [{...o, k: v}] as [res.json] sends it: a property whose value is
    [undefined] is left out. *)
Definition set_defined (k : string) (v : option value) (o : object) : object :=
  match v with
  | Some v => set k v o
  | None => o
  end.

Definition not_found (message : string) : M response :=
  t ← Date_now;
  mret {| code := 404;
          body := Obj [("status", Str "error");
                       ("message", Str message);
                       ("timestamp", Str (Date.toISOString t))] |}.

(** Every data route has the same shape:
    [try { const result = await getCachedData(key, scraper); respond }
     catch (error) { handleErrorWithCacheFallback(key, error, res, message) }]. *)
Definition route_of (cacheKey : string) (scraper : M value)
    (respond : ResponseData -> M response) (errorMessage : string) : M response :=
  try_catch
    (result ← getCachedData cacheKey scraper; respond result)
    (fun error => handleErrorWithCacheFallback cacheKey error errorMessage).

(** What a list route answers once it has the result: 404 when
    [result.data.length === 0], otherwise
    [{...result, count: result.data.length}]. *)
Definition respond_list (notFound : string) (result : ResponseData) : M response :=
  len ← lift (length_of (data result));
  if is_zero len then not_found notFound
  else mret {| code := 200;
               body := Obj (set_defined "count" len (spread result)) |}.

(** The five list routes are one handler up to the cache key, the scraper
    and the two messages. *)
Definition list_route (cacheKey : string) (scraper : M value)
    (notFound errorMessage : string) : M response :=
  route_of cacheKey scraper (respond_list notFound) errorMessage.

Definition trending_coins (r : reply) : M response :=
  list_route "trending-coins" (scrapeTrendingCoins r)
    "No trending coins found" "Error fetching trending cryptocurrency data".

Definition trending_categories (r : reply) : M response :=
  list_route "trending-categories" (scrapeTrendingCategories r)
    "No trending categories found" "Error fetching trending categories data".

Definition top_gainers (r : reply) : M response :=
  list_route "top-gainers" (scrapeTopGainers r)
    "No top gainers found" "Error fetching top gainers data".

Definition top_losers (r : reply) : M response :=
  list_route "top-losers" (scrapeTopLosers r)
    "No top losers found" "Error fetching top losers data".

Definition all_time_highs (r : reply) : M response :=
  list_route "all-time-highs" (allTimeHighs r)
    "No all-time highs data found" "Error fetching all-time highs data".

(** [v.k] for a property name [k] *)
Definition property (k : string) (v : value) : outcome (option value) :=
  match v with
  | Obj o => Ok (get k o)
  | Null => Throw ("Cannot read properties of null (reading '" ++ k ++ "')")
  | _ => Ok None
  end.

(** The truth value of [v] in a condition. *)
Definition truthy (v : option value) : bool :=
  match v with
  | None | Some Null => false
  | Some (Bool b) => b
  | Some (Number x) =>
      match x with
      | S754_nan | S754_zero _ => false
      | _ => true
      end
  | Some (Str s) => negb (String.eqb s "")
  | Some (Arr _) | Some (Obj _) => true
  end.

(** What /btc-dominance answers once it has the result. *)
Definition respond_btc (result : ResponseData) : M response :=
  d ← lift (property "btcDominance" (data result));
  if negb (truthy d) then not_found "No BTC dominance data found"
  else mret {| code := 200; body := Obj (spread result) |}.

Definition btc_dominance (r : reply) : M response :=
  route_of "btc-dominance" (scrapeBTCDominance r) respond_btc
    "Error fetching BTC dominance data".

Definition welcome : M response :=
  mret {| code := 200; body := Str "Welcome to the Crypto API." |}.

(** GET /cache-status. The entries are listed in the order of
    [map_to_list], not in the insertion order of the [Map]. *)
Definition cacheInfo (now : Z) (kv : string * CacheEntry) : value :=
  let age := (now - entry_timestamp kv.2) / 1000 in
  let remainingTime := Z.max 0 (CACHE_DURATION / 1000 - age) in
  Obj [("key", Str kv.1);
       ("ageSeconds", Number (Num.of_Z age));
       ("remainingSeconds", Number (Num.of_Z remainingTime));
       ("expired", Bool (CACHE_DURATION / 1000 <? age))].

Definition cache_status : M response :=
  fun w =>
    let now := clock w in
    (Ok {| code := 200;
           body := Obj [("status", Str "success");
                        ("timestamp", Str (Date.toISOString now));
                        ("cacheDurationSeconds", Number (Num.of_Z (CACHE_DURATION / 1000)));
                        ("totalCacheEntries", Number (Num.of_Z (Z.of_nat (size (cache w)))));
                        ("cacheEntries", Arr (cacheInfo now <$> map_to_list (cache w)))] |},
     w).

(** DELETE /cache *)
Definition clear_cache : M response :=
  fun w =>
    let clearedCount := Z.of_nat (size (cache w)) in
    (Ok {| code := 200;
           body := Obj [("status", Str "success");
                        ("message", Str ("Cleared " ++ Str.of_Z clearedCount ++ " cache entries"));
                        ("timestamp", Str (Date.toISOString (clock w)))] |},
     {| cache := ∅; clock := clock w; trace := trace w |}).

(** [now - value.timestamp > CACHE_DURATION * 2] *)
Definition doubly_stale (now : Z) (value : CacheEntry) : bool :=
  CACHE_DURATION * 2 <? now - entry_timestamp value.

(** One turn of the loop of [cleanupCache], on the cache and
    [cleanedCount]. *)
Definition cleanup_turn (now : Z) (s : gmap string CacheEntry * Z)
    (kv : string * CacheEntry) : gmap string CacheEntry * Z :=
  if doubly_stale now kv.2 then (delete kv.1 s.1, s.2 + 1) else s.

(** The loop of [cleanupCache] over [cache.entries()]: the cache it leaves
    and the final [cleanedCount]. *)
Definition cleanup_loop (now : Z) (c : gmap string CacheEntry)
    : gmap string CacheEntry * Z :=
  foldl (cleanup_turn now) (c, 0) (map_to_list c).

Definition cleanupCache : M unit :=
  fun w =>
    let now := clock w in
    let '(c, cleanedCount) := cleanup_loop now (cache w) in
    let w' := {| cache := c; clock := clock w; trace := trace w |} in
    if 0 <? cleanedCount
    then emit (ConsoleLog ("Cache cleanup: Removed " ++ Str.of_Z cleanedCount
                           ++ " expired entries")) w'
    else (Ok tt, w').

(** *** The server as a transition system *)

Inductive route : Type :=
  | GET_crypto
  | GET_trending_coins
  | GET_trending_categories
  | GET_top_gainers
  | GET_top_losers
  | GET_all_time_highs
  | GET_btc_dominance
  | GET_cache_status
  | DELETE_cache.

Definition handle (rt : route) (r : reply) : M response :=
  match rt with
  | GET_crypto => welcome
  | GET_trending_coins => trending_coins r
  | GET_trending_categories => trending_categories r
  | GET_top_gainers => top_gainers r
  | GET_top_losers => top_losers r
  | GET_all_time_highs => all_time_highs r
  | GET_btc_dominance => btc_dominance r
  | GET_cache_status => cache_status
  | DELETE_cache => clear_cache
  end.

(** What happens to the process: a request is served (the network giving
    [r] if the handler asks), the cleanup timer fires, or time passes. *)
Inductive input : Type :=
  | Request (rt : route) (r : reply)
  | Timer
  | Wait (d : Z).

Definition step (i : input) (w : world) : option response * world :=
  match i with
  | Request rt r =>
      match handle rt r w with
      | (Ok res, w') => (Some res, w')
      | (Throw _, w') => (None, w')
      end
  | Timer => (None, (cleanupCache w).2)
  | Wait d => (None, (sleep d w).2)
  end.

Fixpoint run (inputs : list input) (w : world) : list (option response) * world :=
  match inputs with
  | [] => ([], w)
  | i :: r =>
      let '(res, w') := step i w in
      let '(rs, w'') := run r w' in
      (res :: rs, w'')
  end.

(** The process starts with an empty cache. *)
Definition start (t : Z) : world := {| cache := ∅; clock := t; trace := [] |}.

End Index.

(** ** Notions used to state the properties *)

Module Spec.

Import Num Json Server Scrapers Index.

(** A producer has no access to the cache of index.js. *)
Definition external {A : Type} (producer : M A) : Prop :=
  forall w, cache (producer w).2 = cache w.

(** The requests sent upstream. *)
Definition fetches (t : list event) : nat :=
  length (List.filter (fun e => match e with Fetch _ => true | _ => false end) t).

(** The cache key of a data route. *)
Definition key_of (rt : route) : option string :=
  match rt with
  | GET_trending_coins => Some "trending-coins"
  | GET_trending_categories => Some "trending-categories"
  | GET_top_gainers => Some "top-gainers"
  | GET_top_losers => Some "top-losers"
  | GET_all_time_highs => Some "all-time-highs"
  | GET_btc_dominance => Some "btc-dominance"
  | _ => None
  end.

(** The producer of a data route. *)
Definition scraper_of (rt : route) (r : reply) : M value :=
  match rt with
  | GET_trending_coins => scrapeTrendingCoins r
  | GET_trending_categories => scrapeTrendingCategories r
  | GET_top_gainers => scrapeTopGainers r
  | GET_top_losers => scrapeTopLosers r
  | GET_all_time_highs => allTimeHighs r
  | GET_btc_dominance => scrapeBTCDominance r
  | _ => throw "no producer"
  end.

Definition is_list_route (rt : route) : bool :=
  match rt with
  | GET_trending_coins | GET_trending_categories | GET_top_gainers
  | GET_top_losers | GET_all_time_highs => true
  | _ => false
  end.

(** The stale-fallback body: the stored envelope with the marker. *)
Definition stale_body (stored : ResponseData) : value :=
  Obj [("status", Str (status stored));
       ("timestamp", Str (timestamp stored));
       ("data", data stored);
       ("message", Str "Serving cached data due to fetch error")].

(** The body of the error response of the cold path. *)
Definition error_body (errorMessage : string) (t : Z) (error : string) : value :=
  Obj [("status", Str "error");
       ("message", Str errorMessage);
       ("timestamp", Str (Date.toISOString t));
       ("error", Str error)].

(** The world a scraper leaves: one request went out and its latency
    passed; the cache is not touched. *)
Definition fetched (url : string) (r : reply) (w : world) : world :=
  {| cache := cache w;
     clock := clock w + latency r;
     trace := trace w ++ [Fetch url] |}.

(** The page a data route asks for. *)
Definition url_of (rt : route) : string :=
  match rt with
  | GET_top_gainers => "https://coinranking.com/coins/gainers"
  | GET_top_losers => "https://coinranking.com/coins/losers"
  | GET_all_time_highs => "https://coinranking.com/coins/all-time-highs"
  | _ => "https://coinranking.com/"
  end.

(** What a scraper makes of the page: its result is a function of the
    reply alone. *)
Definition parsed (rt : route) (p : page) : outcome value :=
  match rt with
  | GET_trending_coins =>
      Ok (Arr (each (fun acc element => ((acc ++ [trendingCoin element])%list, true))
                 [] (trending_coins_table p)))
  | GET_trending_categories =>
      match each_throwing
              (fun acc element =>
                 match trendingCategory element with
                 | Ok c => Ok (acc ++ [c])%list
                 | Throw e => Throw e
                 end) [] (trending_categories__item p) with
      | Ok l => Ok (Arr l)
      | Throw e => Throw e
      end
  | GET_top_gainers | GET_top_losers =>
      Ok (Arr (each (ranking_callback rankedCoin) ([], 0) (coins_table p)).1)
  | GET_all_time_highs =>
      Ok (Arr (each (ranking_callback allTimeHigh) ([], 0) (all_time_highs_table p)).1)
  | GET_btc_dominance =>
      match each btc_callback None (stats_table p) with
      | None => Throw "Cannot read properties of null (reading 'toFixed')"
      | Some x => Ok (Obj [("btcDominance", Number x);
                           ("btcDominanceFormatted", Str (JS.toFixed x 2 ++ "%"))])
      end
  | _ => Throw "no producer"
  end.

Definition produced (rt : route) (r : reply) : outcome value :=
  match answer r with
  | inl p => parsed rt p
  | inr message => Throw message
  end.

(** The world after the error handler ran in [w]. *)
Definition logged (error : string) (w : world) : world :=
  {| cache := cache w; clock := clock w;
     trace := trace w ++ [ConsoleError ("Error: " ++ error)] |}.

(** Two worlds that a call for [k] cannot tell apart: the same entry (or
    none) under [k], and the same time. *)
Definition alike (k : string) (w w' : world) : Prop :=
  cache w !! k = cache w' !! k /\ clock w = clock w'.

(** A computation that reads the cache under [k] only, and the clock. *)
Definition local {A : Type} (k : string) (m : M A) : Prop :=
  forall w w', alike k w w' -> (m w).1 = (m w').1 /\ alike k (m w).2 (m w').2.

(** The cache after a refresh of [k] that started in [w] and got [d]. *)
Definition refreshed (k : string) (r : reply) (d : value) (w : world)
    : gmap string CacheEntry :=
  let t := clock w + latency r in
  <[k := {| entry_data := {| status := "success";
                             timestamp := Date.toISOString t;
                             data := d |};
            entry_timestamp := t |}]> (cache w).

(** The request invokes its producer, and the producer returns [d]. *)
Definition refreshes (rt : route) (r : reply) (w : world) (d : value) : Prop :=
  exists k, key_of rt = Some k
            /\ valid (clock w) (cache w !! k) = None
            /\ scraper_of rt r w = (Ok d, fetched (url_of rt) r w).

(** A computation that sends nothing upstream. *)
Definition quiet {A : Type} (m : M A) : Prop :=
  forall w, fetches (trace (m w).2) = fetches (trace w).

(** Every entry holds what the producer of its route returned for some
    reply of the network. *)
Definition well_formed (w : world) : Prop :=
  forall rt k e,
    key_of rt = Some k -> cache w !! k = Some e ->
    status (entry_data e) = "success"
    /\ exists r, produced rt r = Ok (data (entry_data e)).

(** A computation during which no time passes. *)
Definition timeless {A : Type} (m : M A) : Prop :=
  forall w, clock (m w).2 = clock w.

Definition is_ranking_route (rt : route) : bool :=
  match rt with
  | GET_top_gainers | GET_top_losers | GET_all_time_highs => true
  | _ => false
  end.

(** The messages of a list route: not found, and error. *)
Definition messages_of (rt : route) : string * string :=
  match rt with
  | GET_trending_coins =>
      ("No trending coins found", "Error fetching trending cryptocurrency data")
  | GET_trending_categories =>
      ("No trending categories found", "Error fetching trending categories data")
  | GET_top_gainers =>
      ("No top gainers found", "Error fetching top gainers data")
  | GET_top_losers =>
      ("No top losers found", "Error fetching top losers data")
  | GET_all_time_highs =>
      ("No all-time highs data found", "Error fetching all-time highs data")
  | _ => ("No BTC dominance data found", "Error fetching BTC dominance data")
  end.

(** What a data route answers once it has the result. *)
Definition respond_of (rt : route) : ResponseData -> M response :=
  match rt with
  | GET_btc_dominance => respond_btc
  | _ => respond_list (messages_of rt).1
  end.

(** The properties of a body; none for a body that is not an object. *)
Definition fields_of (v : value) : object :=
  match v with
  | Obj o => o
  | _ => []
  end.

(** The four bodies a list route sends. *)
Inductive list_response (rt : route) : response -> Prop :=
  | response_not_found (t : Z) :
      list_response rt
        {| code := 404;
           body := Obj [("status", Str "error");
                        ("message", Str (messages_of rt).1);
                        ("timestamp", Str (Date.toISOString t))] |}
  | response_success (r : reply) (ts : string) (l : list value) :
      produced rt r = Ok (Arr l) ->
      list_response rt
        {| code := 200;
           body := Obj [("status", Str "success");
                        ("timestamp", Str ts);
                        ("data", Arr l);
                        ("count", Number (Num.of_Z (Z.of_nat (length l))))] |}
  | response_stale (r : reply) (ts : string) (l : list value) :
      produced rt r = Ok (Arr l) ->
      list_response rt
        {| code := 200;
           body := Obj [("status", Str "success");
                        ("timestamp", Str ts);
                        ("data", Arr l);
                        ("message", Str "Serving cached data due to fetch error")] |}
  | response_error (t : Z) (error : string) :
      list_response rt
        {| code := 500;
           body := Obj [("status", Str "error");
                        ("message", Str (messages_of rt).2);
                        ("timestamp", Str (Date.toISOString t));
                        ("error", Str error)] |}.

(** The count field law as the specification words it: [count] is present
    exactly when [data] is a list, and is then the length of the list. *)
Definition count_law (res : response) : Prop :=
  let fields := fields_of (body res) in
  (is_Some (Json.get "count" fields) <->
   exists l, Json.get "data" fields = Some (Arr l))
  /\ (forall l, Json.get "data" fields = Some (Arr l) ->
       Json.get "count" fields = Some (Number (Num.of_Z (Z.of_nat (length l))))).

(** The second sentence of the cache hit law as the specification words
    it: of two calls of [getCachedData] in a row with the same key, the
    second [d] milliseconds after the first, at most one invokes its
    producer. The producers meant are the scrapers, which send one request
    upstream each time they are invoked. *)
Definition at_most_once (cacheKey : string) (first second : M value) (w : world)
    (d : Z) : Prop :=
  let w1 := (getCachedData cacheKey first w).2 in
  let w2 := (getCachedData cacheKey second (sleep d w1).2).2 in
  (fetches (trace w2) <= S (fetches (trace w)))%nat.

(** The age of an entry, in milliseconds. *)
Definition age (now : Z) (e : CacheEntry) : Z := now - entry_timestamp e.

(** The entries a pass keeps. *)
Definition kept (now : Z) (kv : string * CacheEntry) : Prop :=
  doubly_stale now kv.2 = false.

#[global] Instance kept_dec now kv : Decision (kept now kv).
Proof. unfold kept. apply _. Defined.

End Spec.

(** ** The canonicalisation engine as the specification words it *)

Module Claimed.

Import Num Str JS Utils.

(** [sub] occurs in [s]. *)
Definition occurs (sub s : string) : Prop :=
  exists pre post, s = (pre ++ sub ++ post)%string.

Definition lower_char (c : ascii) : ascii :=
  let n := nat_of_ascii c in
  if (65 <=? n)%nat && (n <=? 90)%nat then ascii_of_nat (n + 32) else c.

Fixpoint lower (s : string) : string :=
  match s with
  | EmptyString => EmptyString
  | String c s' => String (lower_char c) (lower s')
  end.

(** Follows the specification: the scale indicator is looked for without
    regard to case, "trillion" or "T" first, then "billion" or "B", then
    "million" or "M"; with no match the multiplier is 1. *)
Definition multiplier (text : string) : number :=
  let t := lower text in
  if includes t "trillion" || includes t "t" then trillion
  else if includes t "billion" || includes t "b" then billion
  else if includes t "million" || includes t "m" then million
  else Num.of_Z 1.

(** Follows the specification: the number parsed from the stripped text,
    times the multiplier. *)
Definition textToNumber (text : string) : number :=
  mul (parseFloat (strip text)) (multiplier text).

(** The relative error of [x] with respect to [v] is at most [bound]. *)
Definition within (bound : Q) (x v : number) : Prop :=
  match toQ x, toQ v with
  | Some qx, Some qv => (Qabs (qx - qv) <= bound * Qabs qv)%Q
  | _, _ => False
  end.

End Claimed.

(** ** Further notions, for the statements that follow *)

Module Notions.

Import Num Str JS Json Utils Server Scrapers Index Spec Text Details.

(** The world a successful refresh of [k] leaves. *)
Definition stored (rt : route) (k : string) (r : reply) (d : value) (w : world) : world :=
  {| cache := refreshed k r d w;
     clock := clock w + latency r;
     trace := trace w ++ [Fetch (url_of rt)] |}.

(** The envelope a refresh builds. *)
Definition envelope (r : reply) (d : value) (w : world) : ResponseData :=
  {| status := "success";
     timestamp := Date.toISOString (clock w + latency r);
     data := d |}.

(** What a data route does once [getCachedData] returned [result]. *)
Definition conclude (rt : route) (k : string) (result : ResponseData) : M response :=
  try_catch (respond_of rt result)
    (fun error => handleErrorWithCacheFallback k error (messages_of rt).2).

(** The requests of data routes among the inputs. *)
Definition data_requests (inputs : list input) : nat :=
  length (List.filter (fun i => match i with
                                | Request rt _ => bool_decide (is_Some (key_of rt))
                                | _ => false
                                end) inputs).

(** The keys of the six data routes. *)
Definition route_keys : list string :=
  ["trending-coins"; "trending-categories"; "top-gainers"; "top-losers";
   "all-time-highs"; "btc-dominance"].

(** The title of a row of the statistics table names the dominance. *)
Definition names_dominance (row : stats_row) : bool :=
  includes (trim (th row)) "BTC dominance".

Definition push_category (trendingCategories : list value) (element : category_item)
    : outcome (list value) :=
  match trendingCategory element with
  | Ok c => Ok (trendingCategories ++ [c])%list
  | Throw e => Throw e
  end.

(** The last item that carries the label [l]. *)
Fixpoint last_labelled (l : string) (items : list cion_item) : option cion_item :=
  match items with
  | [] => None
  | element :: rest =>
      match last_labelled l rest with
      | Some e => Some e
      | None => if String.eqb (label_of element) l then Some element else None
      end
  end.

(** What is read from the last item that carries the label; [null]
    without one. *)
Definition found (l : string) (reader : cion_item -> value) (items : list cion_item)
    : value :=
  match last_labelled l items with
  | Some e => reader e
  | None => Null
  end.

(** The fields of the result that come from the items: the name of the
    field, the label looked for, and what is read from the item. *)
Definition item_fields : list (string * string * (cion_item -> value)) :=
  [("marketCap", "market cap", fun e => Number (marketCapTextToNum (price_text e)));
   ("marketCapFormatted", "market cap", fun e => Str (price_text e));
   ("volume24h", "volume", fun e => Number (marketCapTextToNum (price_text e)));
   ("volume24hFormatted", "volume", fun e => Str (price_text e));
   ("allTimeHigh", "all time high", fun e => Number (parseFloat (strip (span_text e))));
   ("allTimeHighFormatted", "all time high", fun e => Str (span_text e))].

Definition change_fields : list (string * string * (cion_item -> value)) :=
  [("1h", "1h usd", change_of); ("24h", "24h usd", change_of);
   ("7d", "7d usd", change_of); ("30d", "30d usd", change_of);
   ("90d", "90d usd", change_of); ("1y", "1y usd", change_of)].

Definition supply_fields : list (string * string * (cion_item -> value)) :=
  [("circulating", "circ. supply", fun e => Number (supply (price_text e)));
   ("circulatingFormatted", "circ. supply", fun e => Str (price_text e));
   ("total", "total supply", fun e => Number (supply (price_text e)));
   ("totalFormatted", "total supply", fun e => Str (price_text e));
   ("max", "max supply", fun e => Number (supply (price_text e)));
   ("maxFormatted", "max supply", fun e => Str (price_text e))].

Definition trading_fields : list (string * string * (cion_item -> value)) :=
  [("range", "24 hr range", span_number); ("low", "24 hr low", span_number);
   ("high", "24 hr high", span_number)].

(** *** Reading a time stamp *)

(** The [n] digits in front of [s]: their value, continuing from [acc],
    and what follows them. *)
Fixpoint read_digits (n : nat) (acc : Z) (s : string) : option (Z * string) :=
  match n with
  | O => Some (acc, s)
  | S n' =>
      match s with
      | String c r =>
          if is_digit c then read_digits n' (10 * acc + digit_val c) r else None
      | EmptyString => None
      end
  end.

(** The character [c] in front of [s], and what follows it. *)
Definition read_char (c : ascii) (s : string) : option string :=
  match s with
  | String c' r => if Ascii.eqb c c' then Some r else None
  | EmptyString => None
  end.

(** A year: four digits, or a sign and six digits; the year 0 takes no
    minus sign. *)
Definition read_year (s : string) : option (Z * string) :=
  match s with
  | String "+" r => read_digits 6 0 r
  | String "-" r =>
      match read_digits 6 0 r with
      | Some (y, r') => if y =? 0 then None else Some (- y, r')
      | None => None
      end
  | _ => read_digits 4 0 s
  end.

(** The day number, counted from 1970-01-01, of the day [d] of the month
    [m] of the year [y] of the Gregorian calendar. *)
Definition days_from_civil (y m d : Z) : Z :=
  let y' := if m <=? 2 then y - 1 else y in
  let era := y' / 400 in
  let yoe := y' - era * 400 in
  let mp := if 2 <? m then m - 3 else m + 9 in
  let doy := (153 * mp + 2) / 5 + d - 1 in
  let doe := yoe * 365 + yoe / 4 - yoe / 100 + doy in
  era * 146097 + doe - 719468.

(** The day [d] of the month [m] of the year [y] is a day of the
    calendar: it is the date of its day number. *)
Definition calendar_day (y m d : Z) : bool :=
  let '(y', m', d') := Date.civil_from_days (days_from_civil y m d) in
  (y' =? y) && (m' =? m) && (d' =? d).

(** The time value that a text in the date-time format of ISO 8601 that
    ECMAScript uses, [YYYY-MM-DDTHH:mm:ss.sssZ], stands for; [None] for a
    text that is not of the format or names no day of the calendar. *)
Definition read_iso_8601 (s : string) : option Z :=
  '(y, s) ← read_year s;
  s ← read_char "-" s;
  '(m, s) ← read_digits 2 0 s;
  s ← read_char "-" s;
  '(d, s) ← read_digits 2 0 s;
  s ← read_char "T" s;
  '(h, s) ← read_digits 2 0 s;
  s ← read_char ":" s;
  '(mi, s) ← read_digits 2 0 s;
  s ← read_char ":" s;
  '(sec, s) ← read_digits 2 0 s;
  s ← read_char "." s;
  '(ms, s) ← read_digits 3 0 s;
  s ← read_char "Z" s;
  if String.eqb s "" && calendar_day y m d
     && (h <=? 23) && (mi <=? 59) && (sec <=? 59)
  then Some (days_from_civil y m d * 86400000
             + h * 3600000 + mi * 60000 + sec * 1000 + ms)
  else None.

(** The time values of [Date]: at most 8.64e15 ms from the epoch on either
    side. [Date.now()] gives one of them. *)
Definition time_value (t : Z) : Prop :=
  -8640000000000000 <= t <= 8640000000000000.

(** *** The digits of a number *)

(** The floor of the round trip through the text of a market cap:
    0.049504950495049514, the least number that the 0.05 read back from
    its text "$0.05" is within 1% of (the number next above 0.05 / 1.01). *)
Definition round_trip_floor : number :=
  Num.of_decimal false 49504950495049514 (-18).

(** The candidate from below in the search for the shortest digits of
    [num / den]: the largest integer [lo] with [lo * 10^p <= num / den]. *)
Definition lower_candidate (num den p : Z) : Z :=
  if 0 <=? p then num / (den * 10 ^ p) else (num * 10 ^ (- p)) / den.

End Notions.

(** ** Concrete pages and runs *)

Module Examples.

Import Num Json Server Scrapers Index Spec.

Definition coin (ad : bool) (name cap : string) : coin_row :=
  {| sponsored := ad;
     coin_profile_name := name;
     coin_profile_symbol := " BTC ";
     real_time_price := "$ 67,123.45";
     hidden_tablet_landscape := cap;
     change_percentage := "+4.56%";
     change := "-1.20%";
     semibold := "$ 69,000.00" |}.

Definition a_page (rows : list coin_row) : page :=
  {| trending_coins_table := rows;
     coins_table := rows;
     all_time_highs_table := rows;
     trending_categories__item := [];
     stats_table := [] |}.

Definition three_rows : list coin_row :=
  [coin false "Bitcoin" "$ 2.3 billion"; coin true "Promoted" "$ 1 million";
   coin false "Ether" "$ 412.5 billion"].

(** The network answers with a page of three rows after 120 ms. *)
Definition up : reply := {| latency := 120; answer := inl (a_page three_rows) |}.

(** The network fails after 50 ms. *)
Definition down : reply :=
  {| latency := 50; answer := inr "Request failed with status code 503" |}.

Definition t0 : Z := 1700000000000.

(** A first request that succeeds, a wait of 400 s, and a second request
    that fails. *)
Definition outage : list input :=
  [Request GET_trending_coins up; Wait 400000; Request GET_trending_coins down].

(** The world after the first request of [outage] and the wait. *)
Definition after_wait : world :=
  (run [Request GET_trending_coins up; Wait 400000] (start t0)).2.

(** The first call of [getCachedData] in [outage], the world it leaves,
    the world 400 s later, and the world after the producer failed then. *)
Definition first_call : outcome ResponseData * world :=
  getCachedData "trending-coins" (scrapeTrendingCoins up) (start t0).

Definition w_first : world := first_call.2.

Definition w_later : world := (sleep 400000 w_first).2.

Definition w_failed : world := (scrapeTrendingCoins down w_later).2.

(** The entry the first request of [outage] stores. *)
Definition first_entry : CacheEntry :=
  match cache w_first !! "trending-coins" with
  | Some e => e
  | None => {| entry_data := {| status := ""; timestamp := ""; data := Null |};
               entry_timestamp := 0 |}
  end.

(** The world after a producer failed in a process that just started. *)
Definition w_cold : world := (scrapeTopGainers down (start t0)).2.

(** The answer to the last request of [outage]. *)
Definition stale_answer : option response :=
  match (run outage (start t0)).1 with
  | [_; _; res] => res
  | _ => None
  end.

(** A world with one entry that is 700 s old and one that is 100 s old. *)
Definition two_entries : world :=
  (run [Request GET_trending_coins up; Wait 600000; Request GET_top_gainers up;
        Wait 100000] (start t0)).2.

(** The envelope the first request of [outage] stores. *)
Definition first_envelope : ResponseData :=
  match getCachedData "trending-coins" (scrapeTrendingCoins up) (start t0) with
  | (Ok stored, _) => stored
  | (Throw _, _) => {| status := ""; timestamp := ""; data := Null |}
  end.

End Examples.

(** ** More pages and answers *)

Module Scenes.

Import Num Str JS Json Utils Server Scrapers Index Spec Examples Text Details.

(** The network answers with a page whose tables are empty. *)
Definition empty_market : reply := {| latency := 80; answer := inl (a_page []) |}.

(** A page with a statistics table of three rows, two of which name the
    dominance, and two categories. *)
Definition stats_rows : list stats_row :=
  [{| th := " Coins "; key_value_table_auto_nav := " 12,345 " |};
   {| th := " BTC dominance "; key_value_table_auto_nav := " 54.3% " |};
   {| th := "BTC dominance (7d)"; key_value_table_auto_nav := "51.0%" |}].

Definition category (name : string) (link : option string) : category_item :=
  {| category_profile_name := name;
     category_profile_symbol := "$ 1.2 trillion";
     category_change_percentage := "3.1%";
     change_positive := true;
     href := link |}.

Definition front_page (links : list (option string)) : page :=
  {| trending_coins_table := three_rows;
     coins_table := [];
     all_time_highs_table := [];
     trending_categories__item := category " DeFi " <$> links;
     stats_table := stats_rows |}.

Definition front : reply :=
  {| latency := 90; answer := inl (front_page [Some "/coins/defi"; Some "https://x.io/l2"]) |}.

(** The answer to the first request of [outage]. *)
Definition first_answer : response :=
  match (handle GET_trending_coins up (start t0)).1 with
  | Ok res => res
  | Throw _ => {| code := 0; body := Null |}
  end.

(** What scrapeBTCDominance makes of [front]. *)
Definition front_dominance : value :=
  match produced GET_btc_dominance front with
  | Ok d => d
  | Throw _ => Null
  end.

(** A page of details with two items labelled as market cap. *)
Definition item (l price : string) : cion_item :=
  {| label := l; span_price := price; span := price; span_percent_first := "" |}.

Definition details_example : details_page :=
  {| coin_name := " Bitcoin ";
     price_container_rate := " BTC ";
     coin_price_large_price := " $67,123.45 ";
     cion_items := [item " Market Cap " "$1.30T"; item "Volume" "$35.2B";
                    item "MARKET CAP" " $1.32T "; item "Circ. Supply" "19.7M"] |}.

Definition details_up : details_reply :=
  {| details_latency := 150; details_answer := inl details_example |}.

End Scenes.

(** ** The cache layer: hit, refresh and failure *)

Module CacheLaws.

Import Num Json Server Scrapers Index Spec.

Ltac run_monad :=
  unfold mbind, M_bind, bind, mret, M_ret, ret, lift, throw, try_catch,
    cache_get, cache_set, Date_now, emit, sleep in *;
  simpl in *.

Lemma getCachedData_hit (cacheKey : string) (scraper : M value) (w : world)
    (c : CacheEntry) :
  cache w !! cacheKey = Some c ->
  age (clock w) c < CACHE_DURATION ->
  getCachedData cacheKey scraper w = (Ok (entry_data c), w).
Proof.
  intros Hc Hage. unfold getCachedData, age in *. run_monad.
  rewrite Hc. simpl.
  by apply Z.ltb_lt in Hage as ->.
Qed.

Lemma valid_None (now : Z) (cached : option CacheEntry) :
  valid now cached = None <->
  (cached = None \/ exists c, cached = Some c /\ CACHE_DURATION <= age now c).
Proof.
  unfold valid, age. destruct cached as [c|]; [|by split; auto].
  destruct (_ <? _) eqn:E; [apply Z.ltb_lt in E | apply Z.ltb_ge in E]; split.
  - discriminate.
  - intros [? | (c' & [= <-] & ?)]; [done | lia].
  - intros _. right. eauto.
  - done.
Qed.

Lemma valid_Some (now : Z) (cached : option CacheEntry) (c : CacheEntry) :
  valid now cached = Some c <-> (cached = Some c /\ age now c < CACHE_DURATION).
Proof.
  unfold valid, age.
  destruct cached as [c'|]; [| split; [discriminate | intros [? _]; discriminate]].
  destruct (_ <? _) eqn:E; [apply Z.ltb_lt in E | apply Z.ltb_ge in E]; split.
  - by intros [= ->].
  - by intros [[= ->] _].
  - discriminate.
  - intros [[= ->] ?]. lia.
Qed.

(** The refresh path, when the producer returns. *)
Lemma getCachedData_refresh (cacheKey : string) (scraper : M value) (w w1 : world)
    (freshData : value) :
  valid (clock w) (cache w !! cacheKey) = None ->
  scraper w = (Ok freshData, w1) ->
  let responseData :=
    {| status := "success";
       timestamp := Date.toISOString (clock w1);
       data := freshData |} in
  getCachedData cacheKey scraper w =
    (Ok responseData,
     {| cache := <[cacheKey := {| entry_data := responseData;
                                  entry_timestamp := clock w1 |}]> (cache w1);
        clock := clock w1;
        trace := trace w1 |}).
Proof.
  intros Hv Hs. unfold getCachedData. run_monad. rewrite Hv, Hs. done.
Qed.

(** The refresh path, when the producer throws. *)
Lemma getCachedData_failure (cacheKey : string) (scraper : M value) (w w1 : world)
    (error : string) :
  valid (clock w) (cache w !! cacheKey) = None ->
  scraper w = (Throw error, w1) ->
  getCachedData cacheKey scraper w = (Throw error, w1).
Proof.
  intros Hv Hs. unfold getCachedData. run_monad. rewrite Hv, Hs. done.
Qed.

(** [getCachedData] throws only what the producer throws. *)
Lemma getCachedData_throws (cacheKey : string) (scraper : M value) (w w1 : world)
    (error : string) :
  getCachedData cacheKey scraper w = (Throw error, w1) ->
  valid (clock w) (cache w !! cacheKey) = None /\ scraper w = (Throw error, w1).
Proof.
  unfold getCachedData. run_monad.
  destruct (valid (clock w) (cache w !! cacheKey)) as [c|]; [discriminate|].
  destruct (scraper w) as [[d|e] w'] eqn:Hs; [discriminate|].
  intros [= -> ->]. done.
Qed.

Lemma handleError_stored (cacheKey error errorMessage : string) (w : world)
    (c : CacheEntry) :
  cache w !! cacheKey = Some c ->
  handleErrorWithCacheFallback cacheKey error errorMessage w =
    (Ok {| code := 200; body := stale_body (entry_data c) |},
     {| cache := cache w; clock := clock w;
        trace := trace w ++ [ConsoleError ("Error: " ++ error)] |}).
Proof.
  intros Hc. unfold handleErrorWithCacheFallback. run_monad. rewrite Hc. done.
Qed.

Lemma handleError_cold (cacheKey error errorMessage : string) (w : world) :
  cache w !! cacheKey = None ->
  handleErrorWithCacheFallback cacheKey error errorMessage w =
    (Ok {| code := 500; body := error_body errorMessage (clock w) error |},
     {| cache := cache w; clock := clock w;
        trace := trace w ++ [ConsoleError ("Error: " ++ error)] |}).
Proof.
  intros Hc. unfold handleErrorWithCacheFallback. run_monad. rewrite Hc. done.
Qed.

(** *** The producers of the routes *)

Lemma axios_get_run (url : string) (r : reply) (w : world) :
  axios_get url r w =
    (match answer r with inl p => Ok p | inr message => Throw message end,
     fetched url r w).
Proof. unfold axios_get. run_monad. by destruct (answer r). Qed.

Lemma scraper_run (rt : route) (k : string) (r : reply) (w : world) :
  key_of rt = Some k ->
  scraper_of rt r w = (produced rt r, fetched (url_of rt) r w).
Proof.
  intros Hk. unfold produced.
  destruct rt; try discriminate; simpl;
    unfold scrapeTrendingCoins, scrapeTrendingCategories, scrapeTopGainers,
      scrapeTopLosers, allTimeHighs, scrapeBTCDominance;
    unfold mbind, M_bind, bind; rewrite axios_get_run;
    destruct (answer r) as [p|message]; try reflexivity; simpl.
  - unfold lift. by destruct (each_throwing _ _ _).
  - by destruct (each btc_callback None (stats_table p)).
Qed.

Lemma scraper_external (rt : route) (r : reply) : external (scraper_of rt r).
Proof.
  intros w. destruct (key_of rt) as [k|] eqn:Hk.
  - by rewrite (scraper_run rt k r w Hk).
  - by destruct rt.
Qed.

(** *** What a call leaves in the cache *)

Lemma getCachedData_returns (cacheKey : string) (scraper : M value) (w w1 : world)
    (stored : ResponseData) :
  getCachedData cacheKey scraper w = (Ok stored, w1) ->
  exists t, cache w1 !! cacheKey =
              Some {| entry_data := stored; entry_timestamp := t |}.
Proof.
  unfold getCachedData. run_monad.
  destruct (valid (clock w) (cache w !! cacheKey)) as [c|] eqn:Hv.
  - intros [= <- <-]. apply valid_Some in Hv as [Hc _].
    exists (entry_timestamp c). rewrite Hc. by destruct c.
  - destruct (scraper w) as [[d|e] w'] eqn:Hs; [|discriminate].
    intros [= <- <-]. simpl. eexists. apply lookup_insert_eq.
Qed.

Lemma route_of_failure (cacheKey : string) (scraper : M value)
    (respond : ResponseData -> M response) (errorMessage error : string)
    (w w1 : world) :
  getCachedData cacheKey scraper w = (Throw error, w1) ->
  route_of cacheKey scraper respond errorMessage w =
    handleErrorWithCacheFallback cacheKey error errorMessage w1.
Proof. intros H. unfold route_of. run_monad. by rewrite H. Qed.

(** One failing refresh with an entry in store. *)
Lemma stale_fallback (cacheKey : string) (scraper : M value)
    (respond : ResponseData -> M response) (errorMessage error : string)
    (w w1 : world) (c : CacheEntry) :
  cache w !! cacheKey = Some c ->
  CACHE_DURATION <= age (clock w) c ->
  scraper w = (Throw error, w1) ->
  cache w1 = cache w ->
  route_of cacheKey scraper respond errorMessage w =
    (Ok {| code := 200; body := stale_body (entry_data c) |}, logged error w1).
Proof.
  intros Hc Hage Hs Hext.
  rewrite (route_of_failure _ _ _ _ error w w1).
  - apply handleError_stored. by rewrite Hext.
  - apply getCachedData_failure; [|done].
    apply valid_None. right. eauto.
Qed.

(** C1. Stale-fallback law: once a call for a key has returned an envelope
    (so that the envelope is stored under the key), a later call for the
    same key that finds the entry still stored, attempts a refresh and sees
    its producer fail, answers 200 with the stored envelope and the marker
    message "Serving cached data due to fetch error". The age of the entry
    is not bounded: any time may have passed. *)
Theorem stale_fallback_law (cacheKey : string) (first later : M value)
    (respond : ResponseData -> M response) (errorMessage error : string)
    (w w1 w2 w3 : world) (stored : ResponseData) :
  getCachedData cacheKey first w = (Ok stored, w1) ->
  cache w2 !! cacheKey = cache w1 !! cacheKey ->
  valid (clock w2) (cache w2 !! cacheKey) = None ->
  later w2 = (Throw error, w3) ->
  cache w3 = cache w2 ->
  route_of cacheKey later respond errorMessage w2 =
    (Ok {| code := 200;
           body := Obj [("status", Str (status stored));
                        ("timestamp", Str (timestamp stored));
                        ("data", data stored);
                        ("message", Str "Serving cached data due to fetch error")] |},
     logged error w3).
Proof.
  intros H1 Hkept Hv Hs Hext.
  apply getCachedData_returns in H1 as [t Ht].
  rewrite <- Hkept in Ht.
  rewrite (stale_fallback _ _ _ _ error w2 w3 _ Ht); [done| |done..].
  apply valid_None in Hv as [Hn | (c & Hc & Hage)]; [congruence|].
  rewrite Ht in Hc. by injection Hc as <-.
Qed.

(** The cold path of a route: no entry under the key and a producer that
    fails. *)
Lemma route_of_cold (cacheKey : string) (scraper : M value)
    (respond : ResponseData -> M response) (errorMessage error : string)
    (w w1 : world) :
  cache w !! cacheKey = None ->
  scraper w = (Throw error, w1) ->
  cache w1 = cache w ->
  route_of cacheKey scraper respond errorMessage w =
    (Ok {| code := 500;
           body := Obj [("status", Str "error");
                        ("message", Str errorMessage);
                        ("timestamp", Str (Date.toISOString (clock w1)));
                        ("error", Str error)] |},
     logged error w1).
Proof.
  intros Hc Hs Hext.
  rewrite (route_of_failure _ _ _ _ error w w1).
  - apply handleError_cold. by rewrite Hext.
  - apply getCachedData_failure; [|done]. by rewrite Hc.
Qed.

(** The first half of C4: a failing call of [getCachedData] leaves the
    cache as it found it. *)
Lemma getCachedData_atomic (cacheKey : string) (scraper : M value) (w w1 : world)
    (error : string) :
  external scraper ->
  getCachedData cacheKey scraper w = (Throw error, w1) ->
  cache w1 = cache w.
Proof.
  intros Hext H. apply getCachedData_throws in H as [_ Hs].
  specialize (Hext w). by rewrite Hs in Hext.
Qed.

End CacheLaws.

(** ** The sweeper *)

Module SweepLaws.

Import Num Json Server Scrapers Index Spec.

#[local] Set Warnings "-clear-no-such-hyp".

(** The loop, started on any part [l] of the entries of the running cache:
    the keys of the stale entries of [l] go, the others stay, and
    [cleanedCount] grows by the number of entries that went. *)
Lemma cleanup_fold (now : Z) (l : list (string * CacheEntry)) :
  forall (c0 : gmap string CacheEntry) (n0 : Z),
    NoDup l.*1 ->
    (forall k e, (k, e) ∈ l -> c0 !! k = Some e) ->
    let res := foldl (cleanup_turn now) (c0, n0) l in
    (forall k, res.1 !! k =
       match c0 !! k with
       | Some e => if decide (k ∈ l.*1 /\ doubly_stale now e = true)
                   then None else Some e
       | None => None
       end)
    /\ res.2 = n0 + Z.of_nat (size c0) - Z.of_nat (size res.1).
Proof.
  induction l as [|[k0 e0] l IH]; intros c0 n0 Hnd Hin; cbn [foldl].
  - split; [|simpl; lia]. intros k. simpl. by destruct (c0 !! k) as [e|].
  - rewrite fmap_cons in *. apply NoDup_cons in Hnd as [Hk0 Hnd].
    assert (Hc0 : c0 !! k0 = Some e0) by (apply Hin; left).
    assert (Hother : forall k e, (k, e) ∈ l -> k ≠ k0).
    { intros k e Hke ->. apply Hk0. apply list_elem_of_fmap. by exists (k0, e). }
    change (cleanup_turn now (c0, n0) (k0, e0))
      with (if doubly_stale now e0 then (delete k0 c0, n0 + 1) else (c0, n0)).
    destruct (doubly_stale now e0) eqn:Hst.
    + destruct (IH (delete k0 c0) (n0 + 1) Hnd) as [IH1 IH2].
      { intros k e Hke. rewrite lookup_delete_ne by (symmetry; eauto).
        apply Hin. by right. }
      split.
      * intros k. rewrite IH1. destruct (decide (k = k0)) as [->|Hne].
        -- rewrite lookup_delete_eq, Hc0. rewrite decide_True; [done|].
           split; [left | done].
        -- rewrite lookup_delete_ne by done.
           destruct (c0 !! k) as [e|]; [|done].
           apply decide_ext. rewrite elem_of_cons. naive_solver.
      * rewrite IH2. rewrite map_size_delete_Some by eauto.
        assert (size c0 ≠ 0%nat) by (apply map_size_ne_0_lookup_2 with k0; eauto).
        lia.
    + destruct (IH c0 n0 Hnd) as [IH1 IH2].
      { intros k e Hke. apply Hin. by right. }
      split; [|done].
      intros k. rewrite IH1. destruct (c0 !! k) as [e|] eqn:Hk; [|done].
      apply decide_ext. rewrite elem_of_cons.
      split; [naive_solver|]. intros [[Heq|?] Hs]; [|done].
      simpl in Heq. subst k. rewrite Hc0 in Hk. injection Hk as ->. congruence.
Qed.

(** The loop of [cleanupCache] is a filter, and [cleanedCount] is the
    number of entries it removed. *)
Lemma cleanup_loop_filter (now : Z) (c : gmap string CacheEntry) :
  cleanup_loop now c =
    (filter (kept now) c,
     Z.of_nat (size c) - Z.of_nat (size (filter (kept now) c))).
Proof.
  unfold cleanup_loop.
  destruct (cleanup_fold now (map_to_list c) c 0) as [H1 H2].
  { apply NoDup_fst_map_to_list. }
  { intros k e. apply elem_of_map_to_list. }
  destruct (foldl _ _ _) as [c' n]. simpl in *.
  assert (c' = filter (kept now) c) as ->; [|f_equal; lia].
  apply map_eq. intros k. rewrite H1, map_lookup_filter.
  destruct (c !! k) as [e|] eqn:Hk; [|done]. simpl.
  unfold kept. simpl.
  destruct (decide (doubly_stale now e = true)) as [Hst|Hst].
  - rewrite decide_True.
    + rewrite option_guard_False; [done|]. by rewrite Hst.
    + split; [|done]. apply list_elem_of_fmap. exists (k, e).
      split; [done|]. by apply elem_of_map_to_list.
  - rewrite decide_False by (by intros [_ ?]).
    rewrite option_guard_True; [done|]. by apply not_true_is_false.
Qed.

End SweepLaws.

(** ** What a route reads and what it writes *)

Module RouteLaws.

Import Num Json Server Scrapers Index Spec CacheLaws.

Create HintDb effects.

Section Combinators.
Context {A B : Type}.

Lemma external_ret (a : A) : external (mret a : M A).
Proof. by intros w. Qed.

Lemma external_bind (m : M A) (f : A -> M B) :
  external m -> (forall a, external (f a)) -> external (m ≫= f).
Proof.
  intros Hm Hf w. unfold mbind, M_bind, bind. specialize (Hm w).
  destruct (m w) as [[a|e] w1]; simpl in *; [|done].
  by rewrite Hf.
Qed.

Lemma external_try_catch (m : M A) (h : string -> M A) :
  external m -> (forall e, external (h e)) -> external (try_catch m h).
Proof.
  intros Hm Hh w. unfold try_catch. specialize (Hm w).
  destruct (m w) as [[a|e] w1]; simpl in *; [done|].
  by rewrite Hh.
Qed.

Lemma external_lift (o : outcome A) : external (lift o).
Proof. by intros w. Qed.

Lemma local_ret (k : string) (a : A) : local k (mret a : M A).
Proof. by intros w w' H. Qed.

Lemma local_bind (k : string) (m : M A) (f : A -> M B) :
  local k m -> (forall a, local k (f a)) -> local k (m ≫= f).
Proof.
  intros Hm Hf w w' H. unfold mbind, M_bind, bind.
  destruct (Hm w w' H) as [H1 H2].
  destruct (m w) as [[a|e] w1], (m w') as [[a'|e'] w1']; simpl in *;
    try discriminate.
  - injection H1 as <-. by apply Hf.
  - by injection H1 as ->.
Qed.

Lemma local_try_catch (k : string) (m : M A) (h : string -> M A) :
  local k m -> (forall e, local k (h e)) -> local k (try_catch m h).
Proof.
  intros Hm Hh w w' H. unfold try_catch.
  destruct (Hm w w' H) as [H1 H2].
  destruct (m w) as [[a|e] w1], (m w') as [[a'|e'] w1']; simpl in *;
    try discriminate.
  - by split.
  - injection H1 as <-. by apply Hh.
Qed.

Lemma local_lift (k : string) (o : outcome A) : local k (lift o).
Proof. by intros w w' H. Qed.
End Combinators.

Lemma external_Date_now : external Date_now.
Proof. by intros w. Qed.

Lemma external_emit (e : event) : external (emit e).
Proof. by intros w. Qed.

Lemma external_cache_get (k : string) : external (cache_get k).
Proof. by intros w. Qed.

Lemma local_Date_now (k : string) : local k Date_now.
Proof. intros w w' H. split; [|done]. simpl. f_equal. apply H. Qed.

Lemma local_emit (k : string) (e : event) : local k (emit e).
Proof. by intros w w' H. Qed.

Lemma local_cache_get (k : string) : local k (cache_get k).
Proof. intros w w' H. split; [|done]. simpl. f_equal. apply H. Qed.

Lemma local_cache_set (k : string) (e : CacheEntry) : local k (cache_set k e).
Proof.
  intros w w' [H1 H2]. split; [done|]. split; simpl; [|done].
  by rewrite !lookup_insert_eq.
Qed.

#[export] Hint Resolve external_ret external_bind external_try_catch
  external_lift external_Date_now external_emit external_cache_get
  local_ret local_bind local_try_catch local_lift local_Date_now local_emit
  local_cache_get local_cache_set : effects.

Lemma external_not_found (message : string) : external (not_found message).
Proof. unfold not_found. auto with effects. Qed.

Lemma local_not_found (k message : string) : local k (not_found message).
Proof. unfold not_found. auto with effects. Qed.

Lemma external_respond_list (notFound : string) (result : ResponseData) :
  external (respond_list notFound result).
Proof.
  unfold respond_list. apply external_bind; [auto with effects|].
  intros len. destruct (is_zero len); auto using external_not_found with effects.
Qed.

Lemma local_respond_list (k notFound : string) (result : ResponseData) :
  local k (respond_list notFound result).
Proof.
  unfold respond_list. apply local_bind; [auto with effects|].
  intros len. destruct (is_zero len); auto using local_not_found with effects.
Qed.

Lemma external_respond_btc (result : ResponseData) : external (respond_btc result).
Proof.
  unfold respond_btc. apply external_bind; [auto with effects|].
  intros d. destruct (negb (truthy d)); auto using external_not_found with effects.
Qed.

Lemma local_respond_btc (k : string) (result : ResponseData) :
  local k (respond_btc result).
Proof.
  unfold respond_btc. apply local_bind; [auto with effects|].
  intros d. destruct (negb (truthy d)); auto using local_not_found with effects.
Qed.

Lemma external_handleError (cacheKey error errorMessage : string) :
  external (handleErrorWithCacheFallback cacheKey error errorMessage).
Proof.
  unfold handleErrorWithCacheFallback.
  apply external_bind; [auto with effects|]. intros _.
  apply external_bind; [auto with effects|]. intros [c|]; auto with effects.
Qed.

Lemma local_handleError (cacheKey error errorMessage : string) :
  local cacheKey (handleErrorWithCacheFallback cacheKey error errorMessage).
Proof.
  unfold handleErrorWithCacheFallback.
  apply local_bind; [auto with effects|]. intros _.
  apply local_bind; [auto with effects|]. intros [c|]; auto with effects.
Qed.

Lemma local_scraper (rt : route) (k : string) (r : reply) :
  local k (scraper_of rt r).
Proof.
  intros w w' [H1 H2]. destruct (key_of rt) as [k'|] eqn:Hk.
  - rewrite !(scraper_run rt k' r) by done. split; [done|].
    split; simpl; [done | by rewrite H2].
  - by destruct rt.
Qed.

Lemma local_getCachedData (k : string) (scraper : M value) :
  local k scraper -> local k (getCachedData k scraper).
Proof.
  intros Hs. unfold getCachedData.
  apply local_bind; [auto with effects|]. intros cached.
  apply local_bind; [auto with effects|]. intros now.
  destruct (valid now cached); [auto with effects|].
  apply local_bind; [done|]. intros freshData.
  apply local_bind; [auto with effects|]. intros created.
  apply local_bind; [auto with effects|]. intros stored.
  apply local_bind; auto with effects.
Qed.

Lemma local_route_of (k : string) (scraper : M value)
    (respond : ResponseData -> M response) (errorMessage : string) :
  local k scraper -> (forall result, local k (respond result)) ->
  local k (route_of k scraper respond errorMessage).
Proof.
  intros Hs Hr. unfold route_of. apply local_try_catch.
  - apply local_bind; [by apply local_getCachedData | done].
  - intros e. apply local_handleError.
Qed.

(** The answer of a data route depends on the world through the entry
    under its key and the clock only. *)
Lemma handle_route_of (rt : route) (k : string) (r : reply) :
  key_of rt = Some k ->
  handle rt r =
    route_of k (scraper_of rt r) (respond_of rt) (messages_of rt).2.
Proof. destruct rt; try discriminate; by intros [= <-]. Qed.

Lemma handle_local (rt : route) (k : string) (r : reply) :
  key_of rt = Some k -> local k (handle rt r).
Proof.
  intros Hk. rewrite (handle_route_of rt k r Hk).
  apply local_route_of; [apply local_scraper|].
  intros result. destruct rt; try discriminate;
    first [apply local_respond_list | apply local_respond_btc].
Qed.

End RouteLaws.

(** ** The cache along the life of the process *)

Module Invariants.

Import Num Json Server Scrapers Index Spec CacheLaws RouteLaws SweepLaws.

#[local] Set Warnings "-clear-no-such-hyp".

Lemma getCachedData_cache (rt : route) (k : string) (r : reply) (w : world) :
  key_of rt = Some k ->
  cache (getCachedData k (scraper_of rt r) w).2 =
    match valid (clock w) (cache w !! k), produced rt r with
    | None, Ok d => refreshed k r d w
    | _, _ => cache w
    end.
Proof.
  intros Hk. unfold getCachedData. run_monad.
  destruct (valid (clock w) (cache w !! k)) as [c|]; [done|].
  rewrite (scraper_run rt k r w Hk).
  by destruct (produced rt r).
Qed.

Lemma route_of_cache (k : string) (scraper : M value)
    (respond : ResponseData -> M response) (errorMessage : string) (w : world) :
  (forall result, external (respond result)) ->
  cache (route_of k scraper respond errorMessage w).2 =
    cache (getCachedData k scraper w).2.
Proof.
  intros Hr. unfold route_of, try_catch, mbind, M_bind, bind.
  destruct (getCachedData k scraper w) as [[rd|e] w1]; simpl.
  - specialize (Hr rd w1). destruct (respond rd w1) as [[a|e] w2]; simpl in *.
    + done.
    + by rewrite external_handleError.
  - by rewrite external_handleError.
Qed.

(** What one request does to the cache. *)
Lemma handle_cache (rt : route) (r : reply) (w : world) :
  cache (handle rt r w).2 =
    match key_of rt with
    | Some k =>
        match valid (clock w) (cache w !! k), produced rt r with
        | None, Ok d => refreshed k r d w
        | _, _ => cache w
        end
    | None => match rt with DELETE_cache => ∅ | _ => cache w end
    end.
Proof.
  destruct rt; simpl; try done;
    unfold trending_coins, trending_categories, top_gainers, top_losers,
      all_time_highs, btc_dominance, list_route;
    (rewrite route_of_cache;
     [| intros; first [apply external_respond_list | apply external_respond_btc]]).
  - by apply (getCachedData_cache GET_trending_coins).
  - by apply (getCachedData_cache GET_trending_categories).
  - by apply (getCachedData_cache GET_top_gainers).
  - by apply (getCachedData_cache GET_top_losers).
  - by apply (getCachedData_cache GET_all_time_highs).
  - by apply (getCachedData_cache GET_btc_dominance).
Qed.

Lemma cleanupCache_cache (w : world) :
  cache (cleanupCache w).2 = filter (kept (clock w)) (cache w).
Proof.
  unfold cleanupCache. rewrite cleanup_loop_filter.
  by destruct (0 <? _).
Qed.

(** An entry that a step leaves under [k] was there before, or the step is
    a request that refreshed [k]. *)
Lemma step_entry (i : input) (w : world) (k : string) (e : CacheEntry) :
  cache (step i w).2 !! k = Some e ->
  cache w !! k = Some e
  \/ exists rt r, i = Request rt r /\ key_of rt = Some k
                  /\ refreshes rt r w (data (entry_data e)).
Proof.
  destruct i as [rt r| |d]; simpl.
  - assert (Hw : (let (o, w') := handle rt r w in
                  match o with Ok res => (Some res, w') | Throw _ => (None, w') end).2
                 = (handle rt r w).2)
      by (by destruct (handle rt r w) as [[?|?] ?]).
    rewrite Hw, handle_cache.
    destruct (key_of rt) as [k'|] eqn:Hk.
    + destruct (valid (clock w) (cache w !! k')) eqn:Hv; [by left|].
      destruct (produced rt r) as [d|err] eqn:Hp; [|by left].
      unfold refreshed. destruct (decide (k = k')) as [->|Hne].
      * rewrite lookup_insert_eq. intros [= <-]. right. exists rt, r.
        split; [done|]. split; [done|]. exists k'. simpl.
        split; [done|]. split; [done|].
        by rewrite (scraper_run rt k' r w Hk), Hp.
      * rewrite lookup_insert_ne by done. by left.
    + destruct rt; try discriminate; by left.
  - rewrite cleanupCache_cache. intros H%map_lookup_filter_Some. left. apply H.
  - by left.
Qed.

Lemma run_cons (i : input) (inputs : list input) (w : world) :
  (run (i :: inputs) w).2 = (run inputs (step i w).2).2.
Proof.
  simpl. destruct (step i w) as [res w']. simpl.
  by destruct (run inputs w').
Qed.

(** An entry found after a run was there at the start, or some request of
    the run refreshed its key. *)
Lemma run_entry (inputs : list input) :
  forall (w : world) (k : string),
    is_Some (cache (run inputs w).2 !! k) ->
    is_Some (cache w !! k)
    \/ exists before rt r after d,
         inputs = (before ++ Request rt r :: after)%list
         /\ key_of rt = Some k
         /\ refreshes rt r (run before w).2 d.
Proof.
  induction inputs as [|i inputs IH]; intros w k; [by left|].
  rewrite run_cons. intros H. destruct (IH _ _ H) as [[e He]|Hex].
  - apply step_entry in He as [He|(rt & r & -> & Hk & Hr)]; [left; eauto|].
    right. exists [], rt, r, inputs. eauto.
  - right. destruct Hex as (before & rt & r & after & d & -> & Hk & Hr).
    exists (i :: before), rt, r, after, d. split; [done|]. split; [done|].
    by rewrite run_cons.
Qed.

(** C4. A failing call of [getCachedData] leaves the cache map as it found
    it, whatever the key and whatever the producer (a producer has no access
    to the cache); and an entry found in the cache of the running process
    comes from a request for its key whose producer was invoked and
    returned. *)
Theorem failure_atomicity :
  (forall (cacheKey : string) (scraper : M value) (w w1 : world) (error : string),
      external scraper ->
      getCachedData cacheKey scraper w = (Throw error, w1) ->
      cache w1 = cache w)
  /\ (forall (inputs : list input) (t : Z) (k : string),
        is_Some (cache (run inputs (start t)).2 !! k) ->
        exists before rt r after d,
          inputs = (before ++ Request rt r :: after)%list
          /\ key_of rt = Some k
          /\ refreshes rt r (run before (start t)).2 d).
Proof.
  split.
  - apply getCachedData_atomic.
  - intros inputs t k H. apply run_entry in H as [[e He]|H]; [|done].
    simpl in He. by rewrite lookup_empty in He.
Qed.

(** *** Requests sent upstream *)

Lemma fetches_snoc (t : list event) (e : event) :
  fetches (t ++ [e]) =
    match e with Fetch _ => S (fetches t) | _ => fetches t end.
Proof.
  unfold fetches. rewrite List.filter_app, length_app.
  destruct e; simpl; lia.
Qed.

Section Quiet.
Context {A B : Type}.

Lemma quiet_ret (a : A) : quiet (mret a : M A).
Proof. by intros w. Qed.

Lemma quiet_bind (m : M A) (f : A -> M B) :
  quiet m -> (forall a, quiet (f a)) -> quiet (m ≫= f).
Proof.
  intros Hm Hf w. unfold mbind, M_bind, bind. specialize (Hm w).
  destruct (m w) as [[a|e] w1]; simpl in *; [|done].
  by rewrite Hf.
Qed.

Lemma quiet_lift (o : outcome A) : quiet (lift o).
Proof. by intros w. Qed.
End Quiet.

Lemma quiet_not_found (message : string) : quiet (not_found message).
Proof. by intros w. Qed.

Lemma quiet_respond_list (notFound : string) (result : ResponseData) :
  quiet (respond_list notFound result).
Proof.
  unfold respond_list. apply quiet_bind; [apply quiet_lift|].
  intros len. destruct (is_zero len); [apply quiet_not_found | apply quiet_ret].
Qed.

Lemma quiet_respond_btc (result : ResponseData) : quiet (respond_btc result).
Proof.
  unfold respond_btc. apply quiet_bind; [apply quiet_lift|].
  intros d. destruct (negb (truthy d)); [apply quiet_not_found | apply quiet_ret].
Qed.

Lemma quiet_handleError (cacheKey error errorMessage : string) :
  quiet (handleErrorWithCacheFallback cacheKey error errorMessage).
Proof.
  intros w. unfold handleErrorWithCacheFallback. run_monad.
  destruct (cache w !! cacheKey); simpl; by rewrite fetches_snoc.
Qed.

(** A call of [getCachedData] for a route sends one request upstream when
    it finds no valid entry, and none otherwise. *)
Lemma getCachedData_fetches (rt : route) (k : string) (r : reply) (w : world) :
  key_of rt = Some k ->
  fetches (trace (getCachedData k (scraper_of rt r) w).2) =
    match valid (clock w) (cache w !! k) with
    | Some _ => fetches (trace w)
    | None => S (fetches (trace w))
    end.
Proof.
  intros Hk. unfold getCachedData. run_monad.
  destruct (valid (clock w) (cache w !! k)) as [c|]; [done|].
  rewrite (scraper_run rt k r w Hk).
  destruct (produced rt r); simpl; by rewrite fetches_snoc.
Qed.

Lemma route_of_fetches (k : string) (scraper : M value)
    (respond : ResponseData -> M response) (errorMessage : string) (w : world) :
  (forall result, quiet (respond result)) ->
  fetches (trace (route_of k scraper respond errorMessage w).2) =
    fetches (trace (getCachedData k scraper w).2).
Proof.
  intros Hr. unfold route_of, try_catch, mbind, M_bind, bind.
  destruct (getCachedData k scraper w) as [[rd|e] w1]; simpl.
  - specialize (Hr rd w1). destruct (respond rd w1) as [[a|e] w2]; simpl in *.
    + done.
    + by rewrite quiet_handleError.
  - by rewrite quiet_handleError.
Qed.

Lemma handle_fetches (rt : route) (k : string) (r : reply) (w : world) :
  key_of rt = Some k ->
  fetches (trace (handle rt r w).2) =
    match valid (clock w) (cache w !! k) with
    | Some _ => fetches (trace w)
    | None => S (fetches (trace w))
    end.
Proof.
  intros Hk. destruct rt; try discriminate; injection Hk as <-; simpl;
    unfold trending_coins, trending_categories, top_gainers, top_losers,
      all_time_highs, btc_dominance, list_route;
    (rewrite route_of_fetches;
     [| intros; first [apply quiet_respond_list | apply quiet_respond_btc]]).
  - by apply (getCachedData_fetches GET_trending_coins).
  - by apply (getCachedData_fetches GET_trending_categories).
  - by apply (getCachedData_fetches GET_top_gainers).
  - by apply (getCachedData_fetches GET_top_losers).
  - by apply (getCachedData_fetches GET_all_time_highs).
  - by apply (getCachedData_fetches GET_btc_dominance).
Qed.

(** The clock after a request: the latency of the network has passed if
    the producer was invoked. *)
Lemma getCachedData_clock (rt : route) (k : string) (r : reply) (w : world) :
  key_of rt = Some k ->
  clock (getCachedData k (scraper_of rt r) w).2 =
    match valid (clock w) (cache w !! k) with
    | Some _ => clock w
    | None => clock w + latency r
    end.
Proof.
  intros Hk. unfold getCachedData. run_monad.
  destruct (valid (clock w) (cache w !! k)) as [c|]; [done|].
  rewrite (scraper_run rt k r w Hk).
  by destruct (produced rt r).
Qed.

Lemma timeless_respond_list (notFound : string) (result : ResponseData) :
  timeless (respond_list notFound result).
Proof.
  intros w. unfold respond_list, not_found. run_monad.
  destruct (length_of (data result)) as [len|]; [|done]. by destruct (is_zero len).
Qed.

Lemma timeless_respond_btc (result : ResponseData) :
  timeless (respond_btc result).
Proof.
  intros w. unfold respond_btc, not_found. run_monad.
  destruct (property _ _) as [d|]; [|done]. by destruct (negb (truthy d)).
Qed.

Lemma timeless_handleError (cacheKey error errorMessage : string) :
  timeless (handleErrorWithCacheFallback cacheKey error errorMessage).
Proof.
  intros w. unfold handleErrorWithCacheFallback. run_monad.
  by destruct (cache w !! cacheKey).
Qed.

Lemma route_of_clock (k : string) (scraper : M value)
    (respond : ResponseData -> M response) (errorMessage : string) (w : world) :
  (forall result, timeless (respond result)) ->
  clock (route_of k scraper respond errorMessage w).2 =
    clock (getCachedData k scraper w).2.
Proof.
  intros Hr. unfold route_of, try_catch, mbind, M_bind, bind.
  destruct (getCachedData k scraper w) as [[rd|e] w1]; simpl.
  - specialize (Hr rd w1). destruct (respond rd w1) as [[a|e] w2]; simpl in *.
    + done.
    + by rewrite timeless_handleError.
  - by rewrite timeless_handleError.
Qed.

Lemma handle_clock (rt : route) (k : string) (r : reply) (w : world) :
  key_of rt = Some k ->
  clock (handle rt r w).2 =
    match valid (clock w) (cache w !! k) with
    | Some _ => clock w
    | None => clock w + latency r
    end.
Proof.
  intros Hk. destruct rt; try discriminate; injection Hk as <-; simpl;
    unfold trending_coins, trending_categories, top_gainers, top_losers,
      all_time_highs, btc_dominance, list_route;
    (rewrite route_of_clock;
     [| intros; first [apply timeless_respond_list | apply timeless_respond_btc]]).
  - by apply (getCachedData_clock GET_trending_coins).
  - by apply (getCachedData_clock GET_trending_categories).
  - by apply (getCachedData_clock GET_top_gainers).
  - by apply (getCachedData_clock GET_top_losers).
  - by apply (getCachedData_clock GET_all_time_highs).
  - by apply (getCachedData_clock GET_btc_dominance).
Qed.

Lemma sleep_world (d : Z) (w : world) :
  (sleep d w).2 = {| cache := cache w; clock := clock w + d; trace := trace w |}.
Proof. done. Qed.

(** C5, as amended. Cache hit law. (1) A call that finds an entry younger
    than the freshness window returns the stored envelope and leaves the
    world as it is, whatever the producer: the producer is not run. (2) Two
    calls of a route in a row, the second finding a young entry: the second
    sends nothing upstream, so that both together send at most one request.
    (3) That is the case whenever the producer of the first call, if
    invoked, returned, and the second call starts less than the freshness
    window after the first. When the producer of the first call threw,
    nothing is stored and the second call invokes its producer again. *)
Theorem cache_hit_law :
  (forall (cacheKey : string) (scraper : M value) (w : world) (c : CacheEntry),
      cache w !! cacheKey = Some c ->
      age (clock w) c < CACHE_DURATION ->
      getCachedData cacheKey scraper w = (Ok (entry_data c), w))
  /\ (forall (rt : route) (k : string) (r1 r2 : reply) (w : world) (d : Z) (c : CacheEntry),
        key_of rt = Some k ->
        let w2 := (sleep d (handle rt r1 w).2).2 in
        cache w2 !! k = Some c ->
        age (clock w2) c < CACHE_DURATION ->
        fetches (trace (handle rt r2 w2).2) = fetches (trace w2)
        /\ (fetches (trace (handle rt r2 w2).2) <= S (fetches (trace w)))%nat)
  /\ (forall (rt : route) (k : string) (r1 r2 : reply) (w : world) (d : Z),
        key_of rt = Some k ->
        (valid (clock w) (cache w !! k) = None -> exists v, produced rt r1 = Ok v) ->
        0 <= latency r1 ->
        let w2 := (sleep d (handle rt r1 w).2).2 in
        clock w2 - clock w < CACHE_DURATION ->
        (fetches (trace (handle rt r2 w2).2) <= S (fetches (trace w)))%nat).
Proof.
  split; [apply getCachedData_hit|]. split.
  - intros rt k r1 r2 w d c Hk w2 Hc Hage.
    assert (Hv : valid (clock w2) (cache w2 !! k) = Some c) by by apply valid_Some.
    rewrite (handle_fetches rt k r2 w2 Hk), Hv. split; [done|].
    subst w2. rewrite sleep_world. simpl.
    rewrite (handle_fetches rt k r1 w Hk). case_match; lia.
  - intros rt k r1 r2 w d Hk Hret Hlat w2 Hwin.
    rewrite (handle_fetches rt k r2 w2 Hk).
    subst w2. rewrite sleep_world in *. simpl in *.
    rewrite (handle_fetches rt k r1 w Hk).
    rewrite (handle_clock rt k r1 w Hk) in *.
    rewrite handle_cache, Hk.
    destruct (valid (clock w) (cache w !! k)) as [c0|] eqn:Hv.
    + case_match; lia.
    + destruct Hret as [v Hv']; [done|]. rewrite Hv'.
      unfold refreshed. rewrite lookup_insert_eq. unfold valid. simpl.
      destruct (_ <? _) eqn:E; [lia|]. apply Z.ltb_ge in E. lia.
Qed.

(** *** The entries of the running process are well formed *)

Lemma key_of_inj (rt rt' : route) (k : string) :
  key_of rt = Some k -> key_of rt' = Some k -> rt = rt'.
Proof. destruct rt, rt'; simpl; congruence. Qed.

Lemma well_formed_start (t : Z) : well_formed (start t).
Proof. intros rt k e _ H. simpl in H. by rewrite lookup_empty in H. Qed.

Lemma step_cache (i : input) (w : world) :
  cache (step i w).2 =
    match i with
    | Request rt r => cache (handle rt r w).2
    | Timer => filter (kept (clock w)) (cache w)
    | Wait _ => cache w
    end.
Proof.
  destruct i as [rt r| |d]; simpl.
  - by destruct (handle rt r w) as [[?|?] ?].
  - apply cleanupCache_cache.
  - done.
Qed.

Lemma well_formed_step (i : input) (w : world) :
  well_formed w -> well_formed (step i w).2.
Proof.
  intros Hw rt k e Hk. rewrite step_cache. destruct i as [rt0 r| |d].
  - rewrite handle_cache. destruct (key_of rt0) as [k0|] eqn:Hk0.
    + destruct (valid _ _); [by apply Hw|].
      destruct (produced rt0 r) as [v|err] eqn:Hp; [|by apply Hw].
      unfold refreshed. destruct (decide (k = k0)) as [->|Hne].
      * rewrite lookup_insert_eq. intros [= <-]. simpl. split; [done|].
        exists r. by rewrite (key_of_inj rt rt0 k0).
      * rewrite lookup_insert_ne by done. by apply Hw.
    + destruct rt0; try discriminate; by apply Hw.
  - intros H%map_lookup_filter_Some. by apply (Hw rt k e Hk), H.
  - by apply Hw.
Qed.

Lemma well_formed_run (inputs : list input) :
  forall w, well_formed w -> well_formed (run inputs w).2.
Proof.
  induction inputs as [|i inputs IH]; intros w Hw; [done|].
  rewrite run_cons. by apply IH, well_formed_step.
Qed.

(** A list route stores and serves lists. *)
Lemma produced_list (rt : route) (r : reply) (d : value) :
  is_list_route rt = true -> produced rt r = Ok d -> exists l, d = Arr l.
Proof.
  unfold produced. destruct (answer r) as [p|]; [|discriminate].
  destruct rt; try discriminate; simpl; intros _.
  - intros [= <-]. eauto.
  - destruct (each_throwing _ _ _); [|discriminate]. intros [= <-]. eauto.
  - intros [= <-]. eauto.
  - intros [= <-]. eauto.
  - intros [= <-]. eauto.
Qed.

(** *** The bodies a list route sends *)

Lemma route_of_unfold (k : string) (scraper : M value)
    (respond : ResponseData -> M response) (errorMessage : string) (w : world) :
  route_of k scraper respond errorMessage w =
    match getCachedData k scraper w with
    | (Ok result, w1) =>
        match respond result w1 with
        | (Ok res, w2) => (Ok res, w2)
        | (Throw error, w2) =>
            handleErrorWithCacheFallback k error errorMessage w2
        end
    | (Throw error, w1) => handleErrorWithCacheFallback k error errorMessage w1
    end.
Proof.
  unfold route_of, try_catch, mbind, M_bind, bind.
  by destruct (getCachedData k scraper w) as [[rd|e] w1].
Qed.

Lemma handle_list_route (rt : route) (k : string) (r : reply) :
  is_list_route rt = true -> key_of rt = Some k ->
  handle rt r =
    list_route k (scraper_of rt r) (messages_of rt).1 (messages_of rt).2.
Proof. destruct rt; try discriminate; by intros _ [= <-]. Qed.

Lemma respond_list_Arr (notFound : string) (result : ResponseData)
    (l : list value) (w : world) :
  data result = Arr l ->
  respond_list notFound result w =
    (Ok (if is_zero (Some (Number (Num.of_Z (Z.of_nat (length l)))))
         then {| code := 404;
                 body := Obj [("status", Str "error");
                              ("message", Str notFound);
                              ("timestamp", Str (Date.toISOString (clock w)))] |}
         else {| code := 200;
                 body := Obj [("status", Str (status result));
                              ("timestamp", Str (timestamp result));
                              ("data", Arr l);
                              ("count", Number (Num.of_Z (Z.of_nat (length l))))] |}),
     w).
Proof.
  intros Hd. unfold respond_list, not_found, spread. run_monad. rewrite Hd. simpl.
  by destruct (SFeqb _ _).
Qed.

(** Every answer of a list route, in a world whose entries are well
    formed, is one of the four bodies. *)
Lemma list_route_shape (rt : route) (k : string) (r : reply) (w : world) :
  well_formed w -> is_list_route rt = true -> key_of rt = Some k ->
  exists res w', handle rt r w = (Ok res, w') /\ list_response rt res.
Proof.
  intros Hw Hl Hk. rewrite (handle_list_route rt k r Hl Hk).
  unfold list_route. rewrite route_of_unfold.
  destruct (valid (clock w) (cache w !! k)) as [c|] eqn:Hv.
  - apply valid_Some in Hv as [Hc Hage].
    rewrite (getCachedData_hit _ _ _ c Hc Hage).
    destruct (Hw rt k c Hk Hc) as (Hst & r' & Hp).
    destruct (produced_list rt r' _ Hl Hp) as [l Hd].
    rewrite (respond_list_Arr _ _ l) by done. rewrite Hd in Hp.
    eexists _, _. split; [done|]. destruct (is_zero _).
    + apply response_not_found.
    + rewrite Hst. by eapply response_success.
  - destruct (produced rt r) as [d|error] eqn:Hp.
    + erewrite getCachedData_refresh;
        [| done | by rewrite (scraper_run rt k r w Hk), Hp].
      destruct (produced_list rt r _ Hl Hp) as [l ->].
      rewrite (respond_list_Arr _ _ l) by done.
      eexists _, _. split; [done|]. destruct (is_zero _).
      * apply response_not_found.
      * by eapply response_success.
    + erewrite getCachedData_failure;
        [| done | by rewrite (scraper_run rt k r w Hk), Hp].
      destruct (cache w !! k) as [c|] eqn:Hc.
      * rewrite (handleError_stored _ _ _ _ c) by done.
        clear Hv.
        destruct (Hw rt k c Hk Hc) as (Hst & r' & Hp').
        destruct (produced_list rt r' _ Hl Hp') as [l Hd].
        eexists _, _. split; [done|]. unfold stale_body.
        rewrite Hst, Hd. rewrite Hd in Hp'. by eapply response_stale.
      * rewrite handleError_cold by done.
        eexists _, _. split; [done|]. apply response_error.
Qed.

(** *** The ranking scrapers *)

Lemma ranking_callback_eq (record : coin_row -> value) (acc : list value)
    (n : Z) (element : coin_row) :
  ranking_callback record (acc, n) element =
    if sponsored element then ((acc, n), true)
    else if 10 <=? n + 1
         then (((acc ++ [record element])%list, n + 1), false)
         else (((acc ++ [record element])%list, n + 1), true).
Proof. reflexivity. Qed.

(** The loop of a ranking scraper collects the records of the first rows
    that are not sponsored, up to ten of them together with what it
    already has. *)
Lemma ranking_each (record : coin_row -> value) (rows : list coin_row) :
  forall (acc : list value) (n : Z),
    n = Z.of_nat (length acc) -> n < 10 ->
    (each (ranking_callback record) (acc, n) rows).1 =
      (acc ++ (record <$> take (Z.to_nat (10 - n))
                            (filter (fun e => sponsored e = false) rows)))%list.
Proof.
  induction rows as [|element rows IH]; intros acc n Hn Hlt.
  - cbn [each fst]. rewrite filter_nil, take_nil. by rewrite app_nil_r.
  - cbn [each]. rewrite ranking_callback_eq.
    destruct (sponsored element) eqn:Hs.
    + rewrite IH by done. by rewrite filter_cons_False by congruence.
    + rewrite filter_cons_True by done.
      replace (Z.to_nat (10 - n)) with (S (Z.to_nat (10 - (n + 1)))) by lia.
      cbn [take]. rewrite fmap_cons.
      destruct (10 <=? n + 1) eqn:E.
      * apply Z.leb_le in E. replace (Z.to_nat (10 - (n + 1))) with 0%nat by lia.
        by rewrite take_0.
      * apply Z.leb_gt in E. rewrite IH.
        -- by rewrite <- app_assoc.
        -- rewrite length_app. simpl. lia.
        -- lia.
Qed.

Lemma ranking_length (record : coin_row -> value) (rows : list coin_row) :
  (length (each (ranking_callback record) ([], 0%Z) rows).1 <= 10)%nat.
Proof.
  rewrite ranking_each by (simpl; lia). simpl.
  rewrite length_fmap, length_take. lia.
Qed.

Lemma produced_ranking (rt : route) (r : reply) (l : list value) :
  is_ranking_route rt = true -> produced rt r = Ok (Arr l) ->
  (length l <= 10)%nat.
Proof.
  unfold produced. destruct (answer r) as [p|]; [|discriminate].
  destruct rt; try discriminate; simpl; intros _ [= <-]; apply ranking_length.
Qed.

(** *** The laws of the sweeper, of the count field and of the rankings *)

Lemma doubly_stale_age (now : Z) (e : CacheEntry) :
  doubly_stale now e = true <-> CACHE_DURATION * 2 < age now e.
Proof. unfold doubly_stale, age. apply Z.ltb_lt. Qed.

Lemma kept_age (now : Z) (k : string) (e : CacheEntry) :
  kept now (k, e) <-> age now e <= CACHE_DURATION * 2.
Proof. unfold kept, doubly_stale, age. simpl. rewrite Z.ltb_ge. lia. Qed.

(** C9. Sweep law. One pass of [cleanupCache] at time [clock w]:
    every entry older than twice the freshness window is gone; every other
    entry is as it was; no entry appears; [cleanedCount] is the number of
    entries removed; a request for a removed key is answered as by a process
    that has just started; when no entry is older than twice the window the
    pass changes nothing, counts zero and logs nothing; and a second pass
    removes nothing and counts zero. *)
Theorem sweep_law (w : world) :
  let w' := (cleanupCache w).2 in
  let cleanedCount := (cleanup_loop (clock w) (cache w)).2 in
  (forall k e, cache w !! k = Some e ->
               CACHE_DURATION * 2 < age (clock w) e -> cache w' !! k = None)
  /\ (forall k e, cache w !! k = Some e ->
                  age (clock w) e <= CACHE_DURATION * 2 -> cache w' !! k = Some e)
  /\ (forall k, cache w !! k = None -> cache w' !! k = None)
  /\ cleanedCount = Z.of_nat (size (cache w)) - Z.of_nat (size (cache w'))
  /\ (forall rt r k e,
         key_of rt = Some k -> cache w !! k = Some e ->
         CACHE_DURATION * 2 < age (clock w) e ->
         (handle rt r w').1 = (handle rt r (start (clock w'))).1)
  /\ ((forall k e, cache w !! k = Some e -> age (clock w) e <= CACHE_DURATION * 2) ->
      w' = w /\ cleanedCount = 0)
  /\ cleanup_loop (clock w') (cache w') = (cache w', 0).
Proof.
  intros w' cleanedCount.
  assert (Hc : cache w' = filter (kept (clock w)) (cache w))
    by apply cleanupCache_cache.
  assert (Hn : cleanedCount =
               Z.of_nat (size (cache w)) - Z.of_nat (size (cache w'))).
  { subst cleanedCount. rewrite cleanup_loop_filter. simpl. by rewrite Hc. }
  assert (Ht : clock w' = clock w).
  { subst w'. unfold cleanupCache. destruct (cleanup_loop _ _) as [c n].
    by destruct (0 <? n). }
  assert (Hgone : forall k e, cache w !! k = Some e ->
            CACHE_DURATION * 2 < age (clock w) e -> cache w' !! k = None).
  { intros k e Hk Hage. rewrite Hc. apply map_lookup_filter_None. right.
    intros e' He'. rewrite Hk in He'. injection He' as <-.
    rewrite kept_age. lia. }
  split; [done|]. split; [|split; [|split; [done|split; [|split]]]].
  - intros k e Hk Hage. rewrite Hc. apply map_lookup_filter_Some.
    split; [done|]. by apply kept_age.
  - intros k Hk. rewrite Hc. apply map_lookup_filter_None. by left.
  - intros rt r k e Hrt Hk Hage.
    apply (handle_local rt k r Hrt). split; [|done].
    simpl. rewrite lookup_empty. by eapply Hgone.
  - intros Hyoung.
    assert (Hsame : cache w' = cache w).
    { rewrite Hc. apply map_filter_id. intros k e Hk. apply kept_age. eauto. }
    assert (H0 : cleanedCount = 0) by (rewrite Hn, Hsame; lia).
    split; [|done].
    subst w' cleanedCount. unfold cleanupCache in *.
    destruct (cleanup_loop _ _) as [c n]. simpl in *. subst n. simpl in *.
    rewrite Hsame. by destruct w.
  - rewrite cleanup_loop_filter, Ht, Hc.
    rewrite map_filter_filter_l by done. f_equal. lia.
Qed.

Lemma reachable_well_formed (inputs : list input) (t : Z) :
  well_formed (run inputs (start t)).2.
Proof. apply well_formed_run, well_formed_start. Qed.

(** /btc-dominance never sends a count. *)
Lemma btc_no_count (r : reply) (w w' : world) (res : response) :
  handle GET_btc_dominance r w = (Ok res, w') ->
  Json.get "count" (fields_of (body res)) = None.
Proof.
  simpl. unfold btc_dominance. rewrite route_of_unfold.
  assert (Hh : forall e w1, handleErrorWithCacheFallback "btc-dominance" e
                 "Error fetching BTC dominance data" w1 = (Ok res, w') ->
               Json.get "count" (fields_of (body res)) = None).
  { intros e w1. unfold handleErrorWithCacheFallback. run_monad.
    destruct (cache w1 !! "btc-dominance"); by intros [= <- <-]. }
  destruct (getCachedData _ _ w) as [[rd|e] w1]; [|apply Hh].
  unfold respond_btc, not_found. run_monad.
  destruct (property _ _) as [d|e]; [|apply Hh].
  destruct (negb (truthy d)); by intros [= <- <-].
Qed.

(** C8, as amended. In every answer of a list route of the running
    process: [count] is present only with a list as [data], and is then the
    length of the list; a list served without the fallback marker always
    comes with its [count]; the stale fallback, which carries the marker,
    carries no [count]. The answers of /btc-dominance carry none. *)
Theorem count_field_law (inputs : list input) (t : Z) (rt : route) (r : reply) :
  is_list_route rt = true ->
  exists res w',
    handle rt r (run inputs (start t)).2 = (Ok res, w')
    /\ (forall n, Json.get "count" (fields_of (body res)) = Some n ->
          exists l, Json.get "data" (fields_of (body res)) = Some (Arr l)
                    /\ n = Number (Num.of_Z (Z.of_nat (length l))))
    /\ (forall l, Json.get "data" (fields_of (body res)) = Some (Arr l) ->
          Json.get "message" (fields_of (body res)) = None ->
          Json.get "count" (fields_of (body res))
          = Some (Number (Num.of_Z (Z.of_nat (length l)))))
    /\ (Json.get "message" (fields_of (body res))
        = Some (Str "Serving cached data due to fetch error") ->
        Json.get "count" (fields_of (body res)) = None)
    /\ (forall r' res' w'',
          handle GET_btc_dominance r' (run inputs (start t)).2 = (Ok res', w'') ->
          Json.get "count" (fields_of (body res')) = None).
Proof.
  intros Hl.
  assert (exists k, key_of rt = Some k) as [k Hk] by (destruct rt; eauto; discriminate).
  destruct (list_route_shape rt k r _ (reachable_well_formed inputs t) Hl Hk)
    as (res & w' & Hh & Hshape).
  exists res, w'. split; [done|].
  split; [|split; [|split]].
  - destruct Hshape; simpl; try discriminate. intros n [= <-]. eauto.
  - destruct Hshape; simpl; try discriminate. by intros l' [= <-] _.
  - by destruct Hshape.
  - intros r' res' w''. apply btc_no_count.
Qed.

(** C10. The three ranking scrapers return at most ten records, those of
    the first ten rows that are not sponsored; and the lists that the
    three routes of the running process serve have at most ten records. *)
Theorem ranking_cap :
  (forall r w d w1,
      scrapeTopGainers r w = (Ok d, w1) \/ scrapeTopLosers r w = (Ok d, w1) ->
      exists p, answer r = inl p
        /\ d = Arr (rankedCoin <$>
                    take 10 (filter (fun e => sponsored e = false) (coins_table p))))
  /\ (forall r w d w1,
        allTimeHighs r w = (Ok d, w1) ->
        exists p, answer r = inl p
          /\ d = Arr (allTimeHigh <$>
                      take 10 (filter (fun e => sponsored e = false)
                                 (all_time_highs_table p))))
  /\ (forall rt r w d w1,
        is_ranking_route rt = true -> scraper_of rt r w = (Ok d, w1) ->
        exists l, d = Arr l /\ (length l <= 10)%nat)
  /\ (forall inputs t rt r res w' l,
        is_ranking_route rt = true ->
        handle rt r (run inputs (start t)).2 = (Ok res, w') ->
        Json.get "data" (fields_of (body res)) = Some (Arr l) ->
        (length l <= 10)%nat).
Proof.
  split; [|split; [|split]].
  - intros r w d w1 H.
    assert (Hp : produced GET_top_gainers r = Ok d).
    { destruct H as [H|H].
      - change (scrapeTopGainers r w) with (scraper_of GET_top_gainers r w) in H.
        rewrite (scraper_run GET_top_gainers _ r w eq_refl) in H. congruence.
      - change (scrapeTopLosers r w) with (scraper_of GET_top_losers r w) in H.
        rewrite (scraper_run GET_top_losers _ r w eq_refl) in H.
        by injection H as H _. }
    unfold produced in Hp. destruct (answer r) as [p|]; [|discriminate].
    exists p. split; [done|]. simpl in Hp. injection Hp as <-.
    by rewrite ranking_each by (simpl; lia).
  - intros r w d w1 H.
    change (allTimeHighs r w) with (scraper_of GET_all_time_highs r w) in H.
    rewrite (scraper_run GET_all_time_highs _ r w eq_refl) in H.
    injection H as Hp _.
    unfold produced in Hp. destruct (answer r) as [p|]; [|discriminate].
    exists p. split; [done|]. simpl in Hp. injection Hp as <-.
    by rewrite ranking_each by (simpl; lia).
  - intros rt r w d w1 Hr H.
    assert (exists k, key_of rt = Some k) as [k Hk] by (destruct rt; eauto; discriminate).
    rewrite (scraper_run rt k r w Hk) in H. injection H as Hp _.
    assert (Hl : is_list_route rt = true) by (by destruct rt).
    destruct (produced_list rt r d Hl Hp) as [l ->].
    exists l. split; [done|]. by eapply produced_ranking.
  - intros inputs t rt r res w' l Hr Hh Hd.
    assert (exists k, key_of rt = Some k) as [k Hk] by (destruct rt; eauto; discriminate).
    assert (Hl : is_list_route rt = true) by (by destruct rt).
    destruct (list_route_shape rt k r _ (reachable_well_formed inputs t) Hl Hk)
      as (res0 & w0 & Hh0 & Hshape).
    rewrite Hh in Hh0. injection Hh0 as <- <-.
    destruct Hshape as [? | r0 ts l0 Hp | r0 ts l0 Hp | ? ?]; simpl in Hd;
      try discriminate; injection Hd as <-; by eapply produced_ranking.
Qed.

End Invariants.

(** ** The laws at work on concrete runs *)

Module Witnesses.

Import Num Json Server Scrapers Index Spec Examples CacheLaws Invariants.

Lemma stale_fallback_law_witness :
  first_call = (Ok first_envelope, w_first)
  /\ cache w_later !! "trending-coins" = cache w_first !! "trending-coins"
  /\ valid (clock w_later) (cache w_later !! "trending-coins") = None
  /\ scrapeTrendingCoins down w_later
     = (Throw "Request failed with status code 503", w_failed)
  /\ cache w_failed = cache w_later
  /\ route_of "trending-coins" (scrapeTrendingCoins down)
       (respond_list "No trending coins found")
       "Error fetching trending cryptocurrency data" w_later
     = (Ok {| code := 200;
              body := Obj [("status", Str (status first_envelope));
                           ("timestamp", Str (timestamp first_envelope));
                           ("data", data first_envelope);
                           ("message", Str "Serving cached data due to fetch error")] |},
        logged "Request failed with status code 503" w_failed).
Proof.
  assert (H1 : first_call = (Ok first_envelope, w_first))
    by (vm_compute; reflexivity).
  assert (H2 : cache w_later !! "trending-coins" = cache w_first !! "trending-coins")
    by reflexivity.
  assert (H3 : valid (clock w_later) (cache w_later !! "trending-coins") = None)
    by (vm_compute; reflexivity).
  assert (H4 : scrapeTrendingCoins down w_later
               = (Throw "Request failed with status code 503", w_failed))
    by (vm_compute; reflexivity).
  assert (H5 : cache w_failed = cache w_later) by reflexivity.
  do 5 (split; [assumption|]).
  exact (stale_fallback_law "trending-coins" (scrapeTrendingCoins up)
           (scrapeTrendingCoins down) (respond_list "No trending coins found")
           "Error fetching trending cryptocurrency data"
           "Request failed with status code 503"
           (start t0) w_first w_later w_failed first_envelope H1 H2 H3 H4 H5).
Defined.

Lemma failure_atomicity_witness :
  external (scrapeTrendingCoins down)
  /\ getCachedData "trending-coins" (scrapeTrendingCoins down) w_later
     = (Throw "Request failed with status code 503", w_failed)
  /\ cache w_failed = cache w_later
  /\ is_Some (cache (run outage (start t0)).2 !! "trending-coins")
  /\ exists before rt r after d,
       outage = (before ++ Request rt r :: after)%list
       /\ key_of rt = Some "trending-coins"
       /\ refreshes rt r (run before (start t0)).2 d.
Proof.
  assert (H1 : external (scrapeTrendingCoins down)) by (intros w; reflexivity).
  assert (H2 : getCachedData "trending-coins" (scrapeTrendingCoins down) w_later
               = (Throw "Request failed with status code 503", w_failed))
    by (vm_compute; reflexivity).
  assert (H3 : is_Some (cache (run outage (start t0)).2 !! "trending-coins"))
    by (vm_compute; eauto).
  split; [assumption|]. split; [assumption|].
  split; [exact (proj1 failure_atomicity _ _ _ _ _ H1 H2)|].
  split; [assumption|].
  exact (proj2 failure_atomicity outage t0 "trending-coins" H3).
Defined.

Lemma cache_hit_law_witness :
  cache w_first !! "trending-coins" = Some first_entry
  /\ age (clock w_first) first_entry < CACHE_DURATION
  /\ getCachedData "trending-coins" (scrapeTrendingCoins down) w_first
     = (Ok (entry_data first_entry), w_first)
  /\ key_of GET_trending_coins = Some "trending-coins"
  /\ (valid (clock (start t0)) (cache (start t0) !! "trending-coins") = None ->
      exists v, produced GET_trending_coins up = Ok v)
  /\ 0 <= latency up
  /\ clock (sleep 1000 (handle GET_trending_coins up (start t0)).2).2
     - clock (start t0) < CACHE_DURATION
  /\ (fetches (trace (handle GET_trending_coins down
                        (sleep 1000 (handle GET_trending_coins up (start t0)).2).2).2)
      <= S (fetches (trace (start t0))))%nat.
Proof.
  assert (H1 : cache w_first !! "trending-coins" = Some first_entry)
    by (vm_compute; reflexivity).
  assert (H2 : age (clock w_first) first_entry < CACHE_DURATION)
    by (vm_compute; reflexivity).
  assert (H3 : key_of GET_trending_coins = Some "trending-coins") by reflexivity.
  assert (H4 : valid (clock (start t0)) (cache (start t0) !! "trending-coins") = None ->
               exists v, produced GET_trending_coins up = Ok v)
    by (intros _; eexists; reflexivity).
  assert (H5 : 0 <= latency up) by (simpl; lia).
  assert (H6 : clock (sleep 1000 (handle GET_trending_coins up (start t0)).2).2
               - clock (start t0) < CACHE_DURATION)
    by (vm_compute; reflexivity).
  do 2 (split; [assumption|]).
  split; [exact (proj1 cache_hit_law _ (scrapeTrendingCoins down) _ _ H1 H2)|].
  do 4 (split; [assumption|]).
  exact (proj2 (proj2 cache_hit_law) GET_trending_coins _ up down (start t0) 1000
           H3 H4 H5 H6).
Defined.

(** C5, the claim as the specification words it fails when the producer
    of the first call throws: nothing is stored, and a second call for the
    same key one second later invokes its producer again, so that two
    requests go upstream within the freshness window. *)
Lemma cache_hit_law_counterexample :
  let first := getCachedData "top-gainers" (scrapeTopGainers down) (start t0) in
  let w2 := (sleep 1000 first.2).2 in
  let second := getCachedData "top-gainers" (scrapeTopGainers down) w2 in
  first.1 = Throw "Request failed with status code 503"
  /\ cache first.2 = cache (start t0)
  /\ 0 <= clock w2 - clock (start t0) < CACHE_DURATION
  /\ second.1 = Throw "Request failed with status code 503"
  /\ fetches (trace (start t0)) = 0%nat
  /\ fetches (trace first.2) = 1%nat
  /\ fetches (trace second.2) = 2%nat
  /\ ~ at_most_once "top-gainers" (scrapeTopGainers down) (scrapeTopGainers down)
        (start t0) 1000.
Proof.
  cbv zeta. do 2 (split; [vm_compute; reflexivity|]).
  split; [vm_compute; split; [discriminate | reflexivity]|].
  do 4 (split; [vm_compute; reflexivity|]).
  unfold at_most_once. intros H. vm_compute in H. lia.
Qed.

(** C8, the claim as the specification words it fails on the stale
    fallback: the last answer of [outage] carries a list as [data] and no
    [count]. *)
Lemma count_law_counterexample :
  exists res, stale_answer = Some res /\ ~ count_law res.
Proof.
  eexists. split; [vm_compute; reflexivity|].
  intros [[_ H] _]. destruct H as [n Hn]; [eexists; reflexivity|].
  discriminate Hn.
Qed.

Lemma count_field_law_witness :
  is_list_route GET_trending_coins = true
  /\ exists res w',
       handle GET_trending_coins down
         (run [Request GET_trending_coins up; Wait 400000] (start t0)).2
       = (Ok res, w')
       /\ (forall n, Json.get "count" (fields_of (body res)) = Some n ->
             exists l, Json.get "data" (fields_of (body res)) = Some (Arr l)
                       /\ n = Number (Num.of_Z (Z.of_nat (length l))))
       /\ (forall l, Json.get "data" (fields_of (body res)) = Some (Arr l) ->
             Json.get "message" (fields_of (body res)) = None ->
             Json.get "count" (fields_of (body res))
             = Some (Number (Num.of_Z (Z.of_nat (length l)))))
       /\ (Json.get "message" (fields_of (body res))
           = Some (Str "Serving cached data due to fetch error") ->
           Json.get "count" (fields_of (body res)) = None)
       /\ (forall r' res' w'',
             handle GET_btc_dominance r'
               (run [Request GET_trending_coins up; Wait 400000] (start t0)).2
             = (Ok res', w'') ->
             Json.get "count" (fields_of (body res')) = None).
Proof.
  split; [reflexivity|].
  exact (count_field_law [Request GET_trending_coins up; Wait 400000] t0
           GET_trending_coins down eq_refl).
Defined.

Lemma sweep_law_witness :
  exists e,
    cache two_entries !! "trending-coins" = Some e
    /\ CACHE_DURATION * 2 < age (clock two_entries) e
    /\ cache (cleanupCache two_entries).2 !! "trending-coins" = None.
Proof.
  exists first_entry.
  assert (H1 : cache two_entries !! "trending-coins" = Some first_entry)
    by (vm_compute; reflexivity).
  assert (H2 : CACHE_DURATION * 2 < age (clock two_entries) first_entry)
    by (vm_compute; reflexivity).
  do 2 (split; [assumption|]).
  exact (proj1 (sweep_law two_entries) "trending-coins" first_entry H1 H2).
Defined.

Lemma ranking_cap_witness :
  is_ranking_route GET_top_gainers = true
  /\ scraper_of GET_top_gainers up (start t0)
     = (Ok (Arr (rankedCoin <$> [coin false "Bitcoin" "$ 2.3 billion";
                                 coin false "Ether" "$ 412.5 billion"])),
        fetched "https://coinranking.com/coins/gainers" up (start t0))
  /\ exists l,
       Arr (rankedCoin <$> [coin false "Bitcoin" "$ 2.3 billion";
                            coin false "Ether" "$ 412.5 billion"]) = Arr l
       /\ (length l <= 10)%nat.
Proof.
  assert (H1 : is_ranking_route GET_top_gainers = true) by reflexivity.
  assert (H2 : scraper_of GET_top_gainers up (start t0)
     = (Ok (Arr (rankedCoin <$> [coin false "Bitcoin" "$ 2.3 billion";
                                 coin false "Ether" "$ 412.5 billion"])),
        fetched "https://coinranking.com/coins/gainers" up (start t0)))
    by (vm_compute; reflexivity).
  do 2 (split; [assumption|]).
  exact (proj1 (proj2 (proj2 ranking_cap)) GET_top_gainers up (start t0) _ _ H1 H2).
Defined.

End Witnesses.

(** ** The canonicalisation engine *)

Module EngineLaws.

Import Num Str JS Utils Claimed.

(** String concatenation does not unfold under [simpl]. *)
Ltac app_cons :=
  repeat match goal with
    | |- context [String.append (String ?a ?s) ?t] =>
        change (String.append (String a s) t) with (String a (String.append s t))
    | |- context [String.append EmptyString ?t] =>
        change (String.append EmptyString t) with t
    | H : context [String.append (String ?a ?s) ?t] |- _ =>
        change (String.append (String a s) t)
          with (String a (String.append s t)) in H
    | H : context [String.append EmptyString ?t] |- _ =>
        change (String.append EmptyString t) with t in H
    end.

Lemma prefix_occurs (sub s : string) :
  String.prefix sub s = true <-> exists post, s = (sub ++ post)%string.
Proof.
  revert s. induction sub as [|c sub IH]; intros [|c' s]; simpl.
  - split; [by exists EmptyString | done].
  - split; [eauto | done].
  - split; [done | intros [post H]; app_cons; discriminate].
  - destruct (Ascii.ascii_dec c c') as [<-|Hne].
    + rewrite IH. split; intros [post H]; exists post; app_cons; congruence.
    + split; [done|]. intros [post H]. app_cons. congruence.
Qed.

(** [includes] decides whether the text occurs. *)
Lemma includes_occurs (s sub : string) :
  includes s sub = true <-> occurs sub s.
Proof.
  unfold occurs. induction s as [|c s IH]; cbn [includes].
  - rewrite orb_false_r, prefix_occurs. split.
    + intros [post H]. by exists EmptyString, post.
    + intros (pre & post & H). destruct pre; app_cons; [eauto | discriminate].
  - rewrite orb_true_iff, IH, prefix_occurs. split.
    + intros [[post H] | (pre & post & H)].
      * by exists EmptyString, post.
      * exists (String c pre), post. app_cons. by rewrite H.
    + intros (pre & post & H). destruct pre as [|c' pre]; app_cons.
      * left. eauto.
      * right. injection H as -> H. eauto.
Qed.

Lemma includes_either (s a b : string) :
  includes s a || includes s b = true <-> occurs a s \/ occurs b s.
Proof. by rewrite orb_true_iff, !includes_occurs. Qed.

Lemma includes_neither (s a b : string) :
  includes s a || includes s b = false <-> ~ (occurs a s \/ occurs b s).
Proof. rewrite <- includes_either. by destruct (_ || _). Qed.

(** What [strip] keeps. *)
Lemma strip_keeps (s : string) (c : ascii) :
  In c (list_ascii_of_string (strip s)) <->
  In c (list_ascii_of_string s) /\ numeric_char c = true.
Proof.
  unfold strip. induction s as [|c' s IH]; simpl; [tauto|].
  destruct (numeric_char c') eqn:Hc; simpl; rewrite IH.
  - split; [intros [<-|[? ?]]; auto | tauto].
  - split; [tauto | intros [[<-|?] ?]; [congruence | auto]].
Qed.

Lemma numeric_char_spec (c : ascii) :
  numeric_char c = true <->
  (48 <= Z.of_nat (nat_of_ascii c) <= 57) \/ c = "."%char \/ c = "-"%char.
Proof.
  unfold numeric_char, is_digit. rewrite !orb_true_iff, andb_true_iff.
  rewrite !Z.leb_le, !Ascii.eqb_eq. tauto.
Qed.

(** C2, as amended. The scale indicator of [marketCapTextToNum] is looked
    for by containment, with regard to case, in the order "trillion" or
    "T", then "million" or "M", then "billion" or "B"; the result is the
    number parsed from the text stripped of every character that is not a
    digit, a point or a minus sign, times 10^12, 10^6 or 10^9 accordingly,
    and that number itself when no indicator occurs. *)
Theorem scale_detection (text : string) :
  let parsed := parseFloat (strip text) in
  (occurs "trillion" text \/ occurs "T" text ->
   marketCapTextToNum text = mul parsed (Num.of_Z (10 ^ 12)))
  /\ (~ (occurs "trillion" text \/ occurs "T" text) ->
      occurs "million" text \/ occurs "M" text ->
      marketCapTextToNum text = mul parsed (Num.of_Z (10 ^ 6)))
  /\ (~ (occurs "trillion" text \/ occurs "T" text) ->
      ~ (occurs "million" text \/ occurs "M" text) ->
      occurs "billion" text \/ occurs "B" text ->
      marketCapTextToNum text = mul parsed (Num.of_Z (10 ^ 9)))
  /\ (~ (occurs "trillion" text \/ occurs "T" text) ->
      ~ (occurs "million" text \/ occurs "M" text) ->
      ~ (occurs "billion" text \/ occurs "B" text) ->
      marketCapTextToNum text = parsed)
  /\ (forall c, In c (list_ascii_of_string (strip text)) <->
        In c (list_ascii_of_string text)
        /\ ((48 <= Z.of_nat (nat_of_ascii c) <= 57) \/ c = "."%char \/ c = "-"%char)).
Proof.
  intros parsed. unfold marketCapTextToNum.
  split; [|split; [|split; [|split]]].
  - intros H%includes_either. by rewrite H.
  - intros HT%includes_neither HM%includes_either. by rewrite HT, HM.
  - intros HT%includes_neither HM%includes_neither HB%includes_either.
    by rewrite HT, HM, HB.
  - intros HT%includes_neither HM%includes_neither HB%includes_neither.
    by rewrite HT, HM, HB.
  - intros c. by rewrite strip_keeps, numeric_char_spec.
Qed.

(** C2, the claim as the specification words it fails: with "B" and "M"
    both in the text the code takes the million, and a lower-case "m" is
    no indicator for the code. *)
Lemma scale_detection_counterexample :
  marketCapTextToNum "2 BM" = Num.of_Z 2000000
  /\ textToNumber "2 BM" = Num.of_Z 2000000000
  /\ marketCapTextToNum "2 BM" <> textToNumber "2 BM"
  /\ marketCapTextToNum "2 m" = Num.of_Z 2
  /\ textToNumber "2 m" = Num.of_Z 2000000
  /\ marketCapTextToNum "2 m" <> textToNumber "2 m".
Proof. vm_compute. repeat split; discriminate. Qed.

Lemma scale_detection_witness :
  occurs "T" "$1.5T"
  /\ marketCapTextToNum "$1.5T"
     = mul (parseFloat (strip "$1.5T")) (Num.of_Z (10 ^ 12)).
Proof.
  assert (H : occurs "T" "$1.5T") by (by exists "$1.5", EmptyString).
  split; [exact H|].
  destruct (scale_detection "$1.5T") as [Hfirst _].
  apply Hfirst. right. exact H.
Defined.

(** *** The tiers of [marketCapNumToText] *)

Lemma trillion_eq : trillion = S754_finite false 8192000000000000 (-13).
Proof. vm_compute. reflexivity. Qed.

Lemma billion_eq : billion = S754_finite false 8388608000000000 (-23).
Proof. vm_compute. reflexivity. Qed.

Lemma million_eq : million = S754_finite false 8589934592000000 (-33).
Proof. vm_compute. reflexivity. Qed.

(** [x >= a] for a positive finite [a = ma * 2^ea], spelled out. *)
Lemma geb_finite (x : number) (ma : positive) (ea : Z) :
  geb x (S754_finite false ma ea) = true <->
  x = S754_infinity false
  \/ exists m e, x = S754_finite false m e
                 /\ (ea < e \/ (ea = e /\ (ma <= m)%positive)).
Proof.
  unfold geb, SFleb, SFcompare.
  destruct x as [s|[|]| |[|] m e]; simpl;
    try (split; [discriminate | intros [?|(?&?&?&?)]; discriminate]);
    try (split; [discriminate | intros [[=]|(?&?&[=]&?)]]).
  - split; [auto | done].
  - destruct (Z.compare_spec ea e) as [->|Hlt|Hgt].
    + change (Pos.compare_cont Eq ma m) with (Pos.compare ma m).
      destruct (Pos.compare_spec ma m) as [->|Hc|Hc]; simpl.
      * split; [|done].
        intros _. right. exists m, e. split; [done|]. right. split; [done|lia].
      * split; [|done].
        intros _. right. exists m, e. split; [done|]. right. split; [done|lia].
      * split; [discriminate|].
        intros [[=]|(m' & e' & [= <- <-] & [?|[_ ?]])]; lia.
    + split; [|done]. intros _. right. exists m, e. split; [done|]. by left.
    + split; [discriminate|].
      intros [[=]|(m' & e' & [= <- <-] & [?|[? ?]])]; lia.
Qed.

Lemma geb_billion_million (v : number) :
  geb v billion = true -> geb v million = true.
Proof.
  rewrite billion_eq, million_eq, !geb_finite.
  intros [->|(m & e & -> & H)]; [by left|].
  right. exists m, e. split; [done|]. left. lia.
Qed.

Lemma geb_trillion_billion (v : number) :
  geb v trillion = true -> geb v billion = true.
Proof.
  rewrite trillion_eq, billion_eq, !geb_finite.
  intros [->|(m & e & -> & H)]; [by left|].
  right. exists m, e. split; [done|]. left. lia.
Qed.

Lemma not_true_false (b : bool) : (b = true -> False) -> b = false.
Proof. by destruct b; [intros []|]. Qed.

(** C7. Boundary law. The tiers of [marketCapNumToText] are closed below:
    10^9 gives "$1.00 billion" and 10^9 - 1 gives "$1000.00 million";
    2300000000 gives "$2.30 billion". A value that is at least 10^12 is
    written with "trillion"; at least 10^9 and not at least 10^12, with
    "billion"; at least 10^6 and not at least 10^9, with "million"; and a
    value that is not at least 10^6 is written as the grouped decimal
    string of [toLocaleString], as "$999,999" for 999999. *)
Theorem boundary_law :
  marketCapNumToText (Num.of_Z (10 ^ 9)) = "$1.00 billion"
  /\ marketCapNumToText (Num.of_Z (10 ^ 9 - 1)) = "$1000.00 million"
  /\ marketCapNumToText (Num.of_Z 2300000000) = "$2.30 billion"
  /\ marketCapNumToText (Num.of_Z (10 ^ 12)) = "$1.00 trillion"
  /\ marketCapNumToText (Num.of_Z (10 ^ 12 - 1)) = "$1000.00 billion"
  /\ marketCapNumToText (Num.of_Z (10 ^ 6)) = "$1.00 million"
  /\ marketCapNumToText (Num.of_Z (10 ^ 6 - 1)) = "$999,999"
  /\ (forall v, geb v (Num.of_Z (10 ^ 12)) = true ->
        marketCapNumToText v
        = ("$" ++ toFixed (div v (Num.of_Z (10 ^ 12))) 2 ++ " trillion")%string)
  /\ (forall v, geb v (Num.of_Z (10 ^ 9)) = true ->
        geb v (Num.of_Z (10 ^ 12)) = false ->
        marketCapNumToText v
        = ("$" ++ toFixed (div v (Num.of_Z (10 ^ 9))) 2 ++ " billion")%string)
  /\ (forall v, geb v (Num.of_Z (10 ^ 6)) = true ->
        geb v (Num.of_Z (10 ^ 9)) = false ->
        marketCapNumToText v
        = ("$" ++ toFixed (div v (Num.of_Z (10 ^ 6))) 2 ++ " million")%string)
  /\ (forall v, geb v (Num.of_Z (10 ^ 6)) = false ->
        marketCapNumToText v = ("$" ++ toLocaleString v)%string).
Proof.
  do 7 (split; [vm_compute; reflexivity|]).
  change (Num.of_Z (10 ^ 12)) with trillion.
  change (Num.of_Z (10 ^ 9)) with billion.
  change (Num.of_Z (10 ^ 6)) with million.
  unfold marketCapNumToText. split; [|split; [|split]].
  - by intros v ->.
  - by intros v Hb ->; rewrite Hb.
  - intros v Hm Hb.
    assert (Ht : geb v trillion = false).
    { apply not_true_false. intros Ht%geb_trillion_billion. congruence. }
    by rewrite Ht, Hb, Hm.
  - intros v Hm.
    assert (Hb : geb v billion = false).
    { apply not_true_false. intros Hb%geb_billion_million. congruence. }
    assert (Ht : geb v trillion = false).
    { apply not_true_false. intros Ht%geb_trillion_billion. congruence. }
    by rewrite Ht, Hb, Hm.
Qed.

Lemma boundary_law_witness :
  geb (Num.of_Z 5000000) (Num.of_Z (10 ^ 6)) = true
  /\ geb (Num.of_Z 5000000) (Num.of_Z (10 ^ 9)) = false
  /\ marketCapNumToText (Num.of_Z 5000000)
     = ("$" ++ toFixed (div (Num.of_Z 5000000) (Num.of_Z (10 ^ 6))) 2 ++ " million")%string
  /\ toFixed (div (Num.of_Z 5000000) (Num.of_Z (10 ^ 6))) 2 = "5.00".
Proof.
  split; [reflexivity|]. split; [reflexivity|]. split; [|vm_compute; reflexivity].
  destruct boundary_law as (_ & _ & _ & _ & _ & _ & _ & _ & _ & Hmillion & _).
  apply Hmillion; reflexivity.
Defined.

End EngineLaws.

(** ** Decimal digits: writing a number and reading it back *)

Module Digits.

Import Num Str JS Utils Claimed EngineLaws.

(** *** Digits *)

Lemma digit_char_val (d : Z) : 0 <= d <= 9 -> digit_val (digit_char d) = d.
Proof.
  intros H.
  assert (d = 0 \/ d = 1 \/ d = 2 \/ d = 3 \/ d = 4 \/ d = 5 \/ d = 6 \/ d = 7
          \/ d = 8 \/ d = 9) as Hd by lia.
  repeat destruct Hd as [->|Hd]; try subst d; reflexivity.
Qed.

Lemma digit_char_is_digit (d : Z) : 0 <= d <= 9 -> is_digit (digit_char d) = true.
Proof.
  intros H.
  assert (d = 0 \/ d = 1 \/ d = 2 \/ d = 3 \/ d = 4 \/ d = 5 \/ d = 6 \/ d = 7
          \/ d = 8 \/ d = 9) as Hd by lia.
  repeat destruct Hd as [->|Hd]; try subst d; reflexivity.
Qed.

Lemma app_String (c : ascii) (a b : string) :
  (String c a ++ b)%string = String c (a ++ b)%string.
Proof. reflexivity. Qed.

Lemma app_assoc_s (a b c : string) : ((a ++ b) ++ c)%string = (a ++ (b ++ c))%string.
Proof. induction a as [|x a IH]; [done|]. by rewrite !app_String, IH. Qed.

Lemma app_nil_s (a : string) : (a ++ "")%string = a.
Proof. induction a as [|x a IH]; [done|]. by rewrite app_String, IH. Qed.

Lemma length_app_s (a b : string) :
  String.length (a ++ b) = (String.length a + String.length b)%nat.
Proof. induction a as [|x a IH]; [done|]. rewrite app_String. simpl. by rewrite IH. Qed.

Lemma all_digits_app (a b : string) :
  all_digits (a ++ b) = all_digits a && all_digits b.
Proof.
  induction a as [|x a IH]; [done|]. rewrite app_String. simpl.
  by rewrite IH, andb_assoc.
Qed.

Lemma digits_val_app (a b : string) (acc : Z) :
  digits_val acc (a ++ b) = digits_val (digits_val acc a) b.
Proof.
  revert acc. induction a as [|x a IH]; intros acc; [done|].
  rewrite app_String. simpl. by rewrite IH.
Qed.

Lemma digits_fuel_S (f : nat) (n : Z) (acc : string) :
  digits_fuel (S f) n acc =
    if n / 10 =? 0 then String (digit_char (n mod 10)) acc
    else digits_fuel f (n / 10) (String (digit_char (n mod 10)) acc).
Proof. reflexivity. Qed.

(** The digits that [digits_fuel] puts in front of [acc]. *)
Lemma digits_fuel_spec (f : nat) :
  forall (n : Z) (acc : string),
    0 <= n < 2 ^ Z.of_nat (S f) ->
    exists ds,
      digits_fuel (S f) n acc = (ds ++ acc)%string
      /\ all_digits ds = true
      /\ (forall a, digits_val a ds = a * 10 ^ Z.of_nat (String.length ds) + n)
      /\ (1 <= String.length ds)%nat
      /\ (forall k, (1 <= k)%nat -> n < 10 ^ Z.of_nat k -> (String.length ds <= k)%nat).
Proof.
  induction f as [|f IH]; intros n acc Hn.
  - assert (n / 10 = 0) as Hq.
    { apply Z.div_small. change (2 ^ Z.of_nat 1) with 2 in Hn. lia. }
    rewrite digits_fuel_S, Hq. cbn [Z.eqb].
    exists (String (digit_char (n mod 10)) EmptyString). split; [done|].
    assert (Hm : n mod 10 = n) by (apply Z.mod_small; change (2 ^ Z.of_nat 1) with 2 in Hn; lia).
    rewrite Hm. split; [|split; [|split]].
    + simpl. rewrite digit_char_is_digit; [done|]. change (2 ^ Z.of_nat 1) with 2 in Hn. lia.
    + intros a. simpl. rewrite digit_char_val; [|change (2 ^ Z.of_nat 1) with 2 in Hn; lia].
      change (10 ^ 1) with 10. lia.
    + simpl. lia.
    + intros k Hk _. simpl. lia.
  - rewrite digits_fuel_S. destruct (n / 10 =? 0) eqn:Hq.
    + apply Z.eqb_eq in Hq.
      assert (Hlt : 0 <= n < 10).
      { pose proof (Z.div_mod n 10 ltac:(lia)). pose proof (Z.mod_pos_bound n 10 ltac:(lia)). lia. }
      assert (Hm : n mod 10 = n) by (by apply Z.mod_small).
      exists (String (digit_char (n mod 10)) EmptyString). split; [done|].
      rewrite Hm. split; [|split; [|split]].
      * simpl. by rewrite digit_char_is_digit by lia.
      * intros a. simpl. rewrite digit_char_val by lia. change (10 ^ 1) with 10. lia.
      * simpl. lia.
      * intros k Hk _. simpl. lia.
    + apply Z.eqb_neq in Hq.
      assert (Hn10 : 10 <= n).
      { destruct (Z.lt_ge_cases n 10) as [Hc|]; [|done].
        rewrite Z.div_small in Hq by lia. done. }
      assert (Hdiv : 0 <= n / 10 < 2 ^ Z.of_nat (S f)).
      { split; [apply Z.div_pos; lia|].
        apply Z.div_lt_upper_bound; [lia|].
        rewrite (Nat2Z.inj_succ (S f)), Z.pow_succ_r in Hn by lia. lia. }
      destruct (IH (n / 10) (String (digit_char (n mod 10)) acc) Hdiv)
        as (ds & Heq & Hall & Hval & Hlen & Hk).
      exists (ds ++ String (digit_char (n mod 10)) EmptyString)%string.
      pose proof (Z.mod_pos_bound n 10 ltac:(lia)) as Hmod.
      split; [|split; [|split; [|split]]].
      * rewrite Heq. by rewrite app_assoc_s.
      * rewrite all_digits_app, Hall. simpl. by rewrite digit_char_is_digit by lia.
      * intros a. rewrite digits_val_app, Hval. simpl.
        rewrite digit_char_val by lia. rewrite length_app_s. simpl.
        rewrite Nat2Z.inj_add, Z.pow_add_r by lia. change (10 ^ Z.of_nat 1) with 10.
        pose proof (Z.div_mod n 10 ltac:(lia)). lia.
      * rewrite length_app_s. simpl. lia.
      * intros k Hk1 Hk10. rewrite length_app_s. simpl.
        destruct k as [|[|k]]; try lia.
        assert (String.length ds <= S k)%nat; [|lia].
        apply Hk; [lia|].
        apply Z.div_lt_upper_bound; [lia|].
        rewrite (Nat2Z.inj_succ (S k)), Z.pow_succ_r in Hk10 by lia. lia.
Qed.

(** [Str.of_Z n] writes [n] in decimal digits. *)
Lemma of_Z_spec (n : Z) :
  0 <= n ->
  all_digits (Str.of_Z n) = true
  /\ (forall a, digits_val a (Str.of_Z n)
                = a * 10 ^ Z.of_nat (String.length (Str.of_Z n)) + n)
  /\ (1 <= String.length (Str.of_Z n))%nat
  /\ (forall k, (1 <= k)%nat -> n < 10 ^ Z.of_nat k ->
                (String.length (Str.of_Z n) <= k)%nat).
Proof.
  intros Hn. unfold Str.of_Z.
  destruct (digits_fuel_spec (Z.to_nat (Z.log2 n)) n EmptyString)
    as (ds & Heq & H).
  - split; [done|]. rewrite Nat2Z.inj_succ, Z2Nat.id by apply Z.log2_nonneg.
    destruct (Z.eq_dec n 0) as [->|]; [done|].
    apply Z.log2_spec. lia.
  - rewrite Heq, app_nil_s. exact H.
Qed.

(** *** Padding *)

Lemma zeros_spec (k : nat) :
  all_digits (zeros k) = true
  /\ (forall a, digits_val a (zeros k) = a * 10 ^ Z.of_nat k)
  /\ String.length (zeros k) = k.
Proof.
  induction k as [|k (IH1 & IH2 & IH3)]; [split; [done|split; [intros; simpl; lia|done]]|].
  split; [|split].
  - simpl. exact IH1.
  - intros a. cbn [zeros digits_val]. rewrite IH2.
    change (digit_val "0") with 0.
    rewrite Nat2Z.inj_succ, Z.pow_succ_r by lia. lia.
  - simpl. by rewrite IH3.
Qed.

(** The last [f] digits of a number below [10^f], written with [f]
    digits. *)
Lemma pad_left_spec (f : nat) (x : Z) :
  (1 <= f)%nat -> 0 <= x < 10 ^ Z.of_nat f ->
  all_digits (pad_left f (Str.of_Z x)) = true
  /\ (forall a, digits_val a (pad_left f (Str.of_Z x)) = a * 10 ^ Z.of_nat f + x)
  /\ String.length (pad_left f (Str.of_Z x)) = f.
Proof.
  intros Hf Hx. destruct (of_Z_spec x ltac:(lia)) as (Hall & Hval & Hlen & Hk).
  specialize (Hk f Hf ltac:(lia)).
  destruct (zeros_spec (f - String.length (Str.of_Z x))) as (Z1 & Z2 & Z3).
  unfold pad_left. split; [|split].
  - by rewrite all_digits_app, Z1, Hall.
  - intros a. rewrite digits_val_app, Z2, Hval.
    rewrite <- Z.mul_assoc, <- Z.pow_add_r by lia.
    replace (Z.of_nat (f - String.length (Str.of_Z x))
             + Z.of_nat (String.length (Str.of_Z x))) with (Z.of_nat f) by lia.
    reflexivity.
  - rewrite length_app_s, Z3. lia.
Qed.

(** *** Reading a literal *)

Lemma digit_not_special (c : ascii) :
  is_digit c = true ->
  is_ws c = false /\ c <> "-"%char /\ c <> "+"%char /\ c <> "I"%char.
Proof.
  destruct c as [[] [] [] [] [] [] [] []]; try discriminate; intros _;
    repeat split; discriminate.
Qed.

Lemma span_digits_app (a b : string) :
  all_digits a = true ->
  match b with
  | EmptyString => True
  | String c _ => is_digit c = false
  end ->
  span_digits (a ++ b) = (a, b).
Proof.
  intros Ha Hb. induction a as [|x a IH].
  - simpl. destruct b as [|c b]; [done|]. simpl. by rewrite Hb.
  - simpl in Ha. apply andb_true_iff in Ha as [Hx Ha].
    rewrite app_String. simpl. by rewrite Hx, IH.
Qed.

Lemma parseFloat_digit (c : ascii) (rest : string) :
  is_digit c = true ->
  parseFloat (String c rest) = parse_unsigned false (String c rest).
Proof.
  destruct c as [[] [] [] [] [] [] [] []]; try discriminate; intros _; reflexivity.
Qed.

Lemma prefix_Infinity_digit (c : ascii) (rest : string) :
  is_digit c = true -> String.prefix "Infinity" (String c rest) = false.
Proof.
  destruct c as [[] [] [] [] [] [] [] []]; try discriminate; intros _; reflexivity.
Qed.

Lemma digits_val_acc (s : string) :
  forall a, digits_val a s = a * 10 ^ len s + digits_val 0 s.
Proof.
  unfold len. induction s as [|c s IH]; intros a; [simpl; lia|].
  cbn [digits_val String.length]. rewrite IH, (IH (10 * 0 + digit_val c)).
  rewrite Nat2Z.inj_succ, Z.pow_succ_r by lia. lia.
Qed.

(** A decimal literal is read as its digits, scaled by the number of
    fraction digits. *)
Lemma parseFloat_literal (ip fp : string) :
  all_digits ip = true -> (1 <= String.length ip)%nat -> all_digits fp = true ->
  parseFloat (ip ++ match fp with EmptyString => EmptyString | _ => "." ++ fp end)
  = of_decimal false (digits_val 0 (ip ++ fp)) (- len fp).
Proof.
  intros I1 I3 F1.
  destruct ip as [|c ip'] eqn:Hip; [simpl in I3; lia|].
  assert (Hc : is_digit c = true) by (simpl in I1; by apply andb_true_iff in I1 as [? _]).
  rewrite app_String, parseFloat_digit by done.
  unfold parse_unsigned. rewrite prefix_Infinity_digit by done.
  rewrite <- app_String, <- Hip in *.
  destruct fp as [|f fp'] eqn:Hfp.
  - rewrite (span_digits_app ip EmptyString I1 I).
    cbv iota beta. rewrite app_nil_s.
    rewrite Hip at 1. cbv iota. rewrite <- Hip. reflexivity.
  - rewrite <- Hfp in *.
    change ("." ++ fp)%string with (String "." fp).
    rewrite (span_digits_app ip (String "." fp)); [|exact I1|reflexivity].
    cbv iota beta.
    replace (span_digits fp) with (fp, EmptyString)
      by (by rewrite <- (app_nil_s fp) at 2; rewrite span_digits_app).
    cbv iota beta.
    assert (Hne : (ip ++ fp)%string = String c (ip' ++ fp)%string) by (by rewrite Hip).
    rewrite Hne, <- Hne. cbv iota. reflexivity.
Qed.

(** Reading back a number written with a point before its last [f]
    digits. *)
Lemma parseFloat_fixed (f : nat) (n : Z) :
  (1 <= f)%nat -> 0 <= n ->
  parseFloat (fixed_digits f n) = of_decimal false n (- Z.of_nat f).
Proof.
  intros Hf Hn. unfold fixed_digits. destruct f as [|f']; [lia|].
  set (f := S f') in *. set (p := 10 ^ Z.of_nat f).
  assert (Hp : 0 < p) by (apply Z.pow_pos_nonneg; lia).
  destruct (of_Z_spec (n / p)) as (I1 & I2 & I3 & _); [apply Z.div_pos; lia|].
  destruct (pad_left_spec f (n mod p) Hf) as (F1 & F2 & F3);
    [apply Z.mod_pos_bound; lia|].
  set (ip := Str.of_Z (n / p)) in *. set (fp := pad_left f (Str.of_Z (n mod p))) in *.
  pose proof (parseFloat_literal ip fp I1 I3 F1) as H.
  destruct fp as [|c fp'] eqn:Hfp; [simpl in F3; lia|]. rewrite <- Hfp in *.
  rewrite H, digits_val_app, I2, F2. unfold len. rewrite F3. f_equal.
  fold p. pose proof (Z.div_mod n p ltac:(lia)). lia.
Qed.

(** *** Stripping and searching the text of a scaled value *)

Lemma numeric_app (a b : string) : numeric (a ++ b) = numeric a && numeric b.
Proof.
  induction a as [|c a IH]; [done|].
  rewrite app_String. simpl. by rewrite IH, andb_assoc.
Qed.

Lemma all_digits_numeric (s : string) : all_digits s = true -> numeric s = true.
Proof.
  induction s as [|c s IH]; [done|]. simpl.
  intros [Hc Hs]%andb_true_iff. unfold numeric_char. by rewrite Hc, IH.
Qed.

Lemma numeric_fixed (f : nat) (n : Z) :
  0 <= n -> numeric (fixed_digits f n) = true.
Proof.
  intros Hn. unfold fixed_digits. destruct f as [|f'].
  - apply all_digits_numeric. by destruct (of_Z_spec n Hn) as (? & _).
  - set (f := S f'). set (p := 10 ^ Z.of_nat f).
    assert (Hp : 0 < p) by (apply Z.pow_pos_nonneg; lia).
    destruct (of_Z_spec (n / p)) as (I1 & _); [apply Z.div_pos; lia|].
    destruct (pad_left_spec f (n mod p)) as (F1 & _);
      [unfold f; lia | apply Z.mod_pos_bound; lia|].
    rewrite !numeric_app. fold p.
    by rewrite (all_digits_numeric _ I1), (all_digits_numeric _ F1).
Qed.

Lemma strip_app (a b : string) : strip (a ++ b) = (strip a ++ strip b)%string.
Proof.
  unfold strip. induction a as [|c a IH]; [done|].
  rewrite app_String. simpl. rewrite IH. by destruct (numeric_char c).
Qed.

Lemma strip_numeric (s : string) : numeric s = true -> strip s = s.
Proof.
  unfold strip. induction s as [|c s IH]; [done|]. simpl.
  intros [Hc Hs]%andb_true_iff. by rewrite Hc, IH.
Qed.

Lemma includes_numeric (s rest sub : string) :
  numeric s = true -> worded sub ->
  includes (s ++ rest) sub = includes rest sub.
Proof.
  intros Hs Hsub. induction s as [|c s IH]; [done|].
  simpl in Hs. apply andb_true_iff in Hs as [Hc Hs].
  rewrite app_String. cbn [includes]. rewrite IH by done.
  destruct sub as [|c0 sub]; [done|]. destruct Hsub as [Hsub _]. simpl.
  destruct (Ascii.ascii_dec c0 c) as [->|_]; [congruence|done].
Qed.

(** The text written for a scaled value: its number is read back, and
    its word is the only one found. *)
Lemma strip_formatted (d word : string) :
  numeric d = true -> strip word = EmptyString ->
  strip ("$" ++ d ++ word) = d.
Proof.
  intros Hd Hw. rewrite !strip_app, Hw, (strip_numeric d Hd).
  change (strip "$") with EmptyString. by rewrite app_nil_s.
Qed.

Lemma includes_formatted (d word sub : string) :
  numeric d = true -> worded sub ->
  includes ("$" ++ d ++ word) sub = includes word sub.
Proof.
  intros Hd Hsub.
  change ("$" ++ d ++ word)%string with (String "$" (d ++ word)).
  cbn [includes]. rewrite includes_numeric by done.
  destruct sub as [|c0 sub]; [done|]. destruct Hsub as [_ Hne]. simpl.
  destruct (Ascii.ascii_dec c0 "$") as [->|_]; done.
Qed.

(** *** The grouped text of a value below 10^6 *)

Lemma grouped_app (a b : string) : grouped (a ++ b) = grouped a && grouped b.
Proof.
  induction a as [|c a IH]; [done|].
  rewrite app_String. simpl. by rewrite IH, andb_assoc.
Qed.

Lemma all_digits_grouped (s : string) : all_digits s = true -> grouped s = true.
Proof.
  induction s as [|c s IH]; [done|]. simpl.
  intros [Hc Hs]%andb_true_iff. unfold grouped_char. by rewrite Hc, IH.
Qed.

(** No word starts within a grouped decimal text. *)
Lemma includes_grouped (s sub : string) :
  grouped s = true ->
  match sub with
  | String c _ => grouped_char c = false
  | EmptyString => False
  end ->
  includes s sub = false.
Proof.
  intros Hs Hsub. destruct sub as [|c0 sub]; [done|].
  induction s as [|c s IH]; [done|].
  simpl in Hs. apply andb_true_iff in Hs as [Hc Hs].
  cbn [includes]. rewrite IH by done. simpl.
  destruct (Ascii.ascii_dec c0 c) as [->|_]; [congruence|done].
Qed.

(** The digits of a grouped integer, the commas left out, are those of
    the integer. *)
Lemma group3_fuel_spec (fuel : nat) :
  forall (n : Z) (acc : string),
    (1 <= fuel)%nat -> 0 <= n < 2 ^ Z.of_nat fuel ->
    exists d,
      strip (group3_fuel fuel n acc) = (d ++ strip acc)%string
      /\ all_digits d = true
      /\ (1 <= String.length d)%nat
      /\ (forall a, digits_val a d = a * 10 ^ len d + n)
      /\ grouped (group3_fuel fuel n acc) = grouped acc.
Proof.
  induction fuel as [|f IH]; intros n acc Hf Hn; [lia|].
  cbn [group3_fuel]. destruct (Z.ltb_spec n 1000) as [Hlt|Hge].
  - destruct (of_Z_spec n ltac:(lia)) as (D1 & D2 & D3 & _).
    exists (Str.of_Z n). rewrite strip_app, grouped_app.
    rewrite (strip_numeric _ (all_digits_numeric _ D1)).
    rewrite (all_digits_grouped _ D1). repeat split; try done.
  - assert (Hf1 : (1 <= f)%nat).
    { destruct f; [|lia]. change (2 ^ Z.of_nat 1) with 2 in Hn. lia. }
    assert (Hpow : 2 ^ Z.of_nat (S f) = 2 * 2 ^ Z.of_nat f).
    { rewrite Nat2Z.inj_succ, Z.pow_succ_r by lia. done. }
    assert (Hq : 0 <= n / 1000 < 2 ^ Z.of_nat f).
    { split; [apply Z.div_pos; lia|]. apply Z.div_lt_upper_bound; lia. }
    destruct (pad_left_spec 3 (n mod 1000) ltac:(lia)) as (P1 & P2 & P3);
      [change (10 ^ Z.of_nat 3) with 1000; apply Z.mod_pos_bound; lia|].
    set (pad := pad_left 3 (Str.of_Z (n mod 1000))) in *.
    destruct (IH (n / 1000) ("," ++ pad ++ acc)%string Hf1 Hq)
      as (d & E & D1 & D3 & D2 & G).
    exists (d ++ pad)%string. split; [|split; [|split; [|split]]].
    + rewrite E, !strip_app. change (strip ",") with EmptyString.
      rewrite (strip_numeric _ (all_digits_numeric _ P1)).
      change (EmptyString ++ pad ++ strip acc)%string with (pad ++ strip acc)%string.
      by rewrite app_assoc_s.
    + by rewrite all_digits_app, D1, P1.
    + rewrite length_app_s. lia.
    + intros a. rewrite digits_val_app, D2, P2.
      unfold len. rewrite length_app_s, P3, Nat2Z.inj_add, Z.pow_add_r by lia.
      change (10 ^ Z.of_nat 3) with 1000.
      pose proof (Z.div_mod n 1000 ltac:(lia)). unfold len. lia.
    + rewrite G, !grouped_app. change (grouped ",") with true.
      by rewrite (all_digits_grouped _ P1).
Qed.

Lemma group3_spec (n : Z) :
  0 <= n ->
  exists d,
    strip (group3 n) = d
    /\ all_digits d = true
    /\ (1 <= String.length d)%nat
    /\ (forall a, digits_val a d = a * 10 ^ len d + n)
    /\ grouped (group3 n) = true.
Proof.
  intros Hn. unfold group3.
  destruct (group3_fuel_spec (S (Z.to_nat (Z.log2 n))) n EmptyString)
    as (d & E & D); [lia| |].
  - split; [done|]. rewrite Nat2Z.inj_succ, Z2Nat.id by apply Z.log2_nonneg.
    destruct (Z.eq_dec n 0) as [->|]; [done|]. apply Z.log2_spec. lia.
  - exists d. change (strip EmptyString) with EmptyString in E.
    by rewrite app_nil_s in E.
Qed.

Lemma fraction_check :
  forallb fraction_ok (List.map Z.of_nat (seq 0 1000)) = true.
Proof. vm_compute. reflexivity. Qed.

(** The fraction digits written for the thousandths [x]: trailing zeros
    go, the value stays. *)
Lemma fraction_spec (x : Z) :
  0 <= x < 1000 ->
  all_digits (fraction x) = true
  /\ 0 <= len (fraction x) <= 3
  /\ digits_val 0 (fraction x) * 10 ^ (3 - len (fraction x)) = x.
Proof.
  intros Hx. pose proof fraction_check as H.
  rewrite forallb_forall in H. specialize (H x).
  assert (Hin : In x (List.map Z.of_nat (seq 0 1000))).
  { apply in_map_iff. exists (Z.to_nat x). split; [lia|]. apply in_seq. lia. }
  apply H in Hin. unfold fraction_ok in Hin.
  apply andb_true_iff in Hin as [[H1 H2]%andb_true_iff H3].
  apply Z.leb_le in H2. apply Z.eqb_eq in H3. unfold len in *. repeat split; try done. lia.
Qed.

Lemma plain_text_grouped (q : Z) (fr : string) :
  0 <= q -> all_digits fr = true -> grouped (plain_text q fr) = true.
Proof.
  intros Hq F1. destruct (group3_spec q Hq) as (d & _ & _ & _ & _ & G).
  unfold plain_text. rewrite grouped_app. change (grouped "$") with true.
  destruct fr as [|c fr]; [exact G|].
  rewrite !grouped_app, G, (all_digits_grouped _ F1). reflexivity.
Qed.

Lemma plain_text_strip (q : Z) (fr : string) :
  all_digits fr = true ->
  strip (plain_text q fr)
  = (strip (group3 q)
     ++ match fr with EmptyString => EmptyString | _ => "." ++ fr end)%string.
Proof.
  intros F1. unfold plain_text. rewrite strip_app. change (strip "$") with EmptyString.
  destruct fr as [|c fr]; [by rewrite app_nil_s|].
  rewrite !strip_app, (strip_numeric _ (all_digits_numeric _ F1)). reflexivity.
Qed.

End Digits.

(** ** Dates: the text of a time stamp *)

Module DateLaws.

Import Num Str Notions Digits.

(** The date of a day number is a date of the calendar, and the day
    number is found again from it. *)
Lemma civil_round_trip (days : Z) :
  let '(y, m, d) := Date.civil_from_days days in
  1 <= m <= 12 /\ 1 <= d <= 31 /\ days_from_civil y m d = days
  /\ (days + 719468) / 146097 * 400 <= y <= (days + 719468) / 146097 * 400 + 400.
Proof.
  unfold Date.civil_from_days, days_from_civil. cbv zeta.
  set (z := days + 719468).
  set (era := z / 146097).
  set (doe := z - era * 146097).
  assert (Hdoe : 0 <= doe <= 146096) by (unfold doe, era; Z.div_mod_to_equations; lia).
  set (yoe := (doe - doe / 1460 + doe / 36524 - doe / 146096) / 365).
  set (doy := doe - (365 * yoe + yoe / 4 - yoe / 100)).
  assert (Hy : 0 <= yoe <= 399 /\ 0 <= doy <= 365)
    by (unfold doy, yoe; Z.div_mod_to_equations; lia).
  set (mp := (5 * doy + 2) / 153).
  assert (Hmp : 0 <= mp <= 11) by (unfold mp; Z.div_mod_to_equations; lia).
  set (d := doy - (153 * mp + 2) / 5 + 1).
  assert (Hd : 1 <= d <= 31) by (unfold d, mp; Z.div_mod_to_equations; lia).
  assert (Hleap : doy = 365 -> mp = 11) by (unfold mp; Z.div_mod_to_equations; lia).
  destruct (Z.ltb_spec mp 10) as [Hm|Hm].
  - destruct (Z.leb_spec (mp + 3) 2) as [?|_]; [lia|].
    destruct (Z.ltb_spec 2 (mp + 3)) as [_|?]; [|lia].
    replace (mp + 3 - 3) with mp by lia.
    replace (yoe + era * 400 + 0) with (yoe + era * 400) by lia.
    assert (E1 : (yoe + era * 400) / 400 = era) by (Z.div_mod_to_equations; lia).
    rewrite E1. replace (yoe + era * 400 - era * 400) with yoe by lia.
    split; [lia|]. split; [lia|]. split; [|fold era; lia].
    unfold d, doy, doe, z. lia.
  - destruct (Z.leb_spec (mp - 9) 2) as [_|?]; [|lia].
    destruct (Z.ltb_spec 2 (mp - 9)) as [?|_]; [lia|].
    replace (mp - 9 + 9) with mp by lia.
    replace (yoe + era * 400 + 1 - 1) with (yoe + era * 400) by lia.
    assert (E1 : (yoe + era * 400) / 400 = era) by (Z.div_mod_to_equations; lia).
    rewrite E1. replace (yoe + era * 400 - era * 400) with yoe by lia.
    split; [lia|]. split; [lia|]. split; [|fold era; lia].
    unfold d, doy, doe, z. lia.
Qed.

Lemma read_digits_app (ds rest : string) :
  forall acc, all_digits ds = true ->
    read_digits (String.length ds) acc (ds ++ rest) = Some (digits_val acc ds, rest).
Proof.
  induction ds as [|c ds IH]; intros acc; [done|].
  cbn [all_digits]. intros [Hc Hs]%andb_true_iff.
  rewrite app_String. cbn [String.length read_digits digits_val].
  rewrite Hc. by apply IH.
Qed.

(** A field written with [n] digits is read back. *)
Lemma read_pad (n : nat) (z : Z) (rest : string) :
  (1 <= n)%nat -> 0 <= z < 10 ^ Z.of_nat n ->
  read_digits n 0 (Date.pad n z ++ rest) = Some (z, rest).
Proof.
  intros Hn Hz. destruct (pad_left_spec n z Hn Hz) as (H1 & H2 & H3).
  unfold Date.pad. rewrite <- H3 at 1. rewrite read_digits_app by done.
  rewrite H2. reflexivity.
Qed.

Lemma read_year_digit (c : ascii) (s : string) :
  is_digit c = true -> read_year (String c s) = read_digits 4 0 (String c s).
Proof.
  destruct c as [[] [] [] [] [] [] [] []]; try discriminate; intros _; reflexivity.
Qed.

Lemma read_year_string (y : Z) (rest : string) :
  -999999 <= y <= 999999 ->
  read_year (Date.year_string y ++ rest) = Some (y, rest).
Proof.
  intros Hy. unfold Date.year_string.
  destruct (Z.leb_spec 0 y) as [H0|H0]; cbn [andb].
  - destruct (Z.leb_spec y 9999) as [H1|H1].
    + pose proof (read_pad 4 y rest ltac:(lia) ltac:(simpl; lia)) as Hr.
      destruct (pad_left_spec 4 y ltac:(lia) ltac:(simpl; lia)) as (A1 & _ & A3).
      unfold Date.pad in *.
      destruct (pad_left 4 (Str.of_Z y)) as [|c s]; [discriminate A3|].
      cbn [all_digits] in A1. apply andb_true_iff in A1 as [Hc _].
      rewrite app_String in *. by rewrite read_year_digit.
    + destruct (Z.ltb_spec y 0) as [?|_]; [lia|].
      change (("+" ++ Date.pad 6 (Z.abs y)) ++ rest)%string
        with (String "+" (Date.pad 6 (Z.abs y) ++ rest)).
      cbn [read_year]. rewrite read_pad by (simpl; lia). do 2 f_equal. lia.
  - destruct (Z.ltb_spec y 0) as [_|?]; [|lia].
    change (("-" ++ Date.pad 6 (Z.abs y)) ++ rest)%string
      with (String "-" (Date.pad 6 (Z.abs y) ++ rest)).
    cbn [read_year]. rewrite read_pad by (simpl; lia).
    destruct (Z.eqb_spec (Z.abs y) 0) as [?|_]; [lia|]. do 2 f_equal. lia.
Qed.

Lemma read_char_cons (c : ascii) (rest : string) :
  read_char c (String c EmptyString ++ rest) = Some rest.
Proof. simpl. by rewrite Ascii.eqb_refl. Qed.

(** The text of [toISOString] is of the format, and stands for the time
    value it was written from. *)
Lemma toISOString_read (ms : Z) :
  -8640000000000000 <= ms <= 8640000000000000 ->
  read_iso_8601 (Date.toISOString ms) = Some ms.
Proof.
  intros Hms. unfold Date.toISOString.
  pose proof (civil_round_trip (ms / 86400000)) as Hc.
  destruct (Date.civil_from_days (ms / 86400000)) as [[y m] d] eqn:Hciv.
  destruct Hc as (Hm & Hd & Hdays & Hy).
  assert (Hcal : calendar_day y m d = true).
  { unfold calendar_day. by rewrite Hdays, Hciv, !Z.eqb_refl. }
  set (t := ms mod 86400000).
  assert (Ht : 0 <= t < 86400000) by (apply Z.mod_pos_bound; lia).
  assert (Hyear : -999999 <= y <= 999999) by (Z.div_mod_to_equations; lia).
  assert (Hh : 0 <= t / 3600000 <= 23) by (Z.div_mod_to_equations; lia).
  assert (Hmi : 0 <= t / 60000 mod 60 <= 59) by (Z.div_mod_to_equations; lia).
  assert (Hsec : 0 <= t / 1000 mod 60 <= 59) by (Z.div_mod_to_equations; lia).
  assert (Hms3 : 0 <= t mod 1000 <= 999) by (Z.div_mod_to_equations; lia).
  assert (Htime : ms / 86400000 * 86400000 + t / 3600000 * 3600000
                  + t / 60000 mod 60 * 60000 + t / 1000 mod 60 * 1000 + t mod 1000
                  = ms)
    by (unfold t; Z.div_mod_to_equations; lia).
  set (h := t / 3600000) in *. set (mi := t / 60000 mod 60) in *.
  set (sec := t / 1000 mod 60) in *. set (ms3 := t mod 1000) in *.
  unfold read_iso_8601.
  rewrite read_year_string by done. cbn [mbind option_bind].
  repeat (first [rewrite read_char_cons | rewrite read_pad by (simpl; lia)];
          cbn [mbind option_bind]).
  cbn [read_char Ascii.eqb Bool.eqb mbind option_bind String.eqb andb].
  rewrite Hcal, !(proj2 (Z.leb_le _ _)) by lia. cbn [andb].
  by rewrite Hdays, Htime.
Qed.

End DateLaws.

(** ** The error envelope of the cold path *)

Module ColdFailure.

Import Num Json Server Scrapers Index Spec Examples Notions CacheLaws DateLaws.

(** C3. Cold-failure law: when no entry is stored under the key and the
    producer fails, the answer is 500 with the error envelope: status
    "error", the custom message, the timestamp and the text of the error;
    it carries no stale data. The timestamp is the ISO 8601 text of the
    moment of the answer: read as a date-time of the format
    YYYY-MM-DDTHH:mm:ss.sssZ it gives back the reading of the clock. *)
Theorem cold_failure_law (cacheKey : string) (scraper : M value)
    (respond : ResponseData -> M response) (errorMessage error : string)
    (w w1 : world) :
  cache w !! cacheKey = None ->
  scraper w = (Throw error, w1) ->
  cache w1 = cache w ->
  route_of cacheKey scraper respond errorMessage w =
    (Ok {| code := 500;
           body := Obj [("status", Str "error");
                        ("message", Str errorMessage);
                        ("timestamp", Str (Date.toISOString (clock w1)));
                        ("error", Str error)] |},
     logged error w1)
  /\ (time_value (clock w1) ->
      read_iso_8601 (Date.toISOString (clock w1)) = Some (clock w1)).
Proof.
  intros Hc Hs Hext. split.
  - by apply route_of_cold.
  - apply toISOString_read.
Qed.

Lemma cold_failure_law_witness :
  cache (start t0) !! "top-gainers" = None
  /\ scrapeTopGainers down (start t0)
     = (Throw "Request failed with status code 503", w_cold)
  /\ cache w_cold = cache (start t0)
  /\ time_value (clock w_cold)
  /\ route_of "top-gainers" (scrapeTopGainers down)
       (respond_list "No top gainers found") "Error fetching top gainers data"
       (start t0)
     = (Ok {| code := 500;
              body := Obj [("status", Str "error");
                           ("message", Str "Error fetching top gainers data");
                           ("timestamp", Str "2023-11-14T22:13:20.050Z");
                           ("error", Str "Request failed with status code 503")] |},
        logged "Request failed with status code 503" w_cold)
  /\ read_iso_8601 "2023-11-14T22:13:20.050Z" = Some (t0 + 50).
Proof.
  assert (H1 : cache (start t0) !! "top-gainers" = None) by reflexivity.
  assert (H2 : scrapeTopGainers down (start t0)
               = (Throw "Request failed with status code 503", w_cold))
    by (vm_compute; reflexivity).
  assert (H3 : cache w_cold = cache (start t0)) by reflexivity.
  assert (H4 : time_value (clock w_cold)) by (vm_compute; split; discriminate).
  do 4 (split; [assumption|]).
  destruct (cold_failure_law "top-gainers" (scrapeTopGainers down)
              (respond_list "No top gainers found") "Error fetching top gainers data"
              "Request failed with status code 503" (start t0) w_cold H1 H2 H3)
    as [Hanswer Hread].
  split; [exact Hanswer | exact (Hread H4)].
Defined.

End ColdFailure.

(** ** Rounding: the relative error of one operation *)

Module Rounding.

Import Num Str JS Utils Claimed.

(** *** The number of binary digits *)

Lemma digits2_pos_bounds (m : positive) :
  2 ^ (Z.pos (digits2_pos m) - 1) <= Z.pos m < 2 ^ Z.pos (digits2_pos m).
Proof.
  induction m as [m IH|m IH|]; simpl digits2_pos.
  - rewrite Pos2Z.inj_succ.
    replace (Z.succ (Z.pos (digits2_pos m)) - 1) with (Z.succ (Z.pos (digits2_pos m) - 1)) by lia.
    rewrite !Z.pow_succ_r by lia. lia.
  - rewrite Pos2Z.inj_succ.
    replace (Z.succ (Z.pos (digits2_pos m)) - 1) with (Z.succ (Z.pos (digits2_pos m) - 1)) by lia.
    rewrite !Z.pow_succ_r by lia. lia.
  - simpl. lia.
Qed.

Lemma digits2_pos_unique (m : positive) (d : Z) :
  2 ^ (d - 1) <= Z.pos m < 2 ^ d -> Z.pos (digits2_pos m) = d.
Proof.
  intros [Hlo Hhi]. pose proof (digits2_pos_bounds m) as [Hlo' Hhi'].
  assert (0 < d).
  { destruct (Z.ltb_spec 0 d); [done|].
    assert (2 ^ d <= 2 ^ 0) by (apply Z.pow_le_mono_r; lia).
    simpl in *. lia. }
  destruct (Z.lt_trichotomy (Z.pos (digits2_pos m)) d) as [Hlt|[Heq|Hgt]]; [|done|].
  - assert (2 ^ Z.pos (digits2_pos m) <= 2 ^ (d - 1)) by (apply Z.pow_le_mono_r; lia).
    lia.
  - assert (2 ^ d <= 2 ^ (Z.pos (digits2_pos m) - 1)) by (apply Z.pow_le_mono_r; lia).
    lia.
Qed.

(** *** The shift that brings a mantissa to 53 digits *)

Lemma shr_1_m (mrs : shr_record) :
  0 <= shr_m mrs -> shr_m (shr_1 mrs) = shr_m mrs / 2.
Proof.
  destruct mrs as [m r s]. cbn [shr_m]. intros Hm.
  destruct m as [|[p|p|]|p]; cbn [shr_1 shr_m]; try lia; try reflexivity.
  - apply Z.div_unique with 1; lia.
  - apply Z.div_unique with 0; lia.
Qed.

Lemma shr_1_nonneg (mrs : shr_record) : 0 <= shr_m mrs -> 0 <= shr_m (shr_1 mrs).
Proof. intros H. rewrite shr_1_m by done. apply Z.div_pos; lia. Qed.

Lemma pow2_pos (n : Z) : 0 < 2 ^ n \/ n < 0.
Proof. destruct (Z.ltb_spec n 0); [by right|left; by apply Z.pow_pos_nonneg]. Qed.

Lemma iter_pos_shr (p : positive) :
  forall mrs, 0 <= shr_m mrs ->
    shr_m (SpecFloat.iter_pos shr_1 p mrs) = shr_m mrs / 2 ^ Z.pos p.
Proof.
  induction p as [p IH|p IH|]; intros mrs Hm; simpl SpecFloat.iter_pos.
  - set (a := shr_1 mrs).
    assert (Ha : 0 <= shr_m a) by (by apply shr_1_nonneg).
    assert (Hb : 0 <= shr_m (SpecFloat.iter_pos shr_1 p a)).
    { rewrite IH by done. apply Z.div_pos; lia. }
    rewrite (IH _ Hb), (IH _ Ha). unfold a. rewrite shr_1_m by done.
    rewrite !Z.div_div by lia. f_equal.
    replace (Z.pos p~1) with (Z.pos p + Z.pos p + 1) by lia.
    rewrite !Z.pow_add_r by lia. change (2 ^ 1) with 2. ring.
  - assert (Hb : 0 <= shr_m (SpecFloat.iter_pos shr_1 p mrs)).
    { rewrite IH by done. apply Z.div_pos; lia. }
    rewrite (IH _ Hb), (IH _ Hm).
    rewrite !Z.div_div by lia. f_equal.
    replace (Z.pos p~0) with (Z.pos p + Z.pos p) by lia.
    rewrite !Z.pow_add_r by lia. ring.
  - by rewrite shr_1_m.
Qed.

Lemma shr_spec (mrs : shr_record) (e n : Z) :
  0 <= shr_m mrs -> 0 <= n ->
  shr_m (shr mrs e n).1 = shr_m mrs / 2 ^ n /\ (shr mrs e n).2 = e + n.
Proof.
  intros Hm Hn. unfold shr. destruct n as [|p|p]; simpl; try lia.
  - by rewrite Z.div_1_r, Z.add_0_r.
  - split; [|done]. by apply iter_pos_shr.
Qed.

Lemma shr_record_of_loc_m (m : Z) (l : location) :
  shr_m (shr_record_of_loc m l) = m.
Proof. by destruct l as [|[| |]]. Qed.

Lemma round_nearest_even_cases (m : Z) (l : location) :
  round_nearest_even m l = m \/ round_nearest_even m l = m + 1.
Proof.
  destruct l as [|[| |]]; simpl; auto. destruct (Z.even m); auto.
Qed.

Lemma fexp_normal (x : Z) : -1074 <= x - 53 -> fexp 53 1024 x = x - 53.
Proof. unfold fexp, emin. lia. Qed.

Lemma div_pow2_bounds (m d : Z) :
  53 <= d -> 2 ^ (d - 1) <= m < 2 ^ d ->
  2 ^ 52 <= m / 2 ^ (d - 53) < 2 ^ 53.
Proof.
  intros Hd [Hlo Hhi].
  assert (Hp : 0 < 2 ^ (d - 53)) by (apply Z.pow_pos_nonneg; lia).
  assert (H1 : 2 ^ (d - 1) = 2 ^ 52 * 2 ^ (d - 53)).
  { rewrite <- Z.pow_add_r by lia. f_equal. lia. }
  assert (H2 : 2 ^ d = 2 ^ 53 * 2 ^ (d - 53)).
  { rewrite <- Z.pow_add_r by lia. f_equal. lia. }
  split.
  - apply Z.div_le_lower_bound; lia.
  - apply Z.div_lt_upper_bound; lia.
Qed.

Lemma shr_fexp_spec (p : positive) (e n : Z) (l : location) :
  n = fexp 53 1024 (Z.pos (digits2_pos p) + e) - e -> 0 <= n ->
  shr_m (shr_fexp 53 1024 (Z.pos p) e l).1 = Z.pos p / 2 ^ n
  /\ (shr_fexp 53 1024 (Z.pos p) e l).2 = e + n.
Proof.
  intros -> Hn. unfold shr_fexp. cbn [Zdigits2].
  destruct (shr_spec (shr_record_of_loc (Z.pos p) l) e
              (fexp 53 1024 (Z.pos (digits2_pos p) + e) - e)) as [H1 H2].
  - rewrite shr_record_of_loc_m. lia.
  - done.
  - by rewrite shr_record_of_loc_m in H1.
Qed.

(** One rounding, in the normal range: the mantissa is truncated to 53
    digits and stays or goes up by one unit; a carry raises the exponent. *)
Lemma round_aux_normal (s : bool) (mx : positive) (ex : Z) (lx : location) :
  let d := Z.pos (digits2_pos mx) in
  53 <= d -> -1074 <= d + ex - 53 -> d + ex <= 1023 ->
  exists m' e',
    binary_round_aux 53 1024 s (Z.pos mx) ex lx = S754_finite s m' e'
    /\ 2 ^ 52 <= Z.pos m' < 2 ^ 53
    /\ ((e' = ex + (d - 53)
         /\ (Z.pos m' = Z.pos mx / 2 ^ (d - 53)
             \/ Z.pos m' = Z.pos mx / 2 ^ (d - 53) + 1))
        \/ (e' = ex + (d - 53) + 1
            /\ 2 * Z.pos m' = Z.pos mx / 2 ^ (d - 53) + 1)).
Proof.
  intros d Hd Hlo Hhi.
  pose proof (digits2_pos_bounds mx) as Hdig. fold d in Hdig.
  pose proof (div_pow2_bounds (Z.pos mx) d Hd Hdig) as Hm1.
  set (m1 := Z.pos mx / 2 ^ (d - 53)) in *.
  unfold binary_round_aux.
  (* the first shift *)
  destruct (shr_fexp_spec mx ex (d - 53) lx) as [Hs1 He1].
  { fold d. rewrite fexp_normal by lia. lia. }
  { lia. }
  fold m1 in Hs1.
  destruct (shr_fexp 53 1024 (Z.pos mx) ex lx) as [mrs1 e1].
  simpl in Hs1, He1. subst e1. rewrite Hs1.
  (* the rounding *)
  set (m2 := round_nearest_even m1 (loc_of_shr_record mrs1)).
  assert (Hm2 : m2 = m1 \/ m2 = m1 + 1) by apply round_nearest_even_cases.
  (* the second shift *)
  assert (Hpos : 0 < m2) by lia.
  destruct m2 as [|p2|p2] eqn:Hp2; try lia.
  destruct (Z.eq_dec (Z.pos p2) (2 ^ 53)) as [Heq|Hne].
  - destruct (shr_fexp_spec p2 (ex + (d - 53)) 1 loc_Exact) as [Hs2 He2].
    { rewrite (digits2_pos_unique p2 54) by (rewrite Heq; simpl; lia).
      rewrite fexp_normal by lia. lia. }
    { lia. }
    destruct (shr_fexp 53 1024 (Z.pos p2) _ loc_Exact) as [mrs2 e2].
    simpl in Hs2, He2. subst e2. rewrite Hs2, Heq.
    change (2 ^ 53 / 2 ^ 1) with (Z.pos (2 ^ 52)%positive).
    destruct (Z.leb_spec (ex + (d - 53) + 1) (1024 - 53)); [|lia].
    exists (2 ^ 52)%positive, (ex + (d - 53) + 1). split; [done|].
    split; [simpl; lia|]. right. split; [done|].
    change (Z.pos (2 ^ 52)) with (2 ^ 52). lia.
  - assert (Hr : 2 ^ 52 <= Z.pos p2 < 2 ^ 53) by lia.
    destruct (shr_fexp_spec p2 (ex + (d - 53)) 0 loc_Exact) as [Hs2 He2].
    { rewrite (digits2_pos_unique p2 53) by (simpl; lia).
      rewrite fexp_normal by lia. lia. }
    { lia. }
    destruct (shr_fexp 53 1024 (Z.pos p2) _ loc_Exact) as [mrs2 e2].
    simpl in Hs2, He2. subst e2. rewrite Hs2, Z.div_1_r.
    destruct (Z.leb_spec (ex + (d - 53) + 0) (1024 - 53)); [|lia].
    exists p2, (ex + (d - 53) + 0). split; [done|]. split; [done|].
    left. split; [lia|]. lia.
Qed.

Local Open Scope Q_scope.

(** *** Values and relative errors *)

Lemma pow2_Q_pos (e : Z) : 0 < 2 ^ e.
Proof. apply Qpower_0_lt. reflexivity. Qed.

Lemma pow2_Q_add (a b : Z) : 2 ^ (a + b) == 2 ^ a * 2 ^ b.
Proof. apply Qpower_plus. discriminate. Qed.

Lemma pow2_Q_inject (k : Z) : (0 <= k)%Z -> inject_Z (2 ^ k) == 2 ^ k.
Proof. intros H. by rewrite Zpower_Qpower. Qed.

Lemma inject_Z_le (a b : Z) : (a <= b)%Z -> inject_Z a <= inject_Z b.
Proof. by rewrite <- Zle_Qle. Qed.

Lemma inject_Z_lt (a b : Z) : (a < b)%Z -> inject_Z a < inject_Z b.
Proof. by rewrite <- Zlt_Qlt. Qed.

(** The rounded value of a quantity [X] known through its truncation
    [mx * 2^ex <= X < (mx + 1) * 2^ex]. *)
Lemma round_aux_value (s : bool) (mx : positive) (ex : Z) (lx : location) (X : Q) :
  let d := Z.pos (digits2_pos mx) in
  (53 <= d)%Z -> (-1074 <= d + ex - 53)%Z -> (d + ex <= 1023)%Z ->
  inject_Z (Z.pos mx) * 2 ^ ex <= X ->
  X < (inject_Z (Z.pos mx) + 1) * 2 ^ ex ->
  exists m' e',
    binary_round_aux 53 1024 s (Z.pos mx) ex lx = S754_finite s m' e'
    /\ (2 ^ 52 <= Z.pos m' < 2 ^ 53)%Z
    /\ (ex + (d - 53) <= e' <= ex + (d - 53) + 1)%Z
    /\ Qabs (val m' e' - X) <= eps * X.
Proof.
  intros d Hd Hlo Hhi HX1 HX2.
  destruct (round_aux_normal s mx ex lx Hd Hlo Hhi) as (m' & e' & Hr & Hn & Hcase).
  fold d in Hcase. exists m', e'. split; [done|]. split; [done|].
  split; [lia|].
  set (k := (d - 53)%Z) in *.
  set (m1 := (Z.pos mx / 2 ^ k)%Z) in *.
  assert (Hk : (0 <= k)%Z) by lia.
  assert (Hpk : (0 < 2 ^ k)%Z) by (apply Z.pow_pos_nonneg; lia).
  assert (Hdiv1 : (m1 * 2 ^ k <= Z.pos mx)%Z).
  { unfold m1. pose proof (Z.mul_div_le (Z.pos mx) (2 ^ k) Hpk). lia. }
  assert (Hdiv2 : (Z.pos mx + 1 <= (m1 + 1) * 2 ^ k)%Z).
  { unfold m1. pose proof (Z.mul_succ_div_gt (Z.pos mx) (2 ^ k) Hpk). lia. }
  assert (Hm1 : (2 ^ 52 <= m1)%Z).
  { pose proof (digits2_pos_bounds mx) as Hdig. fold d in Hdig.
    apply (div_pow2_bounds (Z.pos mx) d Hd Hdig). }
  (* everything over the unit u = 2^(ex + k) *)
  set (w := 2 ^ ex) in *. set (u := 2 ^ (ex + k)).
  assert (Hw : 0 < w) by apply pow2_Q_pos.
  assert (Hu : 0 < u) by apply pow2_Q_pos.
  assert (Huw : u == w * inject_Z (2 ^ k)).
  { unfold u, w. by rewrite pow2_Q_add, pow2_Q_inject. }
  assert (Hlow : inject_Z m1 * u <= X).
  { apply inject_Z_le in Hdiv1. rewrite inject_Z_mult in Hdiv1.
    rewrite Huw. nra. }
  assert (Hupp : X <= (inject_Z m1 + 1) * u).
  { apply inject_Z_le in Hdiv2. rewrite inject_Z_mult, !inject_Z_plus in Hdiv2.
    change (inject_Z 1) with 1 in Hdiv2.
    rewrite Huw. nra. }
  assert (Hbig : inject_Z (2 ^ 52) * u <= inject_Z m1 * u).
  { apply inject_Z_le in Hm1. nra. }
  assert (HR : val m' e' == inject_Z m1 * u \/ val m' e' == (inject_Z m1 + 1) * u).
  { unfold val. destruct Hcase as [[-> [->| ->]] | [-> H2]].
    - by left.
    - right. rewrite inject_Z_plus. reflexivity.
    - right. fold u. rewrite pow2_Q_add. fold u. change (2 ^ 1) with 2.
      apply (f_equal inject_Z) in H2.
      rewrite inject_Z_mult, inject_Z_plus in H2.
      change (inject_Z 2) with 2 in H2. change (inject_Z 1) with 1 in H2.
      rewrite <- H2. ring. }
  unfold eps. change (inject_Z (2 ^ 52)) with (4503599627370496 # 1) in Hbig.
  change (1 # 2 ^ 52) with (1 # 4503599627370496).
  apply Qabs_Qle_condition.
  destruct HR as [HR|HR]; rewrite HR; split; nra.
Qed.

Lemma normal_digits (m : positive) : normal m -> Z.pos (digits2_pos m) = 53%Z.
Proof. intros H. apply digits2_pos_unique. exact H. Qed.

Lemma digits_range (m : positive) (lo hi : Z) :
  (0 <= lo)%Z -> (2 ^ lo <= Z.pos m < 2 ^ hi)%Z ->
  (lo + 1 <= Z.pos (digits2_pos m) <= hi)%Z.
Proof.
  intros Hlo [H1 H2]. pose proof (digits2_pos_bounds m) as [H3 H4].
  set (d := Z.pos (digits2_pos m)) in *.
  split.
  - destruct (Z.le_gt_cases (lo + 1) d) as [|Hc]; [done|].
    assert ((2 ^ d <= 2 ^ lo)%Z) by (apply Z.pow_le_mono_r; lia). lia.
  - destruct (Z.le_gt_cases d hi) as [|Hc]; [done|].
    assert ((2 ^ hi <= 2 ^ (d - 1))%Z) by (apply Z.pow_le_mono_r; lia). lia.
Qed.

Lemma val_pos (m : positive) (e : Z) : 0 < val m e.
Proof.
  unfold val. pose proof (pow2_Q_pos e).
  assert (0 < inject_Z (Z.pos m)) by (by apply (inject_Z_lt 0)).
  nra.
Qed.

(** Multiplication of two normal numbers, away from overflow and
    underflow. *)
Lemma mul_spec (s1 s2 : bool) (m1 m2 : positive) (e1 e2 : Z) :
  normal m1 -> normal m2 -> (-1126 <= e1 + e2 <= 917)%Z ->
  exists m e,
    mul (S754_finite s1 m1 e1) (S754_finite s2 m2 e2)
    = S754_finite (xorb s1 s2) m e
    /\ normal m
    /\ (e1 + e2 + 52 <= e <= e1 + e2 + 54)%Z
    /\ Qabs (val m e - val m1 e1 * val m2 e2) <= eps * (val m1 e1 * val m2 e2).
Proof.
  intros H1 H2 He. unfold mul, SFmul.
  assert (Hd : (105 <= Z.pos (digits2_pos (m1 * m2)) <= 106)%Z).
  { apply (digits_range (m1 * m2) 104 106); [lia|].
    unfold normal in *. rewrite Pos2Z.inj_mul.
    change (2 ^ 104)%Z with (2 ^ 52 * 2 ^ 52)%Z.
    change (2 ^ 106)%Z with (2 ^ 53 * 2 ^ 53)%Z. nia. }
  assert (HX : val m1 e1 * val m2 e2 == inject_Z (Z.pos (m1 * m2)) * 2 ^ (e1 + e2)).
  { unfold val. rewrite Pos2Z.inj_mul, inject_Z_mult, pow2_Q_add. ring. }
  destruct (round_aux_value (xorb s1 s2) (m1 * m2) (e1 + e2) loc_Exact
              (val m1 e1 * val m2 e2)) as (m & e & Hr & Hn & Hexp & Hval);
    try lia.
  - rewrite HX. apply Qle_refl.
  - rewrite HX. pose proof (pow2_Q_pos (e1 + e2)). nra.
  - exists m, e. split; [done|]. split; [done|]. split; [lia|done].
Qed.

Lemma div_eucl_pos (a b : Z) :
  (0 < b)%Z -> (0 <= a)%Z ->
  let '(q, r) := Z.div_eucl a b in
  (q * b <= a < (q + 1) * b)%Z /\ (0 <= q)%Z.
Proof.
  intros Hb Ha. pose proof (Z_div_mod a b ltac:(lia)) as H.
  destruct (Z.div_eucl a b) as [q r]. destruct H as [H1 H2].
  split; [nia|]. nia.
Qed.

(** Division of two normal numbers, away from overflow and underflow. *)
Lemma div_spec (s1 s2 : bool) (m1 m2 : positive) (e1 e2 : Z) :
  normal m1 -> normal m2 -> (-1021 <= e1 - e2 <= 1022)%Z ->
  exists m e,
    div (S754_finite s1 m1 e1) (S754_finite s2 m2 e2)
    = S754_finite (xorb s1 s2) m e
    /\ normal m
    /\ (e1 - e2 - 53 <= e <= e1 - e2 - 51)%Z
    /\ Qabs (val m e - val m1 e1 / val m2 e2) <= eps * (val m1 e1 / val m2 e2).
Proof.
  intros H1 H2 He. unfold div, SFdiv, SFdiv_core_binary. cbn [Zdigits2].
  rewrite (normal_digits m1 H1), (normal_digits m2 H2).
  replace (53 + e1 - (53 + e2))%Z with (e1 - e2)%Z by lia.
  rewrite fexp_normal by lia.
  rewrite Z.min_l by lia.
  replace (e1 - e2 - (e1 - e2 - 53))%Z with 53%Z by lia.
  rewrite Z.shiftl_mul_pow2 by lia.
  pose proof (div_eucl_pos (Z.pos m1 * 2 ^ 53) (Z.pos m2) ltac:(lia) ltac:(lia)) as Hq.
  destruct (Z.div_eucl (Z.pos m1 * 2 ^ 53) (Z.pos m2)) as [q r].
  destruct Hq as [[Hq1 Hq2] Hq0].
  assert (Hqr : (2 ^ 52 <= q < 2 ^ 54)%Z).
  { unfold normal in *. split.
    - change (2 ^ 53)%Z with (2 * 2 ^ 52)%Z in Hq2. nia.
    - change (2 ^ 54)%Z with (4 * 2 ^ 52)%Z. change (2 ^ 53)%Z with (2 * 2 ^ 52)%Z in *. nia. }
  destruct q as [|pq|pq]; try lia.
  assert (Hd : (53 <= Z.pos (digits2_pos pq) <= 54)%Z)
    by (apply (digits_range pq 52 54); lia).
  set (X := val m1 e1 / val m2 e2).
  assert (Hv2 : 0 < val m2 e2) by apply val_pos.
  assert (HXm : X * val m2 e2 == val m1 e1).
  { unfold X. field. intros Hz. rewrite Hz in Hv2. by apply Qlt_irrefl in Hv2. }
  assert (Hpow : 2 ^ e1 == 2 ^ (e1 - e2 - 53) * inject_Z (2 ^ 53) * 2 ^ e2).
  { rewrite pow2_Q_inject by lia. rewrite <- !pow2_Q_add. f_equiv. lia. }
  set (u := 2 ^ (e1 - e2 - 53)) in *.
  assert (Hu : 0 < u) by apply pow2_Q_pos.
  assert (Hw2 : 0 < 2 ^ e2) by apply pow2_Q_pos.
  assert (Hm2 : 0 < inject_Z (Z.pos m2)) by (by apply (inject_Z_lt 0)).
  apply inject_Z_le in Hq1. apply inject_Z_lt in Hq2.
  rewrite !inject_Z_mult in Hq1. rewrite !inject_Z_mult, inject_Z_plus in Hq2.
  change (inject_Z 1) with 1 in Hq2.
  unfold val in HXm. rewrite Hpow in HXm.
  set (a := inject_Z (Z.pos pq)) in *. set (b := inject_Z (Z.pos m2)) in *.
  set (c := inject_Z (Z.pos m1)) in *. set (p := inject_Z (2 ^ 53)) in *.
  set (w := 2 ^ e2) in *.
  assert (Hbw : 0 < b * w) by nra.
  destruct (round_aux_value (xorb s1 s2) pq (e1 - e2 - 53)
              (new_location (Z.pos m2) r) X)
    as (m & e & Hr & Hn & Hexp & Hval); try lia.
  - fold a u. assert (Huw : 0 < u * w) by nra.
    assert (Hle : (a * u) * (b * w) <= X * (b * w)) by nra.
    by apply Qmult_le_r with (b * w).
  - fold a u. assert (Huw : 0 < u * w) by nra.
    assert (Hlt : X * (b * w) < ((a + 1) * u) * (b * w)) by nra.
    by apply Qmult_lt_r with (b * w).
  - exists m, e. split; [done|]. split; [done|]. split; [lia|done].
Qed.

Lemma quotient_range (M P a b : Z) :
  (0 < b)%Z -> (b < a)%Z ->
  (2 ^ (a - 1) <= M < 2 ^ a)%Z -> (2 ^ (b - 1) <= P < 2 ^ b)%Z ->
  (2 ^ (a - b - 1) <= M / P < 2 ^ (a - b + 1))%Z.
Proof.
  intros Hb Hab [HM1 HM2] [HP1 HP2].
  assert (HP : (0 < P)%Z).
  { assert (0 < 2 ^ (b - 1))%Z by (apply Z.pow_pos_nonneg; lia). lia. }
  pose proof (Z.mul_div_le M P HP) as Hq1.
  pose proof (Z.mul_succ_div_gt M P HP) as Hq2.
  set (q := (M / P)%Z) in *.
  assert (Hq0 : (0 <= q)%Z).
  { apply Z.div_pos; [|done].
    assert (0 < 2 ^ (a - 1))%Z by (apply Z.pow_pos_nonneg; lia). lia. }
  assert (E1 : (2 ^ (a - 1) = 2 ^ (a - b - 1) * 2 ^ b)%Z).
  { rewrite <- Z.pow_add_r by lia. f_equal. lia. }
  assert (E2 : (2 ^ a = 2 ^ (a - b + 1) * 2 ^ (b - 1))%Z).
  { rewrite <- Z.pow_add_r by lia. f_equal. lia. }
  assert (0 < 2 ^ (a - b - 1))%Z by (apply Z.pow_pos_nonneg; lia).
  assert (0 < 2 ^ (a - b + 1))%Z by (apply Z.pow_pos_nonneg; lia).
  assert (0 < 2 ^ (b - 1))%Z by (apply Z.pow_pos_nonneg; lia).
  split; nia.
Qed.

(** The rounding of the fraction [n / d]. *)
Lemma of_ratio_spec (s : bool) (n d : positive) :
  let d1 := Z.pos (digits2_pos n) in
  let d2 := Z.pos (digits2_pos d) in
  (-1021 <= d1 - d2 <= 1022)%Z ->
  exists m e,
    of_ratio s (Z.pos n) (Z.pos d) = S754_finite s m e
    /\ normal m
    /\ (d1 - d2 - 53 <= e <= d1 - d2 - 51)%Z
    /\ Qabs (val m e - (Z.pos n # d)) <= eps * (Z.pos n # d).
Proof.
  intros d1 d2 Hd. unfold of_ratio. cbn [Z.eqb].
  unfold SFdiv_core_binary. cbn [Zdigits2]. fold d1 d2.
  replace (d1 + 0 - (d2 + 0))%Z with (d1 - d2)%Z by lia.
  rewrite fexp_normal by lia. change (0 - 0)%Z with 0%Z.
  pose proof (digits2_pos_bounds n) as Hn. fold d1 in Hn.
  pose proof (digits2_pos_bounds d) as Hdd. fold d2 in Hdd.
  assert (Hd2 : (0 < d2)%Z) by (unfold d2; lia).
  set (e' := Z.min (d1 - d2 - 53) 0).
  set (sh := (- e')%Z).
  assert (Hsh : (0 <= sh)%Z) by (unfold sh, e'; lia).
  replace (0 - e')%Z with sh by (unfold sh; lia).
  assert (Hm' : match sh with
                | Z.pos _ => Z.shiftl (Z.pos n) sh
                | 0%Z => Z.pos n
                | Z.neg _ => 0%Z
                end = (Z.pos n * 2 ^ sh)%Z).
  { destruct sh eqn:E; try lia. by rewrite Z.shiftl_mul_pow2. }
  rewrite Hm'. clear Hm'.
  set (M := (Z.pos n * 2 ^ sh)%Z).
  assert (Hpsh : (0 < 2 ^ sh)%Z) by (apply Z.pow_pos_nonneg; lia).
  assert (HM : (2 ^ (d1 + sh - 1) <= M < 2 ^ (d1 + sh))%Z).
  { unfold M. replace (d1 + sh - 1)%Z with ((d1 - 1) + sh)%Z by lia.
    rewrite !Z.pow_add_r by lia. nia. }
  assert (Hab : (d2 + 53 <= d1 + sh)%Z) by (unfold sh, e'; lia).
  pose proof (quotient_range M (Z.pos d) (d1 + sh) d2 Hd2 ltac:(lia) HM Hdd) as Hq.
  pose proof (div_eucl_pos M (Z.pos d) ltac:(lia) ltac:(lia)) as Hqr.
  unfold Z.div in Hq.
  destruct (Z.div_eucl M (Z.pos d)) as [q r]. cbn [fst] in Hq.
  destruct Hqr as [[Hq1 Hq2] Hq0].
  assert (Hq52 : (2 ^ 52 <= q)%Z).
  { assert (2 ^ 52 <= 2 ^ (d1 + sh - d2 - 1))%Z by (apply Z.pow_le_mono_r; lia). lia. }
  destruct q as [|pq|pq]; try lia.
  assert (Hdq : (d1 + sh - d2 <= Z.pos (digits2_pos pq) <= d1 + sh - d2 + 1)%Z).
  { pose proof (digits_range pq (d1 + sh - d2 - 1) (d1 + sh - d2 + 1) ltac:(lia) Hq).
    lia. }
  set (X := Z.pos n # d).
  assert (HX : X * inject_Z (Z.pos d) == inject_Z (Z.pos n)).
  { unfold X, Qeq, inject_Z. simpl. lia. }
  assert (Hpd : 0 < inject_Z (Z.pos d)) by (by apply (inject_Z_lt 0)).
  assert (Hpow : 2 ^ e' * inject_Z (2 ^ sh) == 1).
  { rewrite pow2_Q_inject by lia. rewrite <- pow2_Q_add.
    replace (e' + sh)%Z with 0%Z by (unfold sh; lia). reflexivity. }
  assert (Hu : 0 < 2 ^ e') by apply pow2_Q_pos.
  apply inject_Z_le in Hq1. apply inject_Z_lt in Hq2.
  unfold M in Hq1, Hq2.
  rewrite !inject_Z_mult in Hq1. rewrite !inject_Z_mult, inject_Z_plus in Hq2.
  change (inject_Z 1) with 1 in Hq2.
  set (a := inject_Z (Z.pos pq)) in *. set (b := inject_Z (Z.pos d)) in *.
  set (c := inject_Z (Z.pos n)) in *. set (p := inject_Z (2 ^ sh)) in *.
  set (u := 2 ^ e') in *.
  destruct (round_aux_value s pq e' (new_location (Z.pos d) r) X)
    as (m & e & Hr & Hnm & Hexp & Hval); try (unfold sh, e' in *; lia).
  - fold a u.
    assert (G1 : a * b * u <= c * p * u)
      by (apply Qmult_le_compat_r; [exact Hq1 | by apply Qlt_le_weak]).
    assert (G2 : c * p * u == c).
    { transitivity (c * (u * p)); [ring | rewrite Hpow; ring]. }
    assert (Hle : (a * u) * b <= X * b) by lra.
    by apply Qmult_le_r with b.
  - fold a u.
    assert (G1 : c * p * u < (a + 1) * b * u)
      by (apply Qmult_lt_compat_r; [exact Hu | exact Hq2]).
    assert (G2 : c * p * u == c).
    { transitivity (c * (u * p)); [ring | rewrite Hpow; ring]. }
    assert (Hlt : X * b < ((a + 1) * u) * b) by lra.
    by apply Qmult_lt_r with b.
  - exists m, e. split; [done|]. split; [done|].
    split; [unfold sh, e' in *; lia | done].
Qed.

End Rounding.

(** ** The round trip through the text of a market cap *)

Module RoundTrip.

Import Num Str JS Utils Claimed Notions EngineLaws Digits Rounding.

(** A number of the format above the subnormal range has a mantissa of
    full width. *)
Lemma valid_normal (s : bool) (m : positive) (e : Z) :
  is_number (S754_finite s m e) = true -> -1074 < e ->
  normal m /\ e <= 971.
Proof.
  unfold is_number, valid_binary, bounded, canonical_mantissa, fexp, emin, prec, emax.
  intros [H1 H2]%andb_true_iff He.
  apply Z.eqb_eq in H1. apply Z.leb_le in H2.
  pose proof (digits2_pos_bounds m) as Hd.
  assert (Z.pos (digits2_pos m) = 53) as Hd53 by lia.
  rewrite Hd53 in Hd. split; [exact Hd | lia].
Qed.

(** The text of a value below 10^6 has no scale word, and is read back
    as its thousandths [n]: the digits [M] that are written, with [L] of
    them after the point. *)
Lemma text_plain (n : Z) :
  0 <= n ->
  exists M L,
    marketCapTextToNum ("$" ++ locale_digits n) = of_decimal false M (- L)
    /\ 0 <= L <= 3
    /\ M * 10 ^ (3 - L) = n.
Proof.
  intros Hn.
  change ("$" ++ locale_digits n)%string
    with (plain_text (n / 1000) (fraction (n mod 1000))).
  destruct (fraction_spec (n mod 1000)) as (F1 & F2 & F3);
    [apply Z.mod_pos_bound; lia|].
  assert (Hq : 0 <= n / 1000) by (apply Z.div_pos; lia).
  destruct (group3_spec (n / 1000) Hq) as (d & E & D1 & D3 & D2 & G).
  pose proof (Z.div_mod n 1000 ltac:(lia)) as Hdm.
  pose proof (plain_text_grouped (n / 1000) _ Hq F1) as Hg.
  pose proof (plain_text_strip (n / 1000) _ F1) as Hs. rewrite E in Hs.
  set (fr := fraction (n mod 1000)) in *.
  exists (digits_val 0 (d ++ fr)), (len fr).
  split; [|split; [exact F2|]].
  - unfold marketCapTextToNum.
    rewrite !(includes_grouped (plain_text (n / 1000) fr)) by (exact Hg || reflexivity).
    cbn [orb]. rewrite Hs. by apply parseFloat_literal.
  - rewrite digits_val_app, (digits_val_acc fr), D2, Z.mul_0_l, Z.add_0_l.
    rewrite Z.mul_add_distr_r, F3, <- Z.mul_assoc, <- Z.pow_add_r by lia.
    replace (len fr + (3 - len fr))%Z with 3%Z by lia. lia.
Qed.

(** With at most three fraction digits the literal is a ratio over 1, 10,
    100 or 1000. *)
Lemma of_decimal_ratio (M : positive) (L : Z) :
  0 <= L <= 3 ->
  exists dd : positive,
    of_decimal false (Z.pos M) (- L) = of_ratio false (Z.pos M) (Z.pos dd)
    /\ Z.pos dd = 10 ^ L
    /\ 1 <= Z.pos (digits2_pos dd) <= 10.
Proof.
  intros HL. assert (L = 0 \/ L = 1 \/ L = 2 \/ L = 3) as [->|[->|[->| ->]]] by lia.
  - exists 1%positive. unfold of_decimal. cbn [Z.opp Z.leb Z.compare].
    change (10 ^ 0) with 1. rewrite Z.mul_1_r. repeat split; simpl; lia.
  - exists 10%positive. repeat split; simpl; lia.
  - exists 100%positive. repeat split; simpl; lia.
  - exists 1000%positive. repeat split; simpl; lia.
Qed.

(** *** The shortest digits of a number *)

Lemma digit_val_range (c : ascii) : is_digit c = true -> 0 <= digit_val c <= 9.
Proof.
  unfold is_digit, digit_val. intros [H1 H2]%andb_true_iff.
  apply Z.leb_le in H1, H2. lia.
Qed.

Lemma digits_val_lt (s : string) :
  all_digits s = true -> 0 <= digits_val 0 s < 10 ^ len s.
Proof.
  induction s as [|c s IH]; [done|].
  cbn [all_digits]. intros [Hc Hs]%andb_true_iff.
  cbn [digits_val]. rewrite digits_val_acc.
  pose proof (digit_val_range c Hc). specialize (IH Hs).
  unfold len in *. cbn [String.length]. rewrite Nat2Z.inj_succ, Z.pow_succ_r by lia.
  nia.
Qed.

(** A number of [k] digits is written with [k] digits. *)
Lemma of_Z_length (n k : Z) :
  1 <= k -> 10 ^ (k - 1) <= n < 10 ^ k -> len (Str.of_Z n) = k.
Proof.
  intros Hk [Hlo Hhi].
  assert (Hpos : 0 < 10 ^ (k - 1)) by (apply Z.pow_pos_nonneg; lia).
  destruct (of_Z_spec n ltac:(lia)) as (Hall & Hval & Hlen & Hle).
  specialize (Hle (Z.to_nat k) ltac:(lia)). rewrite Z2Nat.id in Hle by lia.
  specialize (Hle Hhi).
  pose proof (digits_val_lt _ Hall) as [_ Hlt]. rewrite (Hval 0) in Hlt.
  unfold len in *. set (l := String.length (Str.of_Z n)) in *.
  destruct (Z.le_gt_cases k (Z.of_nat l)) as [|Hc]; [lia|].
  assert (10 ^ Z.of_nat l <= 10 ^ (k - 1)) by (apply Z.pow_le_mono_r; lia).
  lia.
Qed.

Lemma decimal_exponent_up_spec (fuel : nat) :
  forall n d p,
    0 < d -> 0 <= p -> n < 10 ^ (p + Z.of_nat fuel) * d ->
    let r := decimal_exponent_up fuel n d p in
    p <= r /\ n < 10 ^ r * d /\ (r = p \/ 10 ^ (r - 1) * d <= n).
Proof.
  induction fuel as [|f IH]; intros n d p Hd Hp Hn r; subst r.
  - simpl. rewrite Z.add_0_r in Hn. lia.
  - cbn [decimal_exponent_up]. destruct (Z.leb_spec (10 ^ p * d) n) as [Hle|Hgt].
    + destruct (IH n d (p + 1) Hd ltac:(lia)) as (H1 & H2 & H3).
      { replace (p + 1 + Z.of_nat f) with (p + Z.of_nat (S f)) by lia. exact Hn. }
      split; [lia|]. split; [exact H2|]. right.
      destruct H3 as [->|H3]; [|exact H3].
      by replace (p + 1 - 1) with p by lia.
    + split; [lia|]. split; [lia|]. by left.
Qed.

Lemma decimal_exponent_down_spec (fuel : nat) :
  forall n d p,
    0 < n -> 1 <= p -> (1 <= fuel)%nat ->
    d <= n * 10 ^ (p + Z.of_nat fuel - 1) -> n * 10 ^ (p - 1) < d ->
    let r := decimal_exponent_down fuel n d p in
    r <= 0 /\ n * 10 ^ (- r) < d /\ d <= n * 10 ^ (1 - r).
Proof.
  induction fuel as [|f IH]; intros n d p Hn Hp Hf Hd Hlow r; subst r; [lia|].
  cbn [decimal_exponent_down]. destruct (Z.ltb_spec (n * 10 ^ p) d) as [Hlt|Hge].
  - assert (Hf1 : (1 <= f)%nat).
    { destruct f; [|lia]. replace (p + Z.of_nat 1 - 1) with p in Hd by lia. lia. }
    apply IH; try lia.
    + replace (p + 1 + Z.of_nat f - 1) with (p + Z.of_nat (S f) - 1) by lia. exact Hd.
    + by replace (p + 1 - 1) with p by lia.
  - split; [lia|].
    replace (- (- p + 1)) with (p - 1) by lia.
    replace (1 - (- p + 1)) with p by lia. lia.
Qed.

(** The decimal exponent of [num / den]. *)
Lemma decimal_exponent_spec (num den : Z) :
  0 < num -> 0 < den -> num < 10 ^ 400 * den -> den <= num * 10 ^ 400 ->
  let n0 := decimal_exponent num den in
  (0 < n0 /\ 10 ^ (n0 - 1) * den <= num < 10 ^ n0 * den)
  \/ (n0 <= 0 /\ num * 10 ^ (- n0) < den <= num * 10 ^ (1 - n0)).
Proof.
  intros Hn Hd Hup Hdown n0. subst n0. unfold decimal_exponent.
  destruct (Z.leb_spec den num) as [Hle|Hgt].
  - left. destruct (decimal_exponent_up_spec 400 num den 0 Hd ltac:(lia) Hup)
      as (H1 & H2 & H3).
    destruct H3 as [H3|H3]; [rewrite H3 in H2; simpl in H2; lia|].
    set (r := decimal_exponent_up 400 num den 0) in *.
    assert (r <> 0).
    { intros Hr. rewrite Hr in H2. simpl in H2. lia. }
    lia.
  - right. apply (decimal_exponent_down_spec 400 num den 1); lia.
Qed.

Lemma shortest_fuel_spec (m : positive) (e n0 num den : Z) :
  magnitude m e = (num, den) ->
  forall (fuel : nat) (k s n : Z),
    shortest_fuel fuel m e n0 k = (s, n) ->
    exists k', k <= k' <= k + Z.of_nat fuel
      /\ let p := n0 - k' in
         let lo := lower_candidate num den p in
         (s = lo /\ n = n0 /\ (reads_back m e lo p = true \/ k' = k + Z.of_nat fuel))
         \/ (reads_back m e (lo + 1) p = true
             /\ ((lo + 1 <> 10 ^ k' /\ s = lo + 1 /\ n = n0)
                 \/ (lo + 1 = 10 ^ k' /\ s = 10 ^ (k' - 1) /\ n = n0 + 1))).
Proof.
  intros Hmag. induction fuel as [|f IH]; intros k s n H.
  - unfold shortest_fuel in H. rewrite Hmag in H. injection H as <- <-.
    exists k. split; [lia|]. left. split; [done|]. split; [done|]. right. lia.
  - cbn [shortest_fuel] in H. rewrite Hmag in H.
    fold (lower_candidate num den (n0 - k)) in H.
    set (lo := lower_candidate num den (n0 - k)) in *.
    destruct (reads_back m e lo (n0 - k)) eqn:Hlo;
      destruct (reads_back m e (lo + 1) (n0 - k)) eqn:Hhi; cbn [orb andb negb] in H.
    + match type of H with (if ?b then _ else _) = _ => destruct b end.
      * exists k. split; [lia|]. right. split; [exact Hhi|].
        destruct (Z.eqb_spec (lo + 1) (10 ^ k)) as [Heq|Hne]; injection H as <- <-; auto.
      * injection H as <- <-. exists k. split; [lia|]. left. auto.
    + injection H as <- <-. exists k. split; [lia|]. left. auto.
    + exists k. split; [lia|]. right. split; [exact Hhi|].
      destruct (Z.eqb_spec (lo + 1) (10 ^ k)) as [Heq|Hne]; injection H as <- <-; auto.
    + destruct (IH (k + 1) s n H) as (k' & Hk' & Hcase).
      exists k'. split; [lia|].
      replace (k + Z.of_nat (S f)) with (k + 1 + Z.of_nat f) by lia. exact Hcase.
Qed.

Local Open Scope Q_scope.

(** *** Values *)

Lemma magnitude_val (m : positive) (e : Z) :
  let '(n, d) := magnitude m e in
  (0 < n)%Z /\ (0 < d)%Z /\ inject_Z n == val m e * inject_Z d.
Proof.
  unfold magnitude, val. destruct (Z.leb_spec 0 e) as [He|He].
  - split; [|split; [lia|]].
    + apply Z.mul_pos_pos; [lia | apply Z.pow_pos_nonneg; lia].
    + rewrite inject_Z_mult, pow2_Q_inject by lia. change (inject_Z 1) with 1. ring.
  - split; [lia|]. split; [apply Z.pow_pos_nonneg; lia|].
    rewrite pow2_Q_inject by lia. rewrite <- Qmult_assoc, <- pow2_Q_add.
    replace (e + - e)%Z with 0%Z by lia. change (2 ^ 0) with 1. ring.
Qed.

Lemma toQ_finite (m : positive) (e : Z) :
  exists q, toQ (S754_finite false m e) = Some q /\ q == val m e.
Proof.
  unfold toQ. pose proof (magnitude_val m e) as H.
  destruct (magnitude m e) as [n d]. destruct H as (Hn & Hd & H).
  eexists. split; [reflexivity|].
  rewrite Qmake_Qdiv, Z2Pos.id by lia. rewrite H.
  field. intros Hz. apply inject_Z_lt in Hd. rewrite Hz in Hd.
  by apply Qlt_irrefl in Hd.
Qed.

Lemma within_finite (b : Q) (mx mv : positive) (ex ev : Z) :
  Qabs (val mx ex - val mv ev) <= b * val mv ev ->
  within b (S754_finite false mx ex) (S754_finite false mv ev).
Proof.
  intros H. unfold within.
  destruct (toQ_finite mx ex) as (qx & -> & Hx).
  destruct (toQ_finite mv ev) as (qv & -> & Hv).
  rewrite Hx, Hv. rewrite (Qabs_pos (val mv ev)); [done|].
  apply Qlt_le_weak, val_pos.
Qed.

(** The digits kept by a rounding to [f] decimals: the nearest multiple
    of [10^-f]. *)
Lemma scaled_value (f : Z) (m : positive) (e : Z) :
  (0 <= f)%Z ->
  (0 <= scaled f m e)%Z
  /\ Qabs (inject_Z (scaled f m e) - inject_Z (10 ^ f) * val m e) <= 1 # 2.
Proof.
  intros Hf. unfold scaled, round_half_up. pose proof (magnitude_val m e) as H.
  destruct (magnitude m e) as [n d]. destruct H as (Hn & Hd & H).
  assert (Hp : (0 < 10 ^ f)%Z) by (apply Z.pow_pos_nonneg; lia).
  set (p := (10 ^ f)%Z) in *.
  set (q := ((2 * (p * n) + d) / (2 * d))%Z).
  assert (H1 : (2 * d * q <= 2 * (p * n) + d)%Z).
  { unfold q. apply Z.mul_div_le. lia. }
  assert (H2 : (2 * (p * n) + d < 2 * d * (q + 1))%Z).
  { unfold q. pose proof (Z.mul_succ_div_gt (2 * (p * n) + d) (2 * d)). lia. }
  split; [unfold q; apply Z.div_pos; lia|].
  apply inject_Z_le in H1. apply inject_Z_lt in H2. apply inject_Z_lt in Hd.
  repeat rewrite ?inject_Z_plus, ?inject_Z_mult in H1.
  repeat rewrite ?inject_Z_plus, ?inject_Z_mult in H2.
  change (inject_Z 2) with 2 in *.
  change (inject_Z 1) with 1 in *. change (inject_Z 0) with 0 in *.
  rewrite H in H1, H2.
  set (N := inject_Z q) in *. set (D := inject_Z d) in *. set (V := val m e) in *.
  set (T := inject_Z p) in *.
  assert (E1 : (2 * N) * D == 2 * D * N) by ring.
  assert (E2 : (2 * T * V + 1) * D == 2 * (T * (V * D)) + D) by ring.
  assert (E3 : (2 * N + 2) * D == 2 * D * (N + 1)) by ring.
  assert (G1 : (2 * N) * D <= (2 * T * V + 1) * D) by (rewrite E1, E2; exact H1).
  assert (G2 : (2 * T * V + 1) * D < (2 * N + 2) * D) by (rewrite E2, E3; exact H2).
  apply Qmult_le_r in G1; [|done]. apply Qmult_lt_r in G2; [|done].
  apply Qabs_Qle_condition. split; lra.
Qed.

(** The two digits kept by [toFixed]: the nearest hundredth. *)
Lemma scaled_spec (m : positive) (e : Z) :
  (0 <= scaled 2 m e)%Z
  /\ Qabs (inject_Z (scaled 2 m e) - 100 * val m e) <= 1 # 2.
Proof. exact (scaled_value 2 m e ltac:(lia)). Qed.

(** The budget of errors along the round trip, in units of the scale:
    [X] the exact quotient, [D] the computed one, [N] its hundredths,
    [P] the number read back, [R] the product. *)
Lemma error_budget (X D N P R : Q) :
  1 <= X ->
  Qabs (D - X) <= eps * X ->
  Qabs (N - 100 * D) <= 1 # 2 ->
  Qabs (P - N * (1 # 100)) <= eps * (N * (1 # 100)) ->
  Qabs (R - P) <= eps * P ->
  Qabs (R - X) <= (1 # 100) * X.
Proof.
  unfold eps. change (1 # 2 ^ 52) with (1 # 4503599627370496).
  rewrite !Qabs_Qle_condition. intros HX [D1 D2] [N1 N2] [P1 P2] [R1 R2].
  split; lra.
Qed.

Lemma Qabs_scale (a b c s : Q) :
  0 < s -> Qabs (a - b) <= c -> Qabs (a * s - b * s) <= c * s.
Proof.
  intros Hs H.
  assert (E : a * s - b * s == (a - b) * s) by ring.
  rewrite E, Qabs_Qmult, (Qabs_pos s) by (by apply Qlt_le_weak).
  apply Qmult_le_compat_r; [done | by apply Qlt_le_weak].
Qed.

Lemma val_upper (m : positive) (e k : Z) :
  normal m -> (e <= k)%Z -> val m e < inject_Z (2 ^ 53) * 2 ^ k.
Proof.
  intros [_ Hm] He. unfold val.
  apply inject_Z_lt in Hm.
  pose proof (Qpower_le_compat_l 2 e k He ltac:(done)) as Hp.
  pose proof (pow2_Q_pos e) as He0.
  apply Qlt_le_trans with (inject_Z (2 ^ 53) * 2 ^ e).
  - by apply Qmult_lt_compat_r.
  - rewrite !(Qmult_comm (inject_Z (2 ^ 53))).
    apply Qmult_le_compat_r; [done|]. done.
Qed.

(** One tier of the round trip: a value at least the scale [S] is
    divided by it, written with two decimals, read back and multiplied by
    the scale. *)
Lemma tier_round_trip (m mS : positive) (e eS : Z) :
  normal m -> normal mS -> (-40 <= eS <= 0)%Z -> (eS <= e <= 971)%Z ->
  val mS eS <= val m e ->
  exists m' e',
    div (S754_finite false m e) (S754_finite false mS eS) = S754_finite false m' e'
    /\ (e - eS - 53 <= e' <= e - eS - 51)%Z
    /\ ((e' <= 17)%Z ->
        exists mr er,
          mul (of_decimal false (scaled 2 m' e') (-2)) (S754_finite false mS eS)
          = S754_finite false mr er
          /\ Qabs (val mr er - val m e) <= (1 # 100) * val m e).
Proof.
  intros Hm HmS HeS He Hge.
  destruct (div_spec false false m mS e eS Hm HmS ltac:(lia))
    as (m' & e' & Hdiv & Hm' & He' & Herr).
  exists m', e'. split; [exact Hdiv|]. split; [exact He'|]. intros Hsmall.
  set (V := val m e) in *. set (S := val mS eS) in *. set (D := val m' e') in *.
  assert (HS : 0 < S) by apply val_pos.
  assert (HX : 1 <= V / S) by (apply Qle_shift_div_l; [done | by rewrite Qmult_1_l]).
  set (X := V / S) in *.
  destruct (scaled_spec m' e') as (Hn0 & Hn). fold D in Hn.
  set (n := scaled 2 m' e') in *. set (N := inject_Z n) in *.
  (* the hundredths are positive and below 2^77 *)
  assert (HD : D < inject_Z (2 ^ 53) * 2 ^ 17) by (by apply val_upper).
  change (inject_Z (2 ^ 53) * 2 ^ 17) with (1180591620717411303424 # 1) in HD.
  assert (HNpos : 0 < N).
  { apply Qabs_Qle_condition in Herr as [D1 _]. apply Qabs_Qle_condition in Hn as [N1 _].
    unfold eps in D1. change (1 # 2 ^ 52) with (1 # 4503599627370496) in D1. lra. }
  assert (HNup : N < inject_Z (2 ^ 77)).
  { apply Qabs_Qle_condition in Hn as [_ N2].
    change (inject_Z (2 ^ 77)) with (151115727451828646838272 # 1). lra. }
  unfold N in HNpos, HNup. change 0 with (inject_Z 0) in HNpos.
  rewrite <- Zlt_Qlt in HNpos, HNup.
  destruct n as [|np|np] eqn:Hnp; [lia| |lia].
  (* reading the digits back *)
  change (of_decimal false (Z.pos np) (-2)) with (of_ratio false (Z.pos np) (Z.pos 100)).
  pose proof (digits_range np 0 77 ltac:(lia) ltac:(lia)) as Hdig.
  destruct (of_ratio_spec false np 100) as (mp & ep & Hp & Hmp & Hep & Hperr).
  { change (Z.pos (digits2_pos 100)) with 7%Z. lia. }
  change (Z.pos (digits2_pos 100)) with 7%Z in Hep.
  rewrite Hp.
  destruct (mul_spec false false mp mS ep eS Hmp HmS ltac:(lia))
    as (mr & er & Hmul & _ & _ & Hrerr).
  exists mr, er. split; [exact Hmul|].
  fold S in Hrerr. set (P := val mp ep) in *. set (R := val mr er) in *.
  assert (HP : Qabs (P - N * (1 # 100)) <= eps * (N * (1 # 100))).
  { assert (E : Z.pos np # 100 == N * (1 # 100)).
    { unfold N. rewrite (Qmake_Qdiv (Z.pos np) 100). reflexivity. }
    by rewrite <- E. }
  assert (HSi : 0 < / S) by (by apply Qinv_lt_0_compat).
  assert (HSne : ~ S == 0) by (intros Hz; rewrite Hz in HS; by apply Qlt_irrefl in HS).
  assert (HR : Qabs (R * / S - P) <= eps * P).
  { pose proof (Qabs_scale R (P * S) (eps * (P * S)) (/ S) HSi Hrerr) as H.
    assert (E1 : P * S * / S == P) by (by field).
    assert (E2 : eps * (P * S) * / S == eps * P) by (by field).
    by rewrite E1, E2 in H. }
  pose proof (error_budget X D N P (R * / S) HX Herr Hn HP HR) as Hfin.
  apply (Qabs_scale _ _ _ S HS) in Hfin.
  assert (E1 : R * / S * S == R) by (by field).
  assert (E2 : X * S == V) by (unfold X; by field).
  assert (E3 : (1 # 100) * X * S == (1 # 100) * V) by (unfold X; by field).
  by rewrite E1, E2, E3 in Hfin.
Qed.

(** The order of two numbers of the format is the order of their
    values. *)
Lemma val_le_compare (ma m : positive) (ea e : Z) :
  normal ma -> normal m ->
  (ea < e)%Z \/ (ea = e /\ (ma <= m)%positive) ->
  val ma ea <= val m e.
Proof.
  intros [_ Ha] [Hm _] [Hlt | [-> Hle]]; unfold val.
  - pose proof (Qpower_le_compat_l 2 (ea + 1) e ltac:(lia) ltac:(done)) as Hp.
    rewrite pow2_Q_add in Hp. change (2 ^ 1) with 2 in Hp.
    apply inject_Z_lt in Ha. apply inject_Z_le in Hm.
    change (inject_Z (2 ^ 53)) with (9007199254740992 # 1) in Ha.
    change (inject_Z (2 ^ 52)) with (4503599627370496 # 1) in Hm.
    pose proof (pow2_Q_pos ea). pose proof (pow2_Q_pos e).
    set (A := inject_Z (Z.pos ma)) in *. set (M := inject_Z (Z.pos m)) in *.
    set (a := 2 ^ ea) in *. set (b := 2 ^ e) in *.
    apply Qle_trans with ((9007199254740992 # 1) * a).
    + apply Qmult_le_compat_r; [by apply Qlt_le_weak | by apply Qlt_le_weak].
    + apply Qle_trans with ((4503599627370496 # 1) * b); [lra|].
      apply Qmult_le_compat_r; [done | by apply Qlt_le_weak].
  - apply Qmult_le_compat_r; [|apply Qlt_le_weak, pow2_Q_pos].
    apply inject_Z_le. lia.
Qed.

(** *** The threshold of [toFixed] *)

Lemma ten_21_eq : Num.of_Z (10 ^ 21) = S754_finite false 7629394531250000 17.
Proof. vm_compute. reflexivity. Qed.

(** Below 10^21 [toFixed] writes digits. *)
Lemma toFixed_digits (m : positive) (e : Z) :
  geb (S754_finite false m e) (Num.of_Z (10 ^ 21)) = false ->
  toFixed (S754_finite false m e) 2 = fixed_digits 2 (scaled 2 m e).
Proof. intros H. unfold toFixed. by rewrite H. Qed.

Lemma below_ten_21 (m : positive) (e : Z) :
  geb (S754_finite false m e) (Num.of_Z (10 ^ 21)) = false -> (e <= 17)%Z.
Proof.
  intros H. destruct (Z.le_gt_cases e 17) as [|Hgt]; [done|].
  assert (geb (S754_finite false m e) (Num.of_Z (10 ^ 21)) = true) as Ht.
  { rewrite ten_21_eq. apply geb_finite. right. exists m, e. split; [done|]. left. lia. }
  congruence.
Qed.

Lemma far_below_ten_21 (m : positive) (e : Z) :
  (e < 17)%Z -> geb (S754_finite false m e) (Num.of_Z (10 ^ 21)) = false.
Proof.
  intros H. apply not_true_false. rewrite ten_21_eq, geb_finite.
  intros [[=] | (m0 & e0 & [= <- <-] & Hc)]. lia.
Qed.

(** The scale word of a written value selects its multiplier. *)
Lemma text_trillion (n : Z) :
  (0 <= n)%Z ->
  marketCapTextToNum ("$" ++ fixed_digits 2 n ++ " trillion")
  = mul (of_decimal false n (-2)) trillion.
Proof.
  intros Hn. pose proof (numeric_fixed 2 n Hn) as Hd.
  unfold marketCapTextToNum.
  rewrite strip_formatted, !includes_formatted, parseFloat_fixed
    by (done || lia || (split; [reflexivity | discriminate])).
  reflexivity.
Qed.

Lemma text_billion (n : Z) :
  (0 <= n)%Z ->
  marketCapTextToNum ("$" ++ fixed_digits 2 n ++ " billion")
  = mul (of_decimal false n (-2)) billion.
Proof.
  intros Hn. pose proof (numeric_fixed 2 n Hn) as Hd.
  unfold marketCapTextToNum.
  rewrite strip_formatted, !includes_formatted, parseFloat_fixed
    by (done || lia || (split; [reflexivity | discriminate])).
  reflexivity.
Qed.

Lemma text_million (n : Z) :
  (0 <= n)%Z ->
  marketCapTextToNum ("$" ++ fixed_digits 2 n ++ " million")
  = mul (of_decimal false n (-2)) million.
Proof.
  intros Hn. pose proof (numeric_fixed 2 n Hn) as Hd.
  unfold marketCapTextToNum.
  rewrite strip_formatted, !includes_formatted, parseFloat_fixed
    by (done || lia || (split; [reflexivity | discriminate])).
  reflexivity.
Qed.

Section Tier.

Variables (mS : positive) (eS : Z) (word : string).
Hypothesis scale_normal : normal mS.
Hypothesis scale_exponent : (-40 <= eS <= 0)%Z.
Hypothesis scale_text : forall n, (0 <= n)%Z ->
  marketCapTextToNum ("$" ++ fixed_digits 2 n ++ word)
  = mul (of_decimal false n (-2)) (S754_finite false mS eS).

Lemma tier_within (m : positive) (e : Z) :
  normal m -> (e <= 971)%Z ->
  (eS < e)%Z \/ (eS = e /\ (mS <= m)%positive) ->
  geb (div (S754_finite false m e) (S754_finite false mS eS)) (Num.of_Z (10 ^ 21))
  = false ->
  within (1 # 100)
    (marketCapTextToNum
       ("$" ++ toFixed (div (S754_finite false m e) (S754_finite false mS eS)) 2
        ++ word))
    (S754_finite false m e).
Proof.
  intros Hm He Hge Hsmall.
  pose proof (val_le_compare mS m eS e scale_normal Hm Hge) as Hval.
  destruct (tier_round_trip m mS e eS Hm scale_normal scale_exponent ltac:(lia) Hval)
    as (m' & e' & Hdiv & _ & Hrest).
  rewrite Hdiv in *.
  destruct (Hrest (below_ten_21 m' e' Hsmall)) as (mr & er & Hmul & Herr).
  rewrite toFixed_digits by done.
  rewrite scale_text by apply scaled_spec.
  rewrite Hmul. by apply within_finite.
Qed.

End Tier.

Lemma not_geb_finite (m ma : positive) (e ea : Z) :
  geb (S754_finite false m e) (S754_finite false ma ea) = false -> (e <= ea)%Z.
Proof.
  intros H. destruct (Z.le_gt_cases e ea) as [|Hgt]; [done|].
  assert (geb (S754_finite false m e) (S754_finite false ma ea) = true) as Ht.
  { apply geb_finite. right. exists m, e. split; [done|]. left. lia. }
  congruence.
Qed.

Lemma tier_below_ten_21 (m mS : positive) (e eS : Z) :
  normal m -> normal mS -> (-40 <= eS <= 0)%Z -> (eS <= e <= eS + 60)%Z ->
  geb (div (S754_finite false m e) (S754_finite false mS eS)) (Num.of_Z (10 ^ 21))
  = false.
Proof.
  intros Hm HmS HeS He.
  destruct (div_spec false false m mS e eS Hm HmS ltac:(lia))
    as (m' & e' & -> & _ & He' & _).
  apply far_below_ten_21. lia.
Qed.

(** *** Powers of ten *)

Lemma ten_pos (z : Z) : 0 < 10 ^ z.
Proof. apply Qpower_0_lt. reflexivity. Qed.

Lemma ten_add (a b : Z) : 10 ^ (a + b) == 10 ^ a * 10 ^ b.
Proof. apply Qpower_plus. discriminate. Qed.

Lemma ten_inject (k : Z) : (0 <= k)%Z -> inject_Z (10 ^ k) == 10 ^ k.
Proof. intros H. by rewrite Zpower_Qpower. Qed.

Lemma ten_cancel (p : Z) : 10 ^ (- p) * 10 ^ p == 1.
Proof. rewrite <- ten_add. by replace (- p + p)%Z with 0%Z by lia. Qed.

(** The candidate below: the largest multiple of [10^p] that is at most
    [num / den]. *)
Lemma lower_candidate_spec (num den p : Z) :
  (0 < num)%Z -> (0 < den)%Z ->
  let lo := lower_candidate num den p in
  (0 <= lo)%Z
  /\ inject_Z lo * 10 ^ p * inject_Z den <= inject_Z num
  /\ inject_Z num < (inject_Z lo + 1) * 10 ^ p * inject_Z den.
Proof.
  intros Hn Hd lo. subst lo. unfold lower_candidate.
  pose proof (ten_pos p) as HT. pose proof (ten_cancel p) as HTU.
  pose proof (ten_pos (- p)) as HU.
  pose proof (inject_Z_lt 0 den Hd) as HD. change (inject_Z 0) with 0 in HD.
  destruct (Z.leb_spec 0 p) as [Hp|Hp].
  - assert (Hq : (0 < den * 10 ^ p)%Z).
    { apply Z.mul_pos_pos; [done | apply Z.pow_pos_nonneg; lia]. }
    pose proof (Z.mul_div_le num _ Hq) as H1.
    pose proof (Z.mul_succ_div_gt num _ Hq) as H2.
    set (lo := (num / (den * 10 ^ p))%Z) in *.
    split; [apply Z.div_pos; lia|].
    apply inject_Z_le in H1. apply inject_Z_lt in H2.
    rewrite !inject_Z_mult in H1, H2. unfold Z.succ in H2.
    rewrite inject_Z_plus in H2. change (inject_Z 1) with 1 in H2.
    rewrite ten_inject in H1, H2 by done.
    split; lra.
  - pose proof (Z.mul_div_le (num * 10 ^ (- p)) den Hd) as H1.
    pose proof (Z.mul_succ_div_gt (num * 10 ^ (- p)) den Hd) as H2.
    set (lo := (num * 10 ^ (- p) / den)%Z) in *.
    split.
    { apply Z.div_pos; [|done]. apply Z.mul_nonneg_nonneg; [lia|].
      apply Z.pow_nonneg. lia. }
    apply inject_Z_le in H1. apply inject_Z_lt in H2.
    rewrite !inject_Z_mult in H1, H2. unfold Z.succ in H2.
    rewrite inject_Z_plus in H2. change (inject_Z 1) with 1 in H2.
    rewrite ten_inject in H1, H2 by lia.
    set (L := inject_Z lo) in *. set (D := inject_Z den) in *.
    set (N := inject_Z num) in *. set (T := 10 ^ p) in *. set (U := 10 ^ (- p)) in *.
    assert (E : N * U * T == N) by (transitivity (N * (U * T)); [ring | rewrite HTU; ring]).
    split.
    + assert (G : D * L * T <= N * U * T) by (apply Qmult_le_compat_r; lra).
      lra.
    + assert (G : N * U * T < D * (L + 1) * T) by (apply Qmult_lt_compat_r; lra).
      lra.
Qed.

(** The decimal exponent [n0] of [num / den]: it lies between
    [10^(n0 - 1)] and [10^n0]. *)
Lemma decimal_exponent_value (num den : Z) :
  (0 < num)%Z -> (0 < den)%Z ->
  (num < 10 ^ 400 * den)%Z -> (den <= num * 10 ^ 400)%Z ->
  let n0 := decimal_exponent num den in
  10 ^ (n0 - 1) * inject_Z den <= inject_Z num
  /\ inject_Z num < 10 ^ n0 * inject_Z den.
Proof.
  intros Hn Hd Hup Hdown n0.
  destruct (decimal_exponent_spec num den Hn Hd Hup Hdown) as [[H0 [H1 H2]]|[H0 [H1 H2]]];
    fold n0 in H0, H1, H2.
  - apply inject_Z_le in H1. apply inject_Z_lt in H2.
    rewrite inject_Z_mult in H1, H2.
    rewrite ten_inject in H1, H2 by lia. by split.
  - apply inject_Z_lt in H1. apply inject_Z_le in H2.
    rewrite inject_Z_mult in H1, H2.
    rewrite ten_inject in H1, H2 by lia.
    pose proof (ten_cancel n0) as E1. pose proof (ten_cancel (n0 - 1)) as E2.
    replace (- (n0 - 1))%Z with (1 - n0)%Z in E2 by lia.
    pose proof (ten_pos n0) as P1. pose proof (ten_pos (n0 - 1)) as P2.
    set (N := inject_Z num) in *. set (D := inject_Z den) in *.
    set (A := 10 ^ n0) in *. set (B := 10 ^ (n0 - 1)) in *.
    set (A' := 10 ^ (- n0)) in *. set (B' := 10 ^ (1 - n0)) in *.
    split.
    + assert (G : D * B <= N * B' * B) by (apply Qmult_le_compat_r; lra).
      assert (E : N * B' * B == N) by (transitivity (N * (B' * B)); [ring | rewrite E2; ring]).
      lra.
    + assert (G : N * A' * A < D * A) by (apply Qmult_lt_compat_r; lra).
      assert (E : N * A' * A == N) by (transitivity (N * (A' * A)); [ring | rewrite E1; ring]).
      lra.
Qed.

Lemma SFeqb_finite (m1 m2 : positive) (e1 e2 : Z) :
  SFeqb (S754_finite false m1 e1) (S754_finite false m2 e2) = true ->
  m1 = m2 /\ e1 = e2.
Proof.
  unfold SFeqb, SFcompare.
  destruct (Z.compare_spec e1 e2) as [->|?|?]; try discriminate.
  change (Pos.compare_cont Eq m1 m2) with (Pos.compare m1 m2).
  destruct (Pos.compare_spec m1 m2) as [->|?|?]; try discriminate. done.
Qed.

(** A decimal [c * 10^p] that reads back as a number is within one
    rounding of it. *)
Lemma reads_back_error (m : positive) (e c p : Z) :
  (0 < c < 2 ^ 64)%Z -> (-19 <= p <= 6)%Z ->
  reads_back m e c p = true ->
  Qabs (val m e - inject_Z c * 10 ^ p) <= eps * (inject_Z c * 10 ^ p).
Proof.
  intros Hc Hp H. unfold reads_back, of_decimal in H.
  destruct (Z.leb_spec 0 p) as [Hp0|Hp0].
  - assert (Hpow : (1 <= 10 ^ p <= 10 ^ 6)%Z).
    { split; [|apply Z.pow_le_mono_r; lia].
      pose proof (Z.pow_pos_nonneg 10 p). lia. }
    assert (Hn : (0 < c * 10 ^ p < 2 ^ 84)%Z).
    { change (2 ^ 84)%Z with (2 ^ 64 * 2 ^ 20)%Z.
      change (10 ^ 6)%Z with 1000000%Z in Hpow. change (2 ^ 20)%Z with 1048576%Z.
      nia. }
    destruct (c * 10 ^ p)%Z as [|n|n] eqn:En; try lia.
    pose proof (digits_range n 0 84 ltac:(lia) ltac:(lia)) as Hdig.
    destruct (of_ratio_spec false n 1) as (m' & e' & Hr & _ & _ & Herr).
    { change (Z.pos (digits2_pos 1)) with 1%Z. lia. }
    rewrite Hr in H. apply SFeqb_finite in H as [-> ->].
    assert (E : Z.pos n # 1 == inject_Z c * 10 ^ p).
    { change (Z.pos n # 1) with (inject_Z (Z.pos n)).
      by rewrite <- En, inject_Z_mult, ten_inject. }
    by rewrite E in Herr.
  - assert (Hpow : (1 <= 10 ^ (- p) <= 10 ^ 19)%Z).
    { split; [|apply Z.pow_le_mono_r; lia].
      pose proof (Z.pow_pos_nonneg 10 (- p)). lia. }
    destruct c as [|n|n]; try lia.
    destruct (10 ^ (- p))%Z as [|d|d] eqn:Ed; try lia.
    pose proof (digits_range n 0 64 ltac:(lia) ltac:(lia)) as Hdig.
    assert (Hd64 : (Z.pos d < 2 ^ 64)%Z).
    { assert (10 ^ 19 < 2 ^ 64)%Z by (vm_compute; reflexivity). lia. }
    pose proof (digits_range d 0 64 ltac:(lia) ltac:(lia)) as Hdigd.
    destruct (of_ratio_spec false n d) as (m' & e' & Hr & _ & _ & Herr); [lia|].
    rewrite Hr in H. apply SFeqb_finite in H as [-> ->].
    assert (E : Z.pos n # d == inject_Z (Z.pos n) * 10 ^ p).
    { rewrite (Qmake_Qdiv (Z.pos n) d), <- Ed, ten_inject by lia.
      assert (Ht : 10 ^ p == / 10 ^ (- p)).
      { rewrite <- Qpower_opp. by rewrite Z.opp_involutive. }
      rewrite Ht. reflexivity. }
    by rewrite E in Herr.
Qed.

(** The thousandths that [toLocaleString] writes for the decimal
    [s * 10^(n - k)]: the nearest integer to a thousand times it, the
    larger one when two are as near. *)
Lemma thousandths_spec (s n k : Z) :
  (0 < s)%Z -> len (Str.of_Z s) = k ->
  (0 <= thousandths s n)%Z
  /\ inject_Z (thousandths s n) - 1000 * (inject_Z s * 10 ^ (n - k)) <= 1 # 2
  /\ 1000 * (inject_Z s * 10 ^ (n - k)) - inject_Z (thousandths s n) < 1 # 2.
Proof.
  intros Hs Hk. unfold thousandths. rewrite Hk.
  set (pp := (n - k + 3)%Z).
  assert (E : 1000 * (inject_Z s * 10 ^ (n - k)) == inject_Z s * 10 ^ pp).
  { unfold pp. rewrite ten_add. change (10 ^ 3) with 1000. ring. }
  rewrite E. clear E.
  destruct (Z.leb_spec 0 pp) as [Hp|Hp].
  - split.
    { apply Z.mul_nonneg_nonneg; [lia | apply Z.pow_nonneg; lia]. }
    rewrite inject_Z_mult, ten_inject by done.
    assert (E0 : inject_Z s * 10 ^ pp - inject_Z s * 10 ^ pp == 0) by ring.
    rewrite E0. done.
  - unfold round_half_up.
    assert (HD : (0 < 10 ^ (- pp))%Z) by (apply Z.pow_pos_nonneg; lia).
    set (d := (10 ^ (- pp))%Z) in *.
    set (q := ((2 * s + d) / (2 * d))%Z).
    assert (H1 : (2 * d * q <= 2 * s + d)%Z) by (apply Z.mul_div_le; lia).
    assert (H2 : (2 * s + d < 2 * d * (q + 1))%Z).
    { pose proof (Z.mul_succ_div_gt (2 * s + d) (2 * d) ltac:(lia)). unfold q. lia. }
    split; [apply Z.div_pos; lia|].
    apply inject_Z_le in H1. apply inject_Z_lt in H2. apply inject_Z_lt in HD.
    repeat rewrite ?inject_Z_plus, ?inject_Z_mult in H1.
    repeat rewrite ?inject_Z_plus, ?inject_Z_mult in H2.
    change (inject_Z 2) with 2 in *. change (inject_Z 1) with 1 in *.
    change (inject_Z 0) with 0 in *.
    assert (ER : inject_Z s * 10 ^ pp * inject_Z d == inject_Z s).
    { unfold d. rewrite ten_inject by lia.
      transitivity (inject_Z s * (10 ^ (- pp) * 10 ^ pp)); [ring|].
      rewrite ten_cancel. ring. }
    set (R := inject_Z s * 10 ^ pp) in *. set (S := inject_Z s) in *.
    set (D := inject_Z d) in *. set (Q := inject_Z q) in *.
    assert (E1 : (2 * Q) * D == 2 * D * Q) by ring.
    assert (E2 : (2 * R + 1) * D == 2 * (R * D) + D) by ring.
    assert (E3 : (2 * Q + 2) * D == 2 * D * (Q + 1)) by ring.
    assert (G1 : (2 * Q) * D <= (2 * R + 1) * D) by (rewrite E1, E2, ER; exact H1).
    assert (G2 : (2 * R + 1) * D < (2 * Q + 2) * D) by (rewrite E2, E3, ER; exact H2).
    apply Qmult_le_r in G1; [|done]. apply Qmult_lt_r in G2; [|done].
    split; lra.
Qed.

Section Shortest.

Variables (m : positive) (e : Z).
Hypothesis mantissa_normal : normal m.
Hypothesis exponent_range : (-57 <= e <= -33)%Z.

Lemma magnitude_fraction : magnitude m e = (Z.pos m, (2 ^ (- e))%Z).
Proof. unfold magnitude. destruct (Z.leb_spec 0 e); [lia | done]. Qed.

Lemma denominator_range : (2 ^ 33 <= 2 ^ (- e) <= 2 ^ 57)%Z.
Proof. split; apply Z.pow_le_mono_r; lia. Qed.

Lemma value_fraction : inject_Z (Z.pos m) == val m e * inject_Z (2 ^ (- e)).
Proof.
  pose proof (magnitude_val m e) as H. rewrite magnitude_fraction in H. tauto.
Qed.

(** The decimal exponent of a number between 1/32 and 2^20. *)
Lemma exponent_bounds :
  let n0 := decimal_exponent (Z.pos m) (2 ^ (- e)) in
  (-1 <= n0 <= 7)%Z /\ 10 ^ (n0 - 1) <= val m e /\ val m e < 10 ^ n0.
Proof.
  intros n0. pose proof denominator_range as Hden. pose proof value_fraction as Hval.
  destruct mantissa_normal as [Hm1 Hm2].
  set (num := Z.pos m) in *. set (den := (2 ^ (- e))%Z) in *.
  change (2 ^ 33)%Z with 8589934592%Z in Hden.
  change (2 ^ 57)%Z with 144115188075855872%Z in Hden.
  change (2 ^ 52)%Z with 4503599627370496%Z in Hm1.
  change (2 ^ 53)%Z with 9007199254740992%Z in Hm2.
  assert (Hbig : (9007199254740992 <= 10 ^ 400)%Z) by (apply Z.leb_le; vm_compute; reflexivity).
  assert (Hup : (num < 10 ^ 400 * den)%Z) by (set (K := (10 ^ 400)%Z) in *; nia).
  assert (Hdown : (den <= num * 10 ^ 400)%Z) by (set (K := (10 ^ 400)%Z) in *; nia).
  assert (Hn : (0 < num)%Z) by lia. assert (Hd : (0 < den)%Z) by lia.
  split.
  - destruct (decimal_exponent_spec num den Hn Hd Hup Hdown) as [[H0 [H1 H2]]|[H0 [H1 H2]]];
      fold n0 in H0, H1, H2.
    + split; [lia|]. destruct (Z.le_gt_cases n0 7) as [|Hc]; [done|].
      assert (10 ^ 7 <= 10 ^ (n0 - 1))%Z by (apply Z.pow_le_mono_r; lia).
      change (10 ^ 7)%Z with 10000000%Z in *. nia.
    + split; [|lia]. destruct (Z.le_gt_cases (-1) n0) as [|Hc]; [done|].
      assert (10 ^ 2 <= 10 ^ (- n0))%Z by (apply Z.pow_le_mono_r; lia).
      change (10 ^ 2)%Z with 100%Z in *. nia.
  - destruct (decimal_exponent_value num den Hn Hd Hup Hdown) as [H1 H2].
    fold n0 in H1, H2. rewrite Hval in H1, H2.
    apply inject_Z_lt in Hd. change (inject_Z 0) with 0 in Hd.
    apply Qmult_le_r in H1; [|done]. apply Qmult_lt_r in H2; [|done]. by split.
Qed.

(** The candidate of [k] digits below the number has [k] digits, and the
    number lies between it and the next one. *)
Lemma candidate_bounds (k : Z) :
  (1 <= k <= 18)%Z ->
  let n0 := decimal_exponent (Z.pos m) (2 ^ (- e)) in
  let lo := lower_candidate (Z.pos m) (2 ^ (- e)) (n0 - k) in
  (10 ^ (k - 1) <= lo < 10 ^ k)%Z
  /\ inject_Z lo * 10 ^ (n0 - k) <= val m e
  /\ val m e < (inject_Z lo + 1) * 10 ^ (n0 - k).
Proof.
  intros Hk n0 lo.
  destruct exponent_bounds as (Hn0 & Hlow & Hupp). fold n0 in Hn0, Hlow, Hupp.
  pose proof denominator_range as Hden. pose proof value_fraction as Hval.
  assert (Hd : (0 < 2 ^ (- e))%Z) by lia.
  destruct (lower_candidate_spec (Z.pos m) (2 ^ (- e)) (n0 - k) ltac:(lia) Hd)
    as (Hlo0 & H1 & H2).
  fold lo in Hlo0, H1, H2. rewrite Hval in H1, H2.
  apply inject_Z_lt in Hd. change (inject_Z 0) with 0 in Hd.
  apply Qmult_le_r in H1; [|done]. apply Qmult_lt_r in H2; [|done].
  split; [|by split].
  pose proof (ten_pos (n0 - k)) as HT.
  assert (EA : 10 ^ n0 == inject_Z (10 ^ k) * 10 ^ (n0 - k)).
  { rewrite ten_inject, <- ten_add by lia. by replace (k + (n0 - k))%Z with n0 by lia. }
  assert (EB : 10 ^ (n0 - 1) == inject_Z (10 ^ (k - 1)) * 10 ^ (n0 - k)).
  { rewrite ten_inject, <- ten_add by lia.
    by replace (k - 1 + (n0 - k))%Z with (n0 - 1)%Z by lia. }
  rewrite EA in Hupp. rewrite EB in Hlow.
  assert (G1 : inject_Z lo * 10 ^ (n0 - k) < inject_Z (10 ^ k) * 10 ^ (n0 - k)) by lra.
  assert (G2 : inject_Z (10 ^ (k - 1)) * 10 ^ (n0 - k)
               < inject_Z (lo + 1) * 10 ^ (n0 - k)).
  { rewrite inject_Z_plus. change (inject_Z 1) with 1. lra. }
  apply Qmult_lt_r in G1; [|done]. apply Qmult_lt_r in G2; [|done].
  rewrite <- Zlt_Qlt in G1, G2. lia.
Qed.

(** The digits of [toString], the pair [(s, n)] of [shortest]: [s] is
    positive, and the decimal [s * 10^(n - k)], for [k] the number of its
    digits, is within one rounding of the number. *)
Lemma shortest_value :
  exists s n k X,
    shortest m e = (s, n)
    /\ (0 < s)%Z
    /\ len (Str.of_Z s) = k
    /\ X == inject_Z s * 10 ^ (n - k)
    /\ 0 < X
    /\ Qabs (val m e - X) <= eps * X.
Proof.
  unfold shortest. rewrite magnitude_fraction.
  set (n0 := decimal_exponent (Z.pos m) (2 ^ (- e))).
  destruct (shortest_fuel 17 m e n0 1) as [s n] eqn:Hs.
  destruct (shortest_fuel_spec m e n0 _ _ magnitude_fraction 17 1 s n Hs)
    as (k & Hk & Hcase).
  change (1 + Z.of_nat 17)%Z with 18%Z in *.
  destruct (candidate_bounds k Hk) as (Hlo & H1 & H2). fold n0 in Hlo, H1, H2.
  destruct exponent_bounds as (Hn0 & _). fold n0 in Hn0.
  cbv zeta in Hcase.
  set (lo := lower_candidate (Z.pos m) (2 ^ (- e)) (n0 - k)) in *.
  set (p := (n0 - k)%Z) in *.
  pose proof (ten_pos p) as HT.
  assert (Hk1 : (0 < 10 ^ (k - 1))%Z) by (apply Z.pow_pos_nonneg; lia).
  assert (Hk18 : (10 ^ k <= 10 ^ 18)%Z) by (apply Z.pow_le_mono_r; lia).
  assert (H64 : (10 ^ 18 < 2 ^ 64)%Z) by (vm_compute; reflexivity).
  assert (Hpos : forall c, (0 < c)%Z -> 0 < inject_Z c * 10 ^ p).
  { intros c Hc. apply inject_Z_lt in Hc. change (inject_Z 0) with 0 in Hc.
    by apply Qmult_lt_0_compat. }
  destruct Hcase as [(-> & -> & Hrb) | (Hrb & [(Hne & -> & ->) | (Heq & -> & ->)])].
  - exists lo, n0, k, (inject_Z lo * 10 ^ p).
    split; [done|]. split; [lia|]. split; [by apply of_Z_length; lia|].
    split; [reflexivity|]. split; [apply Hpos; lia|].
    destruct Hrb as [Hrb | ->].
    + apply reads_back_error; [lia | unfold p; lia | exact Hrb].
    + assert (HL : inject_Z (10 ^ 17) <= inject_Z lo).
      { apply inject_Z_le. change (18 - 1)%Z with 17%Z in Hlo. lia. }
      change (inject_Z (10 ^ 17)) with (100000000000000000 # 1) in HL.
      assert (G : (100000000000000000 # 1) * 10 ^ p <= inject_Z lo * 10 ^ p)
        by (apply Qmult_le_compat_r; [exact HL | lra]).
      assert (E2 : (inject_Z lo + 1) * 10 ^ p == inject_Z lo * 10 ^ p + 10 ^ p) by ring.
      rewrite E2 in H2.
      set (X := inject_Z lo * 10 ^ p) in *. set (T := 10 ^ p) in *.
      unfold eps. change (1 # 2 ^ 52) with (1 # 4503599627370496).
      apply Qabs_Qle_condition. split; lra.
  - exists (lo + 1)%Z, n0, k, (inject_Z (lo + 1) * 10 ^ p).
    split; [done|]. split; [lia|]. split; [by apply of_Z_length; lia|].
    split; [reflexivity|]. split; [apply Hpos; lia|].
    apply reads_back_error; [lia | unfold p; lia | exact Hrb].
  - exists (10 ^ (k - 1))%Z, (n0 + 1)%Z, k, (inject_Z (lo + 1) * 10 ^ p).
    split; [done|]. split; [lia|]. split.
    { apply of_Z_length; [lia|]. split; [lia|]. apply Z.pow_lt_mono_r; lia. }
    split.
    { rewrite Heq, !ten_inject by lia. rewrite <- !ten_add. f_equiv. unfold p. lia. }
    split; [apply Hpos; lia|].
    apply reads_back_error; [lia | unfold p; lia | exact Hrb].
Qed.

(** What [toLocaleString] writes: the thousandths [T] of a decimal [X]
    that is within one rounding of the number. *)
Lemma toLocaleString_value :
  exists T X,
    toLocaleString (S754_finite false m e) = locale_digits T
    /\ (0 <= T)%Z
    /\ inject_Z T - 1000 * X <= 1 # 2
    /\ 1000 * X - inject_Z T < 1 # 2
    /\ 0 < X
    /\ Qabs (val m e - X) <= eps * X.
Proof.
  destruct shortest_value as (s & n & k & X & Hs & Hpos & Hk & HX & HX0 & Herr).
  destruct (thousandths_spec s n k Hpos Hk) as (HT0 & HT1 & HT2).
  exists (thousandths s n), X. split.
  { unfold toLocaleString. rewrite Hs. reflexivity. }
  split; [done|]. split; [by rewrite HX|]. split; [by rewrite HX|]. by split.
Qed.

End Shortest.

Lemma twentieth_eq :
  Num.of_decimal false 5 (-2) = S754_finite false 7205759403792794 (-57).
Proof. vm_compute. reflexivity. Qed.

Lemma twentieth_value : 1 # 20 <= val 7205759403792794 (-57).
Proof. vm_compute. discriminate. Qed.

(** What is read back from "$0.05". *)
Lemma text_twentieth :
  marketCapTextToNum ("$" ++ locale_digits 50) = S754_finite false 7205759403792794 (-57).
Proof. vm_compute. reflexivity. Qed.

Lemma round_trip_floor_eq :
  round_trip_floor = S754_finite false 7134415251279995 (-57).
Proof. vm_compute. reflexivity. Qed.

(** The floor is within 1% of what "$0.05" is read as. *)
Lemma round_trip_floor_value :
  100 * val 7205759403792794 (-57) <= 101 * val 7134415251279995 (-57).
Proof. vm_compute. discriminate. Qed.

(** The tier below 10^6: a value is written with at most three decimals
    and read back; the text of the least values is "$0.05". *)
Lemma plain_round_trip (m : positive) (e : Z) :
  normal m -> (-57 <= e <= -33)%Z ->
  100 * val 7205759403792794 (-57) <= 101 * val m e ->
  within (1 # 100)
    (marketCapTextToNum ("$" ++ toLocaleString (S754_finite false m e)))
    (S754_finite false m e).
Proof.
  intros Hm He HV. pose proof twentieth_value as HF.
  destruct (toLocaleString_value m e Hm He) as (T & X & -> & HT0 & N2 & N1 & HX0 & Herr).
  set (F := val 7205759403792794 (-57)) in *.
  set (N := inject_Z T) in *. set (V := val m e) in *.
  assert (HV2 : V < 1048576).
  { pose proof (val_upper m e (-33) Hm ltac:(lia)) as H.
    assert (E : inject_Z (2 ^ 53) * 2 ^ (-33) == 1048576) by reflexivity.
    by rewrite E in H. }
  apply Qabs_Qle_condition in Herr as [X1 X2].
  unfold eps in X1, X2. change (1 # 2 ^ 52) with (1 # 4503599627370496) in X1, X2.
  assert (HN50 : (50 <= T)%Z).
  { assert (G : inject_Z 49 < N) by (change (inject_Z 49) with 49; lra).
    unfold N in G. rewrite <- Zlt_Qlt in G. lia. }
  destruct (Z.eq_dec T 50%Z) as [H50|H50].
  { assert (EN : N == 50) by (unfold N; by rewrite H50).
    rewrite H50, text_twentieth. apply within_finite. fold V F.
    apply Qabs_Qle_condition. split; lra. }
  destruct (text_plain T HT0) as (M & L & -> & HL & HM).
  assert (HNup : (T < 2 ^ 31)%Z).
  { assert (G : N < inject_Z (2 ^ 31)) by (change (inject_Z (2 ^ 31)) with (2147483648 # 1); lra).
    unfold N in G. by rewrite <- Zlt_Qlt in G. }
  assert (Hpow : (1 <= 10 ^ (3 - L))%Z).
  { pose proof (Z.pow_pos_nonneg 10 (3 - L)) as H. lia. }
  assert (HMpos : (0 < M <= T)%Z) by nia.
  destruct M as [|Mp|Mp]; [lia| |lia].
  destruct (of_decimal_ratio Mp L HL) as (dd & -> & Hdd & Hdig).
  pose proof (digits_range Mp 0 31 ltac:(lia) ltac:(lia)) as HdigM.
  destruct (of_ratio_spec false Mp dd ltac:(lia)) as (mp & ep & -> & _ & _ & Hperr).
  apply within_finite. fold V. set (P := val mp ep) in *.
  assert (E : Z.pos Mp # dd == N * (1 # 1000)).
  { unfold N, Qeq. simpl.
    assert (Hk : (10 ^ L * 10 ^ (3 - L) = 1000)%Z).
    { rewrite <- Z.pow_add_r by lia. by replace (L + (3 - L))%Z with 3%Z by lia. }
    nia. }
  rewrite E in Hperr. apply Qabs_Qle_condition in Hperr as [P1 P2].
  unfold eps in P1, P2. change (1 # 2 ^ 52) with (1 # 4503599627370496) in P1, P2.
  fold N in P1, P2.
  assert (G : inject_Z 51 <= N) by (apply inject_Z_le; lia).
  change (inject_Z 51) with 51 in G.
  apply Qabs_Qle_condition. split; lra.
Qed.

(** C6, as amended. Round-trip law. A number [v] that is zero or at least
    0.049504950495049514, and whose quotient by 10^12 is below the 10^21
    from which [toFixed] no longer writes plain digits, is read back from
    its text to within 1% of its value: [marketCapTextToNum
    (marketCapNumToText v)] is finite and differs from [v] by at most a
    hundredth of [v], in each of the four tiers. The floor is the least
    number that the 0.05 of its text "$0.05" is within 1% of; every number
    from 0.05 on is above it. Below 10^6 the text is that of
    [toLocaleString] in the en-US locale. *)
Theorem round_trip_law (v : number) :
  is_number v = true ->
  v = S754_zero false \/ v = S754_zero true \/ geb v round_trip_floor = true ->
  geb (div v trillion) (Num.of_Z (10 ^ 21)) = false ->
  within (1 # 100) (marketCapTextToNum (marketCapNumToText v)) v.
Proof.
  intros Hv [-> | [-> | H1]] Hsmall.
  { vm_compute. discriminate. }
  { vm_compute. discriminate. }
  rewrite round_trip_floor_eq in H1.
  apply geb_finite in H1 as [-> | (m & e & -> & Hge)].
  { exfalso. revert Hsmall. rewrite trillion_eq, ten_21_eq. discriminate. }
  destruct (valid_normal false m e Hv ltac:(lia)) as [Hm He].
  assert (HnT : normal 8192000000000000) by (unfold normal; lia).
  assert (HnB : normal 8388608000000000) by (unfold normal; lia).
  assert (HnM : normal 8589934592000000) by (unfold normal; lia).
  unfold marketCapNumToText.
  destruct (geb (S754_finite false m e) trillion) eqn:HT;
    [|destruct (geb (S754_finite false m e) billion) eqn:HB;
      [|destruct (geb (S754_finite false m e) million) eqn:HM]].
  - rewrite trillion_eq in HT, Hsmall |- *.
    apply geb_finite in HT as [[=] | (? & ? & [= <- <-] & HT)].
    apply (tier_within 8192000000000000 (-13) " trillion" HnT ltac:(lia));
      [|exact Hm|exact He|exact HT|exact Hsmall].
    intros n Hn. rewrite <- trillion_eq. exact (text_trillion n Hn).
  - rewrite trillion_eq in HT. apply not_geb_finite in HT.
    rewrite billion_eq in HB |- *.
    apply geb_finite in HB as [[=] | (? & ? & [= <- <-] & HB)].
    apply (tier_within 8388608000000000 (-23) " billion" HnB ltac:(lia));
      [|exact Hm|exact He|exact HB|].
    + intros n Hn. rewrite <- billion_eq. exact (text_billion n Hn).
    + apply (tier_below_ten_21 _ _ _ _ Hm HnB); lia.
  - rewrite trillion_eq in HT. apply not_geb_finite in HT.
    rewrite million_eq in HM |- *.
    apply geb_finite in HM as [[=] | (? & ? & [= <- <-] & HM)].
    apply (tier_within 8589934592000000 (-33) " million" HnM ltac:(lia));
      [|exact Hm|exact He|exact HM|].
    + intros n Hn. rewrite <- million_eq. exact (text_million n Hn).
    + apply (tier_below_ten_21 _ _ _ _ Hm HnM); lia.
  - rewrite million_eq in HM. apply not_geb_finite in HM.
    apply plain_round_trip; [exact Hm | lia |].
    apply Qle_trans with (101 * val 7134415251279995 (-57));
      [exact round_trip_floor_value|].
    apply Qmult_le_l; [reflexivity|].
    apply val_le_compare; [unfold normal; lia | exact Hm | exact Hge].
Qed.

(** C6. The claim as the specification words it fails at both ends. The
    text of a small value keeps at most three decimals: 0.0004 is written
    "$0" and read back as 0, and the number just below the floor,
    0.04950495049504951, is written "$0.05", which is more than 1% above
    it. From 10^33 the quotient by 10^12 is written in exponent notation:
    10^33 gives "$1e+21 trillion", whose stripped text "121" is read back
    as 121 times 10^12. *)
Lemma round_trip_counterexample :
  (let v := parseFloat "0.0004" in
   is_number v = true
   /\ geb v million = false
   /\ marketCapNumToText v = "$0"
   /\ marketCapTextToNum (marketCapNumToText v) = S754_zero false
   /\ ~ within (1 # 100) (marketCapTextToNum (marketCapNumToText v)) v)
  /\ (let v := parseFloat "0.04950495049504951" in
      is_number v = true
      /\ v = S754_finite false 7134415251279994 (-57)
      /\ round_trip_floor = S754_finite false 7134415251279995 (-57)
      /\ marketCapNumToText v = "$0.05"
      /\ marketCapTextToNum (marketCapNumToText v) = parseFloat "0.05"
      /\ ~ within (1 # 100) (marketCapTextToNum (marketCapNumToText v)) v)
  /\ (let v := parseFloat "1e33" in
      is_number v = true
      /\ geb v trillion = true
      /\ geb (div v trillion) (Num.of_Z (10 ^ 21)) = true
      /\ marketCapNumToText v = "$1e+21 trillion"
      /\ marketCapTextToNum (marketCapNumToText v) = Num.of_Z 121000000000000
      /\ ~ within (1 # 100) (marketCapTextToNum (marketCapNumToText v)) v).
Proof.
  vm_compute. repeat split; try reflexivity; intros H; apply H; reflexivity.
Qed.

Lemma round_trip_law_witness :
  (is_number (Num.of_Z 2345678901) = true
   /\ geb (Num.of_Z 2345678901) round_trip_floor = true
   /\ geb (div (Num.of_Z 2345678901) trillion) (Num.of_Z (10 ^ 21)) = false
   /\ marketCapNumToText (Num.of_Z 2345678901) = "$2.35 billion"
   /\ within (1 # 100)
        (marketCapTextToNum (marketCapNumToText (Num.of_Z 2345678901)))
        (Num.of_Z 2345678901))
  /\ (is_number (parseFloat "0.05") = true
      /\ geb (parseFloat "0.05") round_trip_floor = true
      /\ geb (div (parseFloat "0.05") trillion) (Num.of_Z (10 ^ 21)) = false
      /\ marketCapNumToText (parseFloat "0.05") = "$0.05"
      /\ within (1 # 100)
           (marketCapTextToNum (marketCapNumToText (parseFloat "0.05")))
           (parseFloat "0.05"))
  /\ (is_number round_trip_floor = true
      /\ geb round_trip_floor round_trip_floor = true
      /\ geb (div round_trip_floor trillion) (Num.of_Z (10 ^ 21)) = false
      /\ marketCapNumToText round_trip_floor = "$0.05"
      /\ within (1 # 100)
           (marketCapTextToNum (marketCapNumToText round_trip_floor))
           round_trip_floor).
Proof.
  split; [|split].
  - split; [reflexivity|]. split; [reflexivity|]. split; [reflexivity|].
    split; [vm_compute; reflexivity|].
    apply (round_trip_law (Num.of_Z 2345678901));
      [reflexivity | right; right; reflexivity | reflexivity].
  - split; [reflexivity|]. split; [reflexivity|]. split; [reflexivity|].
    split; [vm_compute; reflexivity|].
    apply (round_trip_law (parseFloat "0.05"));
      [reflexivity | right; right; reflexivity | reflexivity].
  - split; [reflexivity|]. split; [reflexivity|]. split; [reflexivity|].
    split; [vm_compute; reflexivity|].
    apply (round_trip_law round_trip_floor);
      [reflexivity | right; right; reflexivity | reflexivity].
Defined.

End RoundTrip.

(** ** The routes: what a client can rely on *)

Module RouteProperties.

Import Num Json Server Scrapers Index Spec Examples Notions Scenes.
Import CacheLaws RouteLaws SweepLaws Invariants.

#[local] Set Warnings "-clear-no-such-hyp".

(** *** A request, case by case *)

(** A request that finds no valid entry and whose producer returns. *)
Lemma handle_refresh (rt : route) (k : string) (r : reply) (w : world) (d : value) :
  key_of rt = Some k ->
  valid (clock w) (cache w !! k) = None ->
  produced rt r = Ok d ->
  handle rt r w =
    match respond_of rt (envelope r d w) (stored rt k r d w) with
    | (Ok res, w2) => (Ok res, w2)
    | (Throw error, w2) =>
        handleErrorWithCacheFallback k error (messages_of rt).2 w2
    end.
Proof.
  intros Hk Hv Hd. rewrite (handle_route_of rt k r Hk), route_of_unfold.
  pose proof (scraper_run rt k r w Hk) as Hs. rewrite Hd in Hs.
  rewrite (getCachedData_refresh k _ w _ d Hv Hs). reflexivity.
Qed.

(** A request that finds a young entry. *)
Lemma handle_hit (rt : route) (k : string) (r : reply) (w : world) (e : CacheEntry) :
  key_of rt = Some k ->
  cache w !! k = Some e ->
  age (clock w) e < CACHE_DURATION ->
  handle rt r w =
    match respond_of rt (entry_data e) w with
    | (Ok res, w2) => (Ok res, w2)
    | (Throw error, w2) =>
        handleErrorWithCacheFallback k error (messages_of rt).2 w2
    end.
Proof.
  intros Hk He Hage. rewrite (handle_route_of rt k r Hk), route_of_unfold.
  by rewrite (getCachedData_hit k _ w e He Hage).
Qed.

(** A request that finds no valid entry and whose producer throws. *)
Lemma handle_failure (rt : route) (k : string) (r : reply) (w : world) (error : string) :
  key_of rt = Some k ->
  valid (clock w) (cache w !! k) = None ->
  produced rt r = Throw error ->
  handle rt r w =
    handleErrorWithCacheFallback k error (messages_of rt).2 (fetched (url_of rt) r w).
Proof.
  intros Hk Hv Hd. rewrite (handle_route_of rt k r Hk), route_of_unfold.
  pose proof (scraper_run rt k r w Hk) as Hs. rewrite Hd in Hs.
  by rewrite (getCachedData_failure k _ w _ error Hv Hs).
Qed.

Lemma respond_of_codes (rt : route) (result : ResponseData) (w : world) :
  exists o, respond_of rt result w = (o, w)
    /\ match o with
       | Ok res => code res = 200 \/ code res = 404
       | Throw _ => True
       end.
Proof.
  assert (Hl : forall notFound, exists o, respond_list notFound result w = (o, w)
            /\ match o with
               | Ok res => code res = 200 \/ code res = 404
               | Throw _ => True
               end).
  { intros notFound. unfold respond_list, not_found. run_monad.
    destruct (length_of (data result)) as [len|e]; simpl; [|by eexists].
    destruct (is_zero len); simpl; eexists; (split; [reflexivity|]); simpl; auto. }
  destruct rt; simpl; try apply Hl.
  unfold respond_btc, not_found. run_monad.
  destruct (property "btcDominance" (data result)) as [d|e]; simpl; [|by eexists].
  destruct (negb (truthy d)); simpl; eexists; (split; [reflexivity|]); simpl; auto.
Qed.

Lemma handleError_codes (k error errorMessage : string) (w : world) :
  exists res, handleErrorWithCacheFallback k error errorMessage w
              = (Ok res, logged error w)
    /\ (code res = 200 \/ code res = 500).
Proof.
  destruct (cache w !! k) as [c|] eqn:Hc.
  - rewrite (handleError_stored k error errorMessage w c Hc). eauto.
  - rewrite (handleError_cold k error errorMessage w Hc). eauto.
Qed.

(** X1. No exception leaves a handler: every request, in every state of
    the cache and whatever the network answers, gets a response, and its
    status code is 200, 404 or 500. *)
Theorem every_request_answered (rt : route) (r : reply) (w : world) :
  exists res w',
    handle rt r w = (Ok res, w')
    /\ (code res = 200 \/ code res = 404 \/ code res = 500).
Proof.
  destruct (key_of rt) as [k|] eqn:Hk.
  - rewrite (handle_route_of rt k r Hk), route_of_unfold.
    destruct (getCachedData k (scraper_of rt r) w) as [[result|error] w1].
    + destruct (respond_of_codes rt result w1) as (o & -> & Ho).
      destruct o as [res|error].
      * exists res, w1. split; [done|]. tauto.
      * destruct (handleError_codes k error (messages_of rt).2 w1) as (res & -> & Hc).
        exists res, (logged error w1). split; [done|]. tauto.
    + destruct (handleError_codes k error (messages_of rt).2 w1) as (res & -> & Hc).
      exists res, (logged error w1). split; [done|]. tauto.
  - destruct rt; try discriminate; simpl; eexists _, _; (split; [reflexivity|]);
      simpl; auto.
Qed.

(** *** Going upstream *)

(** X2. When a data route goes upstream: a request sends exactly one
    request upstream when no entry is stored under its key or the entry is
    at least [CACHE_DURATION] old, and none when the entry is younger. *)
Theorem upstream_request_law (rt : route) (k : string) (r : reply) (w : world) :
  key_of rt = Some k ->
  let sent := fetches (trace (handle rt r w).2) in
  (sent = S (fetches (trace w)) <->
     cache w !! k = None
     \/ exists e, cache w !! k = Some e /\ CACHE_DURATION <= age (clock w) e)
  /\ (sent = fetches (trace w) <->
        exists e, cache w !! k = Some e /\ age (clock w) e < CACHE_DURATION).
Proof.
  intros Hk sent. unfold sent. rewrite (handle_fetches rt k r w Hk).
  destruct (valid (clock w) (cache w !! k)) as [c|] eqn:Hv.
  - apply valid_Some in Hv as [Hc Hage]. split.
    + split; [lia|]. intros [Hn | (e & He & Hold)]; [congruence|].
      rewrite Hc in He. injection He as <-. lia.
    + split; [eauto | done].
  - pose proof Hv as Hv'. apply valid_None in Hv' as [Hn | (c & Hc & Hold)].
    + split; [split; [by left | done]|].
      split; [lia|]. intros (e & He & _). congruence.
    + split; [split; [right; eauto | done]|].
      split; [lia|]. intros (e & He & Hyoung).
      rewrite Hc in He. injection He as <-. lia.
Qed.

Lemma upstream_request_law_witness :
  key_of GET_top_gainers = Some "top-gainers"
  /\ cache (start t0) !! "top-gainers" = None
  /\ fetches (trace (handle GET_top_gainers up (start t0)).2)
     = S (fetches (trace (start t0))).
Proof.
  assert (H1 : key_of GET_top_gainers = Some "top-gainers") by reflexivity.
  assert (H2 : cache (start t0) !! "top-gainers" = None) by reflexivity.
  do 2 (split; [assumption|]).
  apply (proj1 (upstream_request_law GET_top_gainers "top-gainers" up (start t0) H1)).
  left. exact H2.
Defined.

(** X3. Failures are not cached. When a request finds no valid entry and
    its producer throws, the cache is left as it was, and the next request
    of the route goes upstream again, however soon it comes. *)
Theorem failures_are_retried (rt : route) (k : string) (r1 r2 : reply) (w : world)
    (error : string) (d : Z) :
  key_of rt = Some k ->
  valid (clock w) (cache w !! k) = None ->
  produced rt r1 = Throw error ->
  0 <= latency r1 -> 0 <= d ->
  let w1 := (handle rt r1 w).2 in
  cache w1 = cache w
  /\ fetches (trace w1) = S (fetches (trace w))
  /\ fetches (trace (handle rt r2 (sleep d w1).2).2) = S (S (fetches (trace w))).
Proof.
  intros Hk Hv Hp Hlat Hd w1. unfold w1. clear w1.
  rewrite (handle_failure rt k r1 w error Hk Hv Hp).
  destruct (handleError_codes k error (messages_of rt).2 (fetched (url_of rt) r1 w))
    as (res & -> & _).
  cbn [snd]. split; [done|].
  assert (Hf : fetches (trace (logged error (fetched (url_of rt) r1 w)))
               = S (fetches (trace w))).
  { unfold logged, fetched. simpl. by rewrite !fetches_snoc. }
  split; [exact Hf|].
  rewrite (handle_fetches rt k r2 _ Hk), sleep_world. simpl.
  assert (Hv2 : valid (clock w + latency r1 + d) (cache w !! k) = None).
  { apply valid_None. apply valid_None in Hv as [Hn | (c & Hc & Hold)]; [by left|].
    right. exists c. split; [done|]. unfold age in *. lia. }
  rewrite Hv2. f_equal. exact Hf.
Qed.

Lemma failures_are_retried_witness :
  key_of GET_top_gainers = Some "top-gainers"
  /\ valid (clock (start t0)) (cache (start t0) !! "top-gainers") = None
  /\ produced GET_top_gainers down = Throw "Request failed with status code 503"
  /\ 0 <= latency down /\ 0 <= 0
  /\ fetches (trace (handle GET_top_gainers down
                       (sleep 0 (handle GET_top_gainers down (start t0)).2).2).2)
     = S (S (fetches (trace (start t0)))).
Proof.
  assert (H1 : key_of GET_top_gainers = Some "top-gainers") by reflexivity.
  assert (H2 : valid (clock (start t0)) (cache (start t0) !! "top-gainers") = None)
    by reflexivity.
  assert (H3 : produced GET_top_gainers down
               = Throw "Request failed with status code 503") by reflexivity.
  assert (H4 : 0 <= latency down) by (simpl; lia).
  assert (H5 : 0 <= 0) by lia.
  do 5 (split; [assumption|]).
  exact (proj2 (proj2 (failures_are_retried GET_top_gainers "top-gainers" down down
                         (start t0) _ 0 H1 H2 H3 H4 H5))).
Defined.

Lemma cleanupCache_fetches (w : world) :
  fetches (trace (cleanupCache w).2) = fetches (trace w).
Proof.
  unfold cleanupCache. destruct (cleanup_loop (clock w) (cache w)) as [c n].
  destruct (0 <? n); [|done]. unfold emit. simpl. by rewrite fetches_snoc.
Qed.

Lemma handle_fetches_any (rt : route) (r : reply) (w : world) :
  (fetches (trace (handle rt r w).2)
   <= fetches (trace w) + (if bool_decide (is_Some (key_of rt)) then 1 else 0))%nat.
Proof.
  destruct (key_of rt) as [k|] eqn:Hk.
  - rewrite (handle_fetches rt k r w Hk).
    rewrite bool_decide_eq_true_2 by eauto.
    destruct (valid _ _); lia.
  - rewrite bool_decide_eq_false_2 by (by intros [? ?]).
    destruct rt; try discriminate; simpl; lia.
Qed.

(** X4. The server goes upstream only to answer: along every run, from
    any state, the number of requests sent upstream is at most the number
    of requests received for data routes. The timer, the waits and the
    three other routes send nothing. *)
Theorem upstream_bound (inputs : list input) (w : world) :
  (fetches (trace (run inputs w).2)
   <= fetches (trace w) + data_requests inputs)%nat.
Proof.
  revert w. induction inputs as [|i inputs IH]; intros w; [simpl; lia|].
  rewrite run_cons. specialize (IH (step i w).2).
  assert (Hstep : (fetches (trace (step i w).2)
                   <= fetches (trace w)
                      + data_requests [i])%nat).
  { destruct i as [rt r| |d]; unfold data_requests; cbn [List.filter].
    - pose proof (handle_fetches_any rt r w) as H. unfold step.
      destruct (handle rt r w) as [[res|e] w'] eqn:Hh; simpl in *;
        destruct (bool_decide _); simpl; lia.
    - simpl. rewrite cleanupCache_fetches. lia.
    - simpl. lia. }
  assert (Hsplit : data_requests (i :: inputs)
                   = (data_requests [i] + data_requests inputs)%nat).
  { unfold data_requests. cbn [List.filter].
    destruct i as [rt r| |d]; [destruct (bool_decide _)| |]; simpl; lia. }
  lia.
Qed.

(** *** What the cache holds *)

(** X5. Isolation of the keys: a request changes no entry but the one
    under the key of its own route, DELETE /cache apart. *)
Theorem other_keys_untouched (rt : route) (r : reply) (w : world) (k' : string) :
  rt <> DELETE_cache ->
  key_of rt <> Some k' ->
  cache (handle rt r w).2 !! k' = cache w !! k'.
Proof.
  intros Hd Hk. rewrite handle_cache.
  destruct (key_of rt) as [k|] eqn:Hkey.
  - destruct (valid (clock w) (cache w !! k)); [done|].
    destruct (produced rt r); [|done].
    unfold refreshed. apply lookup_insert_ne. congruence.
  - by destruct rt.
Qed.

Lemma other_keys_untouched_witness :
  GET_top_gainers <> DELETE_cache
  /\ key_of GET_top_gainers <> Some "trending-coins"
  /\ cache (handle GET_top_gainers up two_entries).2 !! "trending-coins"
     = cache two_entries !! "trending-coins".
Proof.
  assert (H1 : GET_top_gainers <> DELETE_cache) by discriminate.
  assert (H2 : key_of GET_top_gainers <> Some "trending-coins") by discriminate.
  do 2 (split; [assumption|]).
  exact (other_keys_untouched GET_top_gainers up two_entries "trending-coins" H1 H2).
Defined.

(** X6. What the cache holds. In every state the process reaches from its
    start, an entry sits under the key of a data route, its envelope has
    the status "success" and its data is what the producer of that route
    returned for some answer of the network: a list for the five list
    routes. No error body, no 404 body and no fallback body is ever
    stored. *)
Theorem stored_envelopes (inputs : list input) (t : Z) (k : string) (e : CacheEntry) :
  cache (run inputs (start t)).2 !! k = Some e ->
  exists rt r,
    key_of rt = Some k
    /\ status (entry_data e) = "success"
    /\ produced rt r = Ok (data (entry_data e))
    /\ (is_list_route rt = true -> exists l, data (entry_data e) = Arr l).
Proof.
  intros He.
  destruct (run_entry inputs (start t) k) as [[x Hx] | Hreq]; [by rewrite He| |].
  { simpl in Hx. by rewrite lookup_empty in Hx. }
  destruct Hreq as (before & rt & r0 & after & d & _ & Hk & _).
  destruct (reachable_well_formed inputs t rt k e Hk He) as (Hs & r & Hp).
  exists rt, r. repeat split; try done.
  intros Hl. by apply (produced_list rt r).
Qed.

Lemma stored_envelopes_witness :
  cache (run outage (start t0)).2 !! "trending-coins" = Some first_entry
  /\ exists rt r,
       key_of rt = Some "trending-coins"
       /\ status (entry_data first_entry) = "success"
       /\ produced rt r = Ok (data (entry_data first_entry))
       /\ (is_list_route rt = true -> exists l, data (entry_data first_entry) = Arr l).
Proof.
  assert (H : cache (run outage (start t0)).2 !! "trending-coins" = Some first_entry)
    by (vm_compute; reflexivity).
  split; [assumption|].
  exact (stored_envelopes outage t0 "trending-coins" first_entry H).
Defined.

(** X7. The cache stays small: whatever the process has been through since
    its start, the cache holds at most six entries, one for each data
    route. *)
Theorem cache_bounded (inputs : list input) (t : Z) :
  (size (cache (run inputs (start t)).2) <= 6)%nat.
Proof.
  set (c := cache (run inputs (start t)).2).
  assert (Hdom : dom c ⊆ (list_to_set route_keys : gset string)).
  { intros k [e He]%elem_of_dom.
    destruct (run_entry inputs (start t) k) as [[x Hx] | Hreq]; [by exists e| |].
    { simpl in Hx. by rewrite lookup_empty in Hx. }
    destruct Hreq as (_ & rt & _ & _ & _ & _ & Hk & _).
    apply elem_of_list_to_set. unfold route_keys.
    destruct rt; simpl in Hk; try discriminate; injection Hk as <-;
      rewrite !elem_of_cons; auto 10. }
  rewrite <- size_dom. apply subseteq_size in Hdom.
  etrans; [exact Hdom|]. vm_compute. lia.
Qed.

(** *** Answers served from the cache *)

Lemma respond_of_list (rt : route) :
  is_list_route rt = true -> respond_of rt = respond_list (messages_of rt).1.
Proof. by destruct rt. Qed.

(** X8. An empty list is a 404 that is cached. When the producer of a list
    route returns an empty list, the answer is 404 with the route's
    not-found message; the empty envelope is stored all the same. In every
    state in which this entry is still the one stored under the key, a
    request of the route that starts less than [CACHE_DURATION]
    milliseconds after the entry was stored is answered 404 again without
    going upstream, whatever happened in between and whatever the network
    would answer. *)
Theorem empty_list_cached (rt : route) (k : string) (r : reply) (w : world) :
  is_list_route rt = true ->
  key_of rt = Some k ->
  valid (clock w) (cache w !! k) = None ->
  produced rt r = Ok (Arr []) ->
  let t := clock w + latency r in
  let w1 := (handle rt r w).2 in
  (handle rt r w).1
  = Ok {| code := 404;
          body := Obj [("status", Str "error");
                       ("message", Str (messages_of rt).1);
                       ("timestamp", Str (Date.toISOString t))] |}
  /\ cache w1 !! k
     = Some {| entry_data := {| status := "success";
                                timestamp := Date.toISOString t;
                                data := Arr [] |};
               entry_timestamp := t |}
  /\ (forall (r2 : reply) (w2 : world),
        cache w2 !! k = cache w1 !! k ->
        clock w2 - t < CACHE_DURATION ->
        handle rt r2 w2
        = (Ok {| code := 404;
                 body := Obj [("status", Str "error");
                              ("message", Str (messages_of rt).1);
                              ("timestamp", Str (Date.toISOString (clock w2)))] |},
           w2)).
Proof.
  intros Hl Hk Hv Hd t w1.
  assert (H1 : handle rt r w
               = (Ok {| code := 404;
                        body := Obj [("status", Str "error");
                                     ("message", Str (messages_of rt).1);
                                     ("timestamp", Str (Date.toISOString t))] |},
                  stored rt k r (Arr []) w)).
  { rewrite (handle_refresh rt k r w (Arr []) Hk Hv Hd), (respond_of_list rt Hl).
    by rewrite (respond_list_Arr _ (envelope r (Arr []) w) [] _ eq_refl). }
  assert (Hc : cache (stored rt k r (Arr []) w) !! k
               = Some {| entry_data := envelope r (Arr []) w; entry_timestamp := t |}).
  { unfold stored, refreshed. simpl. by rewrite lookup_insert_eq. }
  unfold w1. rewrite H1. split; [done|]. split; [exact Hc|].
  intros r2 w2 Hsame Hyoung. cbn [snd] in Hsame. rewrite Hc in Hsame.
  rewrite (handle_hit rt k r2 w2 _ Hk Hsame), (respond_of_list rt Hl).
  - by rewrite (respond_list_Arr _ (envelope r (Arr []) w) [] _ eq_refl).
  - unfold age. simpl. lia.
Qed.

Lemma empty_list_cached_witness :
  is_list_route GET_top_gainers = true
  /\ key_of GET_top_gainers = Some "top-gainers"
  /\ valid (clock (start t0)) (cache (start t0) !! "top-gainers") = None
  /\ produced GET_top_gainers empty_market = Ok (Arr [])
  /\ (handle GET_top_gainers empty_market (start t0)).1
     = Ok {| code := 404;
             body := Obj [("status", Str "error");
                          ("message", Str "No top gainers found");
                          ("timestamp", Str (Date.toISOString (t0 + 80)))] |}
  /\ let w1 := (handle GET_top_gainers empty_market (start t0)).2 in
     let w2 := (run [Wait 1000; Request GET_trending_coins up; Wait 2000] w1).2 in
     cache w2 !! "top-gainers" = cache w1 !! "top-gainers"
     /\ clock w2 - (t0 + 80) < CACHE_DURATION
     /\ handle GET_top_gainers up w2
        = (Ok {| code := 404;
                 body := Obj [("status", Str "error");
                              ("message", Str "No top gainers found");
                              ("timestamp", Str (Date.toISOString (clock w2)))] |},
           w2).
Proof.
  assert (H1 : is_list_route GET_top_gainers = true) by reflexivity.
  assert (H2 : key_of GET_top_gainers = Some "top-gainers") by reflexivity.
  assert (H3 : valid (clock (start t0)) (cache (start t0) !! "top-gainers") = None)
    by reflexivity.
  assert (H4 : produced GET_top_gainers empty_market = Ok (Arr [])) by reflexivity.
  do 4 (split; [assumption|]).
  destruct (empty_list_cached GET_top_gainers "top-gainers" empty_market (start t0)
              H1 H2 H3 H4) as (Hanswer & _ & Hagain).
  split; [exact Hanswer|]. cbv zeta.
  set (w1 := (handle GET_top_gainers empty_market (start t0)).2) in *.
  set (w2 := (run [Wait 1000; Request GET_trending_coins up; Wait 2000] w1).2).
  assert (H5 : cache w2 !! "top-gainers" = cache w1 !! "top-gainers")
    by (vm_compute; reflexivity).
  assert (H6 : clock w2 - (t0 + 80) < CACHE_DURATION) by (vm_compute; reflexivity).
  do 2 (split; [assumption|]).
  exact (Hagain up w2 H5 H6).
Defined.

Lemma respond_of_local (rt : route) (k : string) (result : ResponseData) :
  local k (respond_of rt result).
Proof. destruct rt; simpl; (apply local_respond_list || apply local_respond_btc). Qed.

Lemma conclude_local (rt : route) (k : string) (result : ResponseData) :
  local k (conclude rt k result).
Proof.
  apply local_try_catch; [apply respond_of_local|].
  intros e. apply local_handleError.
Qed.

Lemma handle_refresh_conclude (rt : route) (k : string) (r : reply) (w : world)
    (d : value) :
  key_of rt = Some k ->
  valid (clock w) (cache w !! k) = None ->
  produced rt r = Ok d ->
  handle rt r w = conclude rt k (envelope r d w) (stored rt k r d w).
Proof.
  intros Hk Hv Hd. rewrite (handle_refresh rt k r w d Hk Hv Hd).
  unfold conclude, try_catch.
  by destruct (respond_of rt _ _) as [[res|error] w2].
Qed.

Lemma handle_hit_conclude (rt : route) (k : string) (r : reply) (w : world)
    (e : CacheEntry) :
  key_of rt = Some k ->
  cache w !! k = Some e ->
  age (clock w) e < CACHE_DURATION ->
  handle rt r w = conclude rt k (entry_data e) w.
Proof.
  intros Hk He Hage. rewrite (handle_hit rt k r w e Hk He Hage).
  unfold conclude, try_catch.
  by destruct (respond_of rt _ _) as [[res|error] w2].
Qed.

(** The data a producer returns is read without an exception, and a 200
    answer does not depend on the moment it is sent. *)
Lemma respond_of_produced (rt : route) (k : string) (r : reply) (result : ResponseData)
    (w : world) :
  key_of rt = Some k ->
  produced rt r = Ok (data result) ->
  exists res, respond_of rt result w = (Ok res, w)
    /\ (code res = 200 -> forall w', respond_of rt result w' = (Ok res, w')).
Proof.
  intros Hk Hp. destruct (is_list_route rt) eqn:Hl.
  - destruct (produced_list rt r _ Hl Hp) as [l Hdata].
    rewrite (respond_of_list rt Hl).
    rewrite (respond_list_Arr _ result l w Hdata).
    eexists. split; [reflexivity|]. intros Hc w'.
    rewrite (respond_list_Arr _ result l w' Hdata).
    destruct (is_zero _); [discriminate Hc | done].
  - destruct rt; try discriminate. simpl.
    unfold produced, parsed in Hp.
    destruct (answer r) as [p|m]; [|discriminate].
    destruct (each btc_callback None (stats_table p)) as [x|]; [|discriminate].
    injection Hp as Hdata.
    unfold respond_btc, not_found. run_monad. rewrite <- Hdata. simpl.
    destruct (negb _); eexists; (split; [reflexivity|]); [discriminate | done].
Qed.

(** X9. A hit replays the answer that filled the cache: when a request
    finds no valid entry, its producer returns and it is answered 200, then
    in every state in which the entry it stored is still the one under the
    key, a request of the same route that starts less than
    [CACHE_DURATION] after the entry was stored gets the same status code
    and the same body, without going upstream and without any change of the
    state, whatever happened in between. *)
Theorem hit_replays_answer (rt : route) (k : string) (r1 r2 : reply) (w w2 : world)
    (v : value) (res : response) :
  key_of rt = Some k ->
  valid (clock w) (cache w !! k) = None ->
  produced rt r1 = Ok v ->
  (handle rt r1 w).1 = Ok res ->
  code res = 200 ->
  cache w2 !! k = cache (handle rt r1 w).2 !! k ->
  clock w2 - (clock w + latency r1) < CACHE_DURATION ->
  handle rt r2 w2 = (Ok res, w2).
Proof.
  intros Hk Hv Hp Hres Hcode Hsame Hyoung.
  rewrite (handle_refresh rt k r1 w v Hk Hv Hp) in *.
  destruct (respond_of_produced rt k r1 (envelope r1 v w) (stored rt k r1 v w) Hk Hp)
    as (res' & Hr & Hpure).
  rewrite Hr in *. simpl in Hres. injection Hres as ->.
  assert (Hc : cache w2 !! k
               = Some {| entry_data := envelope r1 v w;
                         entry_timestamp := clock w + latency r1 |}).
  { rewrite Hsame. unfold stored, refreshed. simpl. by rewrite lookup_insert_eq. }
  rewrite (handle_hit rt k r2 w2 _ Hk Hc).
  - simpl. by rewrite (Hpure Hcode w2).
  - unfold age. simpl. lia.
Qed.

Lemma hit_replays_answer_witness :
  key_of GET_trending_coins = Some "trending-coins"
  /\ valid (clock (start t0)) (cache (start t0) !! "trending-coins") = None
  /\ produced GET_trending_coins up = Ok (data first_envelope)
  /\ (handle GET_trending_coins up (start t0)).1 = Ok first_answer
  /\ code first_answer = 200
  /\ let w2 := (run [Wait 1000; Request GET_top_gainers up; Wait 2000]
                 (handle GET_trending_coins up (start t0)).2).2 in
     cache w2 !! "trending-coins"
     = cache (handle GET_trending_coins up (start t0)).2 !! "trending-coins"
     /\ clock w2 - (clock (start t0) + latency up) < CACHE_DURATION
     /\ handle GET_trending_coins down w2 = (Ok first_answer, w2).
Proof.
  assert (H1 : key_of GET_trending_coins = Some "trending-coins") by reflexivity.
  assert (H2 : valid (clock (start t0)) (cache (start t0) !! "trending-coins") = None)
    by reflexivity.
  assert (H3 : produced GET_trending_coins up = Ok (data first_envelope))
    by (vm_compute; reflexivity).
  assert (H4 : (handle GET_trending_coins up (start t0)).1 = Ok first_answer)
    by (vm_compute; reflexivity).
  assert (H5 : code first_answer = 200) by (vm_compute; reflexivity).
  do 5 (split; [assumption|]). cbv zeta.
  set (w2 := (run [Wait 1000; Request GET_top_gainers up; Wait 2000]
                (handle GET_trending_coins up (start t0)).2).2).
  assert (H6 : cache w2 !! "trending-coins"
               = cache (handle GET_trending_coins up (start t0)).2 !! "trending-coins")
    by (vm_compute; reflexivity).
  assert (H7 : clock w2 - (clock (start t0) + latency up) < CACHE_DURATION)
    by (vm_compute; reflexivity).
  do 2 (split; [assumption|]).
  exact (hit_replays_answer GET_trending_coins "trending-coins" up down (start t0) w2
           (data first_envelope) first_answer H1 H2 H3 H4 H5 H6 H7).
Defined.

Lemma cleanupCache_clock (w : world) : clock (cleanupCache w).2 = clock w.
Proof.
  unfold cleanupCache. destruct (cleanup_loop (clock w) (cache w)) as [c n].
  by destruct (0 <? n).
Qed.

(** X10. The sweep is not seen by a request that gets fresh data: a request
    of a data route is answered the same, status code and body, right after
    a pass of [cleanupCache] as without the pass, whenever its producer
    returns; and also when the producer throws, unless the entry of the
    route was older than twice [CACHE_DURATION]. *)
Theorem sweep_unseen (rt : route) (k : string) (r : reply) (w : world) :
  key_of rt = Some k ->
  (exists v, produced rt r = Ok v)
  \/ (forall e, cache w !! k = Some e -> age (clock w) e <= CACHE_DURATION * 2) ->
  (handle rt r (cleanupCache w).2).1 = (handle rt r w).1.
Proof.
  intros Hk Hcase. set (w' := (cleanupCache w).2).
  assert (Hclock : clock w' = clock w) by apply cleanupCache_clock.
  assert (Hcache : cache w' = filter (kept (clock w)) (cache w))
    by apply cleanupCache_cache.
  destruct (cache w !! k) as [e|] eqn:He.
  - destruct (decide (age (clock w) e <= CACHE_DURATION * 2)) as [Hkept|Hold].
    + apply (handle_local rt k r Hk). split; [|done].
      rewrite Hcache, He. apply map_lookup_filter_Some. split; [done|].
      by apply kept_age.
    + destruct Hcase as [[v Hv]|Hall]; [|exfalso; apply Hold; by apply Hall].
      assert (Hnone : cache w' !! k = None).
      { rewrite Hcache. apply map_lookup_filter_None. right.
        intros e' He' Hk'%kept_age. rewrite He in He'. injection He' as <-. lia. }
      assert (V1 : valid (clock w) (cache w !! k) = None).
      { apply valid_None. right. exists e. split; [done|]. unfold CACHE_DURATION in *. lia. }
      assert (V2 : valid (clock w') (cache w' !! k) = None) by (by rewrite Hnone).
      rewrite (handle_refresh_conclude rt k r w v Hk V1 Hv).
      rewrite (handle_refresh_conclude rt k r w' v Hk V2 Hv).
      assert (Henv : envelope r v w' = envelope r v w) by (unfold envelope; by rewrite Hclock).
      rewrite Henv. apply conclude_local. unfold alike, stored, refreshed. simpl.
      by rewrite !lookup_insert_eq, Hclock.
  - apply (handle_local rt k r Hk). split; [|done].
    rewrite Hcache, He. apply map_lookup_filter_None. left. done.
Qed.

Lemma sweep_unseen_witness :
  key_of GET_trending_coins = Some "trending-coins"
  /\ (exists v, produced GET_trending_coins up = Ok v)
  /\ (handle GET_trending_coins up (cleanupCache two_entries).2).1
     = (handle GET_trending_coins up two_entries).1.
Proof.
  assert (H1 : key_of GET_trending_coins = Some "trending-coins") by reflexivity.
  assert (H2 : exists v, produced GET_trending_coins up = Ok v)
    by (eexists; reflexivity).
  do 2 (split; [assumption|]).
  exact (sweep_unseen GET_trending_coins "trending-coins" up two_entries H1
           (or_introl H2)).
Defined.

(** *** The two routes of the cache itself *)

(** X11. DELETE /cache. The answer reports how many entries there were; the
    cache is empty afterwards, the time and what was sent are as before;
    and every data route then answers as a process that has just started
    would. *)
Theorem clear_cache_law (r : reply) (w : world) :
  let w' := (handle DELETE_cache r w).2 in
  (handle DELETE_cache r w).1
  = Ok {| code := 200;
          body := Obj [("status", Str "success");
                       ("message",
                        Str ("Cleared " ++ Str.of_Z (Z.of_nat (size (cache w)))
                             ++ " cache entries"));
                       ("timestamp", Str (Date.toISOString (clock w)))] |}
  /\ cache w' = ∅
  /\ clock w' = clock w
  /\ trace w' = trace w
  /\ (forall (rt : route) (k : string) (r' : reply),
        key_of rt = Some k ->
        (handle rt r' w').1 = (handle rt r' (start (clock w))).1
        /\ fetches (trace (handle rt r' w').2) = S (fetches (trace w))).
Proof.
  intros w'. do 4 (split; [reflexivity|]). intros rt k r' Hk. split.
  - apply (handle_local rt k r' Hk). by split.
  - rewrite (handle_fetches rt k r' w' Hk). unfold w'. simpl.
    by rewrite lookup_empty.
Qed.

Lemma clear_cache_law_witness :
  key_of GET_top_gainers = Some "top-gainers"
  /\ (handle GET_top_gainers up (handle DELETE_cache up two_entries).2).1
     = (handle GET_top_gainers up (start (clock two_entries))).1.
Proof.
  assert (H1 : key_of GET_top_gainers = Some "top-gainers") by reflexivity.
  split; [assumption|].
  destruct (clear_cache_law up two_entries) as (_ & _ & _ & _ & H).
  exact (proj1 (H GET_top_gainers "top-gainers" up H1)).
Defined.

(** X12. GET /cache-status reads the cache and changes nothing. It lists one
    record for each entry, and [totalCacheEntries] is their number. For an
    entry of age [ms] milliseconds the record gives the age in whole
    seconds; [remainingSeconds] is 0 exactly when [getCachedData] no
    longer serves the entry ([ms >= CACHE_DURATION]); [expired] is true
    only from 301 seconds on, so that an entry between 300 and 301 seconds
    old is reported as not expired with no time remaining. *)
Theorem cache_status_law (r : reply) (w : world) :
  exists entries,
    handle GET_cache_status r w
    = (Ok {| code := 200;
             body := Obj [("status", Str "success");
                          ("timestamp", Str (Date.toISOString (clock w)));
                          ("cacheDurationSeconds", Number (Num.of_Z 300));
                          ("totalCacheEntries",
                           Number (Num.of_Z (Z.of_nat (length entries))));
                          ("cacheEntries", Arr entries)] |},
       w)
    /\ length entries = size (cache w)
    /\ (forall x, x ∈ entries <->
          exists k e,
            cache w !! k = Some e
            /\ x = Obj [("key", Str k);
                        ("ageSeconds", Number (Num.of_Z (age (clock w) e / 1000)));
                        ("remainingSeconds",
                         Number (Num.of_Z (Z.max 0 (300 - age (clock w) e / 1000))));
                        ("expired", Bool (300 <? age (clock w) e / 1000))])
    /\ (forall k e,
          cache w !! k = Some e ->
          (Z.max 0 (300 - age (clock w) e / 1000) = 0
           <-> valid (clock w) (Some e) = None)
          /\ ((300 <? age (clock w) e / 1000) = true
              <-> 301000 <= age (clock w) e)).
Proof.
  exists (cacheInfo (clock w) <$> map_to_list (cache w)).
  split; [|split; [|split]].
  - simpl. unfold cache_status. rewrite length_fmap, length_map_to_list. reflexivity.
  - by rewrite length_fmap, length_map_to_list.
  - intros x. rewrite list_elem_of_fmap. split.
    + intros ([k e] & -> & Hin%elem_of_map_to_list). by exists k, e.
    + intros (k & e & He & ->). exists (k, e). split; [done|].
      by apply elem_of_map_to_list.
  - intros k e He. rewrite valid_None. unfold age, CACHE_DURATION.
    set (ms := clock w - entry_timestamp e).
    pose proof (Z.div_mod ms 1000 ltac:(lia)) as Hdm.
    pose proof (Z.mod_pos_bound ms 1000 ltac:(lia)) as Hmod.
    split.
    + split.
      * intros Hmax. right. exists e. split; [done|]. lia.
      * intros [? | (c & [= <-] & Hold)]; [done|]. fold ms in Hold. lia.
    + rewrite Z.ltb_lt. lia.
Qed.

Lemma cache_status_law_witness :
  cache two_entries !! "trending-coins" = Some first_entry
  /\ ((300 <? age (clock two_entries) first_entry / 1000) = true
      <-> 301000 <= age (clock two_entries) first_entry).
Proof.
  assert (H1 : cache two_entries !! "trending-coins" = Some first_entry)
    by (vm_compute; reflexivity).
  split; [assumption|].
  destruct (cache_status_law up two_entries) as (entries & _ & _ & _ & H).
  exact (proj2 (H "trending-coins" first_entry H1)).
Defined.

End RouteProperties.

(** ** The scrapers: what they make of a page *)

Module ScraperProperties.

Import Num Str JS Json Utils Server Scrapers Index Spec Examples Text Details Notions Scenes.
Import CacheLaws RouteLaws SweepLaws Invariants RouteProperties.

#[local] Set Warnings "-clear-no-such-hyp".

Lemma scraper_result (rt : route) (k : string) (r : reply) (w : world) :
  key_of rt = Some k -> (scraper_of rt r w).1 = produced rt r.
Proof. intros Hk. by rewrite (scraper_run rt k r w Hk). Qed.

Lemma each_push {A : Type} (record : A -> value) (rows : list A) :
  forall acc : list value,
    each (fun results element => ((results ++ [record element])%list, true)) acc rows
    = (acc ++ (record <$> rows))%list.
Proof.
  induction rows as [|x rows IH]; intros acc; cbn [each fmap list_fmap].
  - by rewrite app_nil_r.
  - rewrite IH, <- app_assoc. reflexivity.
Qed.

(** X13. scrapeTrendingCoins returns one record for every row of the
    trending table, in the order of the table: no row is skipped (sponsored
    or not) and the list is not cut at ten. A failure of the network is
    thrown on with its message. *)
Theorem trending_coins_scraped (r : reply) (w : world) :
  (scrapeTrendingCoins r w).1
  = match answer r with
    | inl p => Ok (Arr (trendingCoin <$> trending_coins_table p))
    | inr message => Throw message
    end.
Proof.
  change (scrapeTrendingCoins r w) with (scraper_of GET_trending_coins r w).
  rewrite (scraper_result GET_trending_coins _ r w eq_refl).
  unfold produced. destruct (answer r) as [p|m]; [|done].
  unfold parsed. by rewrite each_push.
Qed.

Lemma trendingCategory_href (element : category_item) :
  match href element with
  | Some _ => exists c, trendingCategory element = Ok c
  | None => trendingCategory element
            = Throw "Cannot read properties of undefined (reading 'startsWith')"
  end.
Proof. unfold trendingCategory. destruct (href element); eauto. Qed.

Lemma each_categories_ok (items : list category_item) :
  Forall (fun item => is_Some (href item)) items ->
  forall acc, exists l,
    each_throwing push_category acc items = Ok (acc ++ l)%list
    /\ Forall2 (fun item c => trendingCategory item = Ok c) items l.
Proof.
  induction 1 as [|item items [u Hu] _ IH]; intros acc.
  - exists []. by rewrite app_nil_r.
  - pose proof (trendingCategory_href item) as Hc. rewrite Hu in Hc.
    destruct Hc as [c Hc]. cbn [each_throwing]. unfold push_category at 1.
    rewrite Hc. destruct (IH (acc ++ [c])%list) as (l & -> & Hl).
    exists (c :: l). rewrite <- app_assoc. split; [done|]. by constructor.
Qed.

Lemma each_categories_throw (items : list category_item) :
  Exists (fun item => href item = None) items ->
  forall acc,
    each_throwing push_category acc items
    = Throw "Cannot read properties of undefined (reading 'startsWith')".
Proof.
  induction items as [|item items IH]; intros Hex acc; [by apply Exists_nil in Hex|].
  pose proof (trendingCategory_href item) as Hc.
  cbn [each_throwing]. unfold push_category at 1.
  destruct (href item) as [u|] eqn:Hu.
  - destruct Hc as [c ->]. apply IH.
    apply Exists_cons in Hex as [Hex|Hex]; [congruence | done].
  - by rewrite Hc.
Qed.

(** X14. scrapeTrendingCategories is all or nothing. When every category
    element of the page has an [href], the function returns one record for
    each element, in order. When one element has none, the function throws
    the TypeError of [undefined.startsWith] and returns no list at all,
    whatever the other elements are. *)
Theorem trending_categories_scraped (r : reply) (p : page) (w : world) :
  answer r = inl p ->
  (Forall (fun item => is_Some (href item)) (trending_categories__item p) ->
   exists l,
     (scrapeTrendingCategories r w).1 = Ok (Arr l)
     /\ Forall2 (fun item c => trendingCategory item = Ok c)
          (trending_categories__item p) l)
  /\ (Exists (fun item => href item = None) (trending_categories__item p) ->
      (scrapeTrendingCategories r w).1
      = Throw "Cannot read properties of undefined (reading 'startsWith')").
Proof.
  intros Hp.
  change (scrapeTrendingCategories r w) with (scraper_of GET_trending_categories r w).
  rewrite (scraper_result GET_trending_categories _ r w eq_refl).
  unfold produced. rewrite Hp. unfold parsed. fold push_category. split.
  - intros Hall. destruct (each_categories_ok _ Hall []) as (l & -> & Hl).
    by exists l.
  - intros Hex. by rewrite (each_categories_throw _ Hex []).
Qed.

Lemma trending_categories_scraped_witness :
  answer front = inl (front_page [Some "/coins/defi"; Some "https://x.io/l2"])
  /\ Forall (fun item => is_Some (href item))
       (trending_categories__item (front_page [Some "/coins/defi"; Some "https://x.io/l2"]))
  /\ exists l,
       (scrapeTrendingCategories front (start t0)).1 = Ok (Arr l)
       /\ Forall2 (fun item c => trendingCategory item = Ok c)
            (trending_categories__item
               (front_page [Some "/coins/defi"; Some "https://x.io/l2"])) l.
Proof.
  assert (H1 : answer front
               = inl (front_page [Some "/coins/defi"; Some "https://x.io/l2"]))
    by reflexivity.
  assert (H2 : Forall (fun item => is_Some (href item))
                 (trending_categories__item
                    (front_page [Some "/coins/defi"; Some "https://x.io/l2"])))
    by (repeat constructor; eexists; reflexivity).
  do 2 (split; [assumption|]).
  exact (proj1 (trending_categories_scraped front _ (start t0) H1) H2).
Defined.

Lemma each_btc_skip (rows : list stats_row) (s : option number) :
  Forall (fun row => names_dominance row = false) rows ->
  each btc_callback s rows = s.
Proof.
  induction 1 as [|row rows Hrow _ IH]; [done|].
  cbn [each]. unfold btc_callback at 1. fold (names_dominance row).
  by rewrite Hrow.
Qed.

Lemma each_btc_first (before after : list stats_row) (row : stats_row)
    (s : option number) :
  Forall (fun row => names_dominance row = false) before ->
  names_dominance row = true ->
  each btc_callback s (before ++ row :: after)
  = Some (parseFloat (strip (trim (key_value_table_auto_nav row)))).
Proof.
  intros Hb Hrow. induction Hb as [|x before Hx _ IH].
  - cbn [app each]. unfold btc_callback at 1. fold (names_dominance row).
    by rewrite Hrow.
  - cbn [app each]. unfold btc_callback at 1. fold (names_dominance x).
    by rewrite Hx.
Qed.

(** X15. scrapeBTCDominance reads the first row of the statistics table
    whose title contains "BTC dominance" and ignores the rows after it.
    When the page has no such row the function does not return a null
    value: it throws the TypeError of [null.toFixed]. *)
Theorem btc_dominance_scraped (r : reply) (p : page) (w : world) :
  answer r = inl p ->
  (Forall (fun row => includes (trim (th row)) "BTC dominance" = false) (stats_table p) ->
   (scrapeBTCDominance r w).1
   = Throw "Cannot read properties of null (reading 'toFixed')")
  /\ (forall before row after,
        stats_table p = (before ++ row :: after)%list ->
        Forall (fun row => includes (trim (th row)) "BTC dominance" = false) before ->
        includes (trim (th row)) "BTC dominance" = true ->
        let x := parseFloat (strip (trim (key_value_table_auto_nav row))) in
        (scrapeBTCDominance r w).1
        = Ok (Obj [("btcDominance", Number x);
                   ("btcDominanceFormatted", Str (toFixed x 2 ++ "%"))])).
Proof.
  intros Hp.
  change (scrapeBTCDominance r w) with (scraper_of GET_btc_dominance r w).
  rewrite (scraper_result GET_btc_dominance _ r w eq_refl).
  unfold produced. rewrite Hp. unfold parsed. split.
  - intros Hnone. by rewrite (each_btc_skip _ None Hnone).
  - cbv zeta. intros before row after Hrows Hb Hrow.
    by rewrite Hrows, (each_btc_first before after row None Hb Hrow).
Qed.

Lemma btc_dominance_scraped_witness :
  answer front = inl (front_page [Some "/coins/defi"; Some "https://x.io/l2"])
  /\ includes (trim " BTC dominance ") "BTC dominance" = true
  /\ (scrapeBTCDominance front (start t0)).1
     = Ok (Obj [("btcDominance", Number (parseFloat "54.3"));
                ("btcDominanceFormatted", Str "54.30%")]).
Proof.
  assert (H1 : answer front
               = inl (front_page [Some "/coins/defi"; Some "https://x.io/l2"]))
    by reflexivity.
  assert (H2 : includes (trim " BTC dominance ") "BTC dominance" = true)
    by (vm_compute; reflexivity).
  do 2 (split; [assumption|]).
  refine (proj2 (btc_dominance_scraped front _ (start t0) H1)
            [{| th := " Coins "; key_value_table_auto_nav := " 12,345 " |}]
            {| th := " BTC dominance "; key_value_table_auto_nav := " 54.3% " |}
            [{| th := "BTC dominance (7d)"; key_value_table_auto_nav := "51.0%" |}]
            eq_refl _ H2).
  repeat constructor.
Defined.

(** X16. GET /btc-dominance on a refresh: the answer is 200 with the
    envelope as it is, without [count], when the value read from the page
    is a number other than zero; when the value is 0 or NaN the answer is
    404. In both cases the envelope has been stored. *)
Theorem btc_dominance_answer (r : reply) (w : world) (d : value) :
  valid (clock w) (cache w !! "btc-dominance") = None ->
  produced GET_btc_dominance r = Ok d ->
  let t := clock w + latency r in
  exists x,
    d = Obj [("btcDominance", Number x);
             ("btcDominanceFormatted", Str (toFixed x 2 ++ "%"))]
    /\ (handle GET_btc_dominance r w).1
       = Ok (match x with
             | S754_nan | S754_zero _ =>
                 {| code := 404;
                    body := Obj [("status", Str "error");
                                 ("message", Str "No BTC dominance data found");
                                 ("timestamp", Str (Date.toISOString t))] |}
             | _ =>
                 {| code := 200;
                    body := Obj [("status", Str "success");
                                 ("timestamp", Str (Date.toISOString t));
                                 ("data", d)] |}
             end)
    /\ cache (handle GET_btc_dominance r w).2 !! "btc-dominance"
       = Some {| entry_data := {| status := "success";
                                  timestamp := Date.toISOString t;
                                  data := d |};
                 entry_timestamp := t |}.
Proof.
  intros Hv Hd t.
  rewrite (handle_refresh GET_btc_dominance _ r w d eq_refl Hv Hd).
  unfold produced, parsed in Hd.
  destruct (answer r) as [p|m]; [|discriminate].
  destruct (each btc_callback None (stats_table p)) as [x|]; [|discriminate].
  injection Hd as <-. exists x. split; [done|].
  set (d := Obj [("btcDominance", Number x);
                 ("btcDominanceFormatted", Str (toFixed x 2 ++ "%"))]).
  assert (Hc : cache (stored GET_btc_dominance "btc-dominance" r d w) !! "btc-dominance"
               = Some {| entry_data := {| status := "success";
                                          timestamp := Date.toISOString t;
                                          data := d |};
                         entry_timestamp := t |}).
  { unfold stored, refreshed. cbn [cache]. by rewrite lookup_insert_eq. }
  cbn [respond_of]. unfold respond_btc, not_found, lift, property.
  unfold mbind, M_bind, bind, mret, M_ret, ret, Date_now.
  unfold envelope at 1. cbn [data]. unfold d at 1.
  cbn [Json.get String.eqb Ascii.eqb Bool.eqb].
  destruct x as [s| | |s m e]; cbn [truthy negb fst snd];
    (split; [reflexivity | exact Hc]).
Qed.

Lemma btc_dominance_answer_witness :
  valid (clock (start t0)) (cache (start t0) !! "btc-dominance") = None
  /\ produced GET_btc_dominance front = Ok front_dominance
  /\ exists x,
       front_dominance = Obj [("btcDominance", Number x);
                              ("btcDominanceFormatted", Str (toFixed x 2 ++ "%"))]
       /\ (handle GET_btc_dominance front (start t0)).1
          = Ok (match x with
                | S754_nan | S754_zero _ =>
                    {| code := 404;
                       body := Obj [("status", Str "error");
                                    ("message", Str "No BTC dominance data found");
                                    ("timestamp",
                                     Str (Date.toISOString (clock (start t0) + latency front)))] |}
                | _ =>
                    {| code := 200;
                       body := Obj [("status", Str "success");
                                    ("timestamp",
                                     Str (Date.toISOString (clock (start t0) + latency front)));
                                    ("data", front_dominance)] |}
                end).
Proof.
  assert (H1 : valid (clock (start t0)) (cache (start t0) !! "btc-dominance") = None)
    by reflexivity.
  assert (H2 : produced GET_btc_dominance front = Ok front_dominance)
    by (vm_compute; reflexivity).
  do 2 (split; [assumption|]).
  destruct (btc_dominance_answer front (start t0) front_dominance H1 H2)
    as (x & Hx & Hres & _).
  exists x. split; assumption.
Defined.

(** *** The details of a coin *)

(** A loop that never stops and assigns [f x] to a variable at the items
    of label [l] leaves in it what the last such item gave. *)
Lemma each_field {S V : Type} (cb : S -> cion_item -> S * bool) (proj : S -> V)
    (l : string) (f : cion_item -> V) :
  (forall s x, (cb s x).2 = true) ->
  (forall s x, proj (cb s x).1 = if String.eqb (label_of x) l then f x else proj s) ->
  forall items s,
    proj (each cb s items)
    = match last_labelled l items with
      | Some e => f e
      | None => proj s
      end.
Proof.
  intros Hcont Hstep. induction items as [|x items IH]; intros s; [done|].
  cbn [each last_labelled]. specialize (Hcont s x). specialize (Hstep s x).
  destruct (cb s x) as [s' c]. simpl in *. subst c.
  rewrite IH. destruct (last_labelled l items); [done|].
  rewrite Hstep. by destruct (String.eqb _ _).
Qed.

Ltac by_label :=
  intros s x; cbv beta delta [market_cap_loop volume_loop ath_loop changes_loop
                               supply_loop trading_loop] zeta;
  repeat match goal with
    | |- context [String.eqb (label_of x) ?L] =>
        let Heq := fresh "Heq" in
        destruct (String.eqb_spec (label_of x) L) as [Heq|?];
        [try rewrite Heq in *|]
    end;
  try reflexivity; try discriminate.

Lemma pair_loop (cb : value * value -> cion_item -> (value * value) * bool)
    (l : string) (f g : cion_item -> value) (items : list cion_item) :
  (forall s x, cb s x = if String.eqb (label_of x) l then ((f x, g x), true) else (s, true)) ->
  each cb (Null, Null) items = (found l f items, found l g items).
Proof.
  intros Hcb.
  rewrite (each_field cb (fun s => s) l (fun x => (f x, g x))).
  - unfold found. by destruct (last_labelled l items).
  - intros s x. rewrite Hcb. by destruct (String.eqb _ _).
  - intros s x. rewrite Hcb. by destruct (String.eqb _ _).
Qed.

Lemma loops_continue :
  (forall s x, (changes_loop s x).2 = true)
  /\ (forall s x, (supply_loop s x).2 = true)
  /\ (forall s x, (trading_loop s x).2 = true).
Proof. by repeat split. Qed.

(** The result of the function, each loop replaced by what it finds. *)
Lemma details_of_found (p : details_page) :
  let items := cion_items p in
  details_of p
  = Obj [("name", Str (trim (coin_name p)));
         ("symbol", Str (trim (price_container_rate p)));
         ("price", Number (parseFloat (strip (trim (coin_price_large_price p)))));
         ("priceFormatted", Str (trim (coin_price_large_price p)));
         ("marketCap",
          found "market cap" (fun e => Number (marketCapTextToNum (price_text e))) items);
         ("marketCapFormatted", found "market cap" (fun e => Str (price_text e)) items);
         ("volume24h",
          found "volume" (fun e => Number (marketCapTextToNum (price_text e))) items);
         ("volume24hFormatted", found "volume" (fun e => Str (price_text e)) items);
         ("allTimeHigh",
          found "all time high" (fun e => Number (parseFloat (strip (span_text e)))) items);
         ("allTimeHighFormatted", found "all time high" (fun e => Str (span_text e)) items);
         ("priceChanges",
          Obj [("1h", found "1h usd" change_of items);
               ("24h", found "24h usd" change_of items);
               ("7d", found "7d usd" change_of items);
               ("30d", found "30d usd" change_of items);
               ("90d", found "90d usd" change_of items);
               ("1y", found "1y usd" change_of items)]);
         ("supply",
          Obj [("circulating",
                found "circ. supply" (fun e => Number (supply (price_text e))) items);
               ("circulatingFormatted",
                found "circ. supply" (fun e => Str (price_text e)) items);
               ("total",
                found "total supply" (fun e => Number (supply (price_text e))) items);
               ("totalFormatted",
                found "total supply" (fun e => Str (price_text e)) items);
               ("max",
                found "max supply" (fun e => Number (supply (price_text e))) items);
               ("maxFormatted",
                found "max supply" (fun e => Str (price_text e)) items)]);
         ("trading24h",
          Obj [("range", found "24 hr range" span_number items);
               ("low", found "24 hr low" span_number items);
               ("high", found "24 hr high" span_number items)])].
Proof.
  intros items. unfold details_of. fold items.
  destruct loops_continue as (C1 & C2 & C3).
  rewrite (pair_loop market_cap_loop "market cap"
             (fun e => Number (marketCapTextToNum (price_text e)))
             (fun e => Str (price_text e))) by done.
  rewrite (pair_loop volume_loop "volume"
             (fun e => Number (marketCapTextToNum (price_text e)))
             (fun e => Str (price_text e))) by done.
  rewrite (pair_loop ath_loop "all time high"
             (fun e => Number (parseFloat (strip (span_text e))))
             (fun e => Str (span_text e))) by done.
  rewrite (each_field changes_loop change_1h "1h usd" change_of C1) by by_label.
  rewrite (each_field changes_loop change_24h "24h usd" change_of C1) by by_label.
  rewrite (each_field changes_loop change_7d "7d usd" change_of C1) by by_label.
  rewrite (each_field changes_loop change_30d "30d usd" change_of C1) by by_label.
  rewrite (each_field changes_loop change_90d "90d usd" change_of C1) by by_label.
  rewrite (each_field changes_loop change_1y "1y usd" change_of C1) by by_label.
  rewrite (each_field supply_loop (fun s => (circulatingSupply s).1) "circ. supply"
             (fun e => Number (supply (price_text e))) C2) by by_label.
  rewrite (each_field supply_loop (fun s => (circulatingSupply s).2) "circ. supply"
             (fun e => Str (price_text e)) C2) by by_label.
  rewrite (each_field supply_loop (fun s => (totalSupply s).1) "total supply"
             (fun e => Number (supply (price_text e))) C2) by by_label.
  rewrite (each_field supply_loop (fun s => (totalSupply s).2) "total supply"
             (fun e => Str (price_text e)) C2) by by_label.
  rewrite (each_field supply_loop (fun s => (maxSupply s).1) "max supply"
             (fun e => Number (supply (price_text e))) C2) by by_label.
  rewrite (each_field supply_loop (fun s => (maxSupply s).2) "max supply"
             (fun e => Str (price_text e)) C2) by by_label.
  rewrite (each_field trading_loop range24h "24 hr range" span_number C3) by by_label.
  rewrite (each_field trading_loop low24h "24 hr low" span_number C3) by by_label.
  rewrite (each_field trading_loop high24h "24 hr high" span_number C3) by by_label.
  reflexivity.
Qed.

Lemma details_result (coinName coinSymbol : string) (r : details_reply) (w : world) :
  (scrapeLiveCoinWatchCoinDetailsByNameAndSymbol coinName coinSymbol r w).1
  = match details_answer r with
    | inl p => Ok (details_of p)
    | inr message => Throw message
    end.
Proof.
  unfold scrapeLiveCoinWatchCoinDetailsByNameAndSymbol, details_get, try_catch.
  unfold mbind, M_bind, bind, mret, M_ret, ret, emit, sleep, throw.
  cbn [fst snd]. by destruct (details_answer r).
Qed.

(** X17. The details of a coin: every field that is looked up among the
    items of the page holds what is read from the last item carrying the
    label of the field, and [null] when no item carries it. The labels are
    compared after trimming and lower-casing. *)
Theorem details_last_item (coinName coinSymbol : string) (r : details_reply)
    (p : details_page) (w : world) :
  details_answer r = inl p ->
  exists fields priceChanges supply trading24h,
    (scrapeLiveCoinWatchCoinDetailsByNameAndSymbol coinName coinSymbol r w).1
    = Ok (Obj fields)
    /\ Json.get "priceChanges" fields = Some (Obj priceChanges)
    /\ Json.get "supply" fields = Some (Obj supply)
    /\ Json.get "trading24h" fields = Some (Obj trading24h)
    /\ (forall field l reader,
          (field, l, reader) ∈ item_fields ->
          Json.get field fields = Some (found l reader (cion_items p)))
    /\ (forall field l reader,
          (field, l, reader) ∈ change_fields ->
          Json.get field priceChanges = Some (found l reader (cion_items p)))
    /\ (forall field l reader,
          (field, l, reader) ∈ supply_fields ->
          Json.get field supply = Some (found l reader (cion_items p)))
    /\ (forall field l reader,
          (field, l, reader) ∈ trading_fields ->
          Json.get field trading24h = Some (found l reader (cion_items p))).
Proof.
  intros Hp. rewrite details_result, Hp, details_of_found.
  eexists _, _, _, _. split; [reflexivity|].
  do 3 (split; [reflexivity|]).
  repeat split; intros field l reader Hin;
    repeat (apply elem_of_cons in Hin as [[= -> -> ->] | Hin]; [reflexivity|]);
    by apply elem_of_nil in Hin.
Qed.

Lemma details_last_item_witness :
  details_answer details_up = inl details_example
  /\ found "market cap" (fun e => Str (price_text e)) (cion_items details_example)
     = Str "$1.32T"
  /\ exists fields priceChanges supply trading24h,
       (scrapeLiveCoinWatchCoinDetailsByNameAndSymbol ":bitcoin" ":btc" details_up
          (start t0)).1
       = Ok (Obj fields)
       /\ Json.get "priceChanges" fields = Some (Obj priceChanges)
       /\ Json.get "supply" fields = Some (Obj supply)
       /\ Json.get "trading24h" fields = Some (Obj trading24h)
       /\ (forall field l reader,
             (field, l, reader) ∈ item_fields ->
             Json.get field fields = Some (found l reader (cion_items details_example)))
       /\ (forall field l reader,
             (field, l, reader) ∈ change_fields ->
             Json.get field priceChanges
             = Some (found l reader (cion_items details_example)))
       /\ (forall field l reader,
             (field, l, reader) ∈ supply_fields ->
             Json.get field supply = Some (found l reader (cion_items details_example)))
       /\ (forall field l reader,
             (field, l, reader) ∈ trading_fields ->
             Json.get field trading24h
             = Some (found l reader (cion_items details_example))).
Proof.
  assert (H : details_answer details_up = inl details_example) by reflexivity.
  split; [assumption|]. split; [vm_compute; reflexivity|].
  exact (details_last_item ":bitcoin" ":btc" details_up details_example (start t0) H).
Defined.

Lemma includes_space (s : string) : includes s " " = negb (spaceless s).
Proof.
  induction s as [|c s IH]; [done|].
  cbn [includes spaceless]. rewrite IH.
  change (String.prefix " " (String c s))
    with (if Ascii.ascii_dec " " c then String.prefix EmptyString s else false).
  destruct (Ascii.ascii_dec " " c) as [<-|Hne].
  - by destruct s.
  - assert (Ascii.eqb c " " = false) as -> by (apply Ascii.eqb_neq; congruence).
    simpl. by destruct (spaceless s).
Qed.

Lemma spaceless_app (a b : string) :
  spaceless (a ++ b) = spaceless a && spaceless b.
Proof.
  induction a as [|c a IH]; [done|].
  change (String c a ++ b)%string with (String c (a ++ b)).
  cbn [spaceless]. by rewrite IH, andb_assoc.
Qed.

Lemma case_char_space (c : ascii) :
  Ascii.eqb (upper_char c) " " = Ascii.eqb c " "
  /\ Ascii.eqb (lower_char c) " " = Ascii.eqb c " ".
Proof. by destruct c as [[] [] [] [] [] [] [] []]. Qed.

Lemma spaceless_map (s : string) :
  spaceless (toUpperCase s) = spaceless s /\ spaceless (toLowerCase s) = spaceless s.
Proof.
  induction s as [|c s [IH1 IH2]]; [done|].
  unfold toUpperCase, toLowerCase in *. cbn [map_chars spaceless].
  destruct (case_char_space c) as [-> ->]. by rewrite IH1, IH2.
Qed.

Lemma spaceless_capitalise (word : string) :
  spaceless word = true -> spaceless (capitalise word) = true.
Proof.
  intros Hw. unfold capitalise. rewrite spaceless_app.
  destruct word as [|c word]; [done|].
  cbn [spaceless] in Hw. apply andb_true_iff in Hw as [Hc Hw].
  cbn [charAt0 slice1].
  rewrite (proj1 (spaceless_map (String c EmptyString))),
    (proj2 (spaceless_map word)).
  cbn [spaceless]. by rewrite Hc, Hw.
Qed.

Lemma split_spaceless (s : string) :
  Forall (fun word => spaceless word = true) (split " " s)
  /\ split " " s <> [].
Proof.
  induction s as [|c s [IH Hne]]; [by split; [repeat constructor|]|].
  cbn [split]. destruct (Ascii.eqb c " ") eqn:Hc.
  - split; [by constructor|done].
  - destruct (split " " s) as [|w ws]; [done|].
    apply Forall_cons in IH as [Hw Hws]. split; [|done].
    constructor; [|done]. cbn [spaceless]. by rewrite Hc, Hw.
Qed.

Lemma join_spaceless (words : list string) :
  Forall (fun word => spaceless word = true) words -> spaceless (join words) = true.
Proof.
  induction 1 as [|w ws Hw _ IH]; [done|].
  cbn [join]. by rewrite spaceless_app, Hw, IH.
Qed.

Lemma split_one_word (s : string) :
  spaceless s = true -> split " " s = [s].
Proof.
  induction s as [|c s IH]; [done|].
  cbn [spaceless]. intros [Hc Hs]%andb_true_iff.
  cbn [split]. apply negb_true_iff in Hc. by rewrite Hc, (IH Hs).
Qed.

(** X18. The address asked for the details of a coin, for a name and a
    symbol of ASCII characters. No space of the name reaches it; the first
    character of the name as it is put together, and the first character of
    the symbol, are dropped. For a name of one word the address is made of
    the rest of the name in lower case and the rest of the symbol in upper
    case: the caller has to pass both with one character in front. *)
Theorem details_url_shape (coinName coinSymbol : string) :
  ascii_text coinName = true ->
  ascii_text coinSymbol = true ->
  includes (formattedName coinName) " " = false
  /\ formattedSymbol coinSymbol = toUpperCase (slice1 coinSymbol)
  /\ (forall c rest,
        coinName = String c rest ->
        includes coinName " " = false ->
        details_url coinName coinSymbol
        = ("https://www.livecoinwatch.com/price/" ++ toLowerCase rest ++ "-"
           ++ toUpperCase (slice1 coinSymbol))%string).
Proof.
  intros _ _.
  assert (Hsym : formattedSymbol coinSymbol = toUpperCase (slice1 coinSymbol))
    by (by destruct coinSymbol).
  split; [|split; [exact Hsym|]].
  - rewrite includes_space. apply negb_false_iff.
    unfold formattedName.
    assert (H : spaceless (join (capitalise <$> split " " coinName)) = true).
    { apply join_spaceless. apply Forall_fmap.
      eapply Forall_impl; [apply split_spaceless|].
      intros word Hw. by apply spaceless_capitalise. }
    destruct (join _) as [|c s]; [done|].
    cbn [spaceless] in H. by apply andb_true_iff in H as [_ H].
  - intros c rest -> Hns. rewrite includes_space in Hns.
    apply negb_false_iff in Hns.
    unfold details_url, formattedName. rewrite Hsym, (split_one_word _ Hns).
    cbn [fmap list_fmap join]. unfold capitalise. cbn [charAt0 slice1].
    change (toUpperCase (String c EmptyString) ++ toLowerCase rest)%string
      with (String (upper_char c) (toLowerCase rest)).
    assert (E : forall a b : string,
               slice1 (String (upper_char c) a ++ b)%string = (a ++ b)%string) by done.
    rewrite E. clear E.
    assert (E : (toLowerCase rest ++ "")%string = toLowerCase rest).
    { induction (toLowerCase rest) as [|x s IH]; [done|].
      change (String x s ++ "")%string with (String x (s ++ "")). by rewrite IH. }
    by rewrite E.
Qed.

Lemma details_url_shape_witness :
  ascii_text ":bitcoin" = true
  /\ ascii_text ":btc" = true
  /\ includes ":bitcoin" " " = false
  /\ details_url ":bitcoin" ":btc" = "https://www.livecoinwatch.com/price/bitcoin-BTC".
Proof.
  assert (H1 : ascii_text ":bitcoin" = true) by reflexivity.
  assert (H2 : ascii_text ":btc" = true) by reflexivity.
  assert (H : includes ":bitcoin" " " = false) by reflexivity.
  do 3 (split; [assumption|]).
  exact (proj2 (proj2 (details_url_shape ":bitcoin" ":btc" H1 H2))
           ":"%char "bitcoin" eq_refl H).
Defined.

End ScraperProperties.

(** ** The canonicalisation engine: edge cases and fixed points *)

Module EngineProperties.

Import Num Str JS Utils Claimed Text EngineLaws Digits Rounding RoundTrip.

Lemma strip_digitless (s : string) :
  digitless s = true -> punctuation (strip s) = true.
Proof.
  unfold strip. induction s as [|c s IH]; [done|].
  cbn [digitless Str.filter].
  intros [Hc Hs]%andb_true_iff. unfold numeric_char.
  destruct (is_digit c); [done|]. rewrite orb_false_l.
  destruct (Ascii.eqb c "." || Ascii.eqb c "-") eqn:Hp; [|exact (IH Hs)].
  cbn [punctuation]. rewrite Hp. exact (IH Hs).
Qed.

Lemma punctuation_head (c : ascii) (s : string) :
  punctuation (String c s) = true ->
  (c = "."%char \/ c = "-"%char) /\ punctuation s = true.
Proof.
  cbn [punctuation]. intros [Hc Hs]%andb_true_iff. split; [|done].
  apply orb_true_iff in Hc as [Hc|Hc]; apply Ascii.eqb_eq in Hc; auto.
Qed.

Lemma span_digits_punctuation (s : string) :
  punctuation s = true -> span_digits s = (EmptyString, s).
Proof.
  destruct s as [|c s]; [done|].
  intros [[-> | ->] _]%punctuation_head; reflexivity.
Qed.

Lemma parse_unsigned_punctuation (neg : bool) (s : string) :
  punctuation s = true -> parse_unsigned neg s = NaN.
Proof.
  intros Hs. unfold parse_unsigned.
  rewrite (span_digits_punctuation s Hs).
  destruct s as [|c s]; [done|].
  apply punctuation_head in Hs as [[-> | ->] Hs].
  - simpl. by rewrite (span_digits_punctuation s Hs).
  - reflexivity.
Qed.

Lemma parseFloat_punctuation (s : string) :
  punctuation s = true -> parseFloat s = NaN.
Proof.
  intros Hs. destruct s as [|c s]; [done|].
  pose proof Hs as Hs'. apply punctuation_head in Hs' as [[-> | ->] Ht].
  - change (parseFloat (String "." s)) with (parse_unsigned false (String "." s)).
    by apply parse_unsigned_punctuation.
  - change (parseFloat (String "-" s)) with (parse_unsigned true s).
    by apply parse_unsigned_punctuation.
Qed.

(** X19. A text without any digit is read as NaN, whatever scale word it
    holds, and NaN is written "$NaN": a row whose market-cap cell is empty
    or holds no digit gets [marketCap] NaN and [marketCapFormatted]
    "$NaN". *)
Theorem digitless_text_is_NaN (text : string) :
  digitless text = true ->
  marketCapTextToNum text = NaN
  /\ marketCapNumToText (marketCapTextToNum text) = "$NaN".
Proof.
  intros Hd.
  assert (H : marketCapTextToNum text = NaN).
  { unfold marketCapTextToNum.
    rewrite (parseFloat_punctuation _ (strip_digitless text Hd)).
    by repeat destruct (_ || _). }
  by rewrite H.
Qed.

Lemma digitless_text_is_NaN_witness :
  digitless "$ -- M" = true
  /\ marketCapTextToNum "$ -- M" = NaN
  /\ marketCapNumToText (marketCapTextToNum "$ -- M") = "$NaN".
Proof.
  assert (H : digitless "$ -- M" = true) by reflexivity.
  split; [assumption|].
  exact (digitless_text_is_NaN "$ -- M" H).
Defined.

Local Open Scope Q_scope.

Lemma val_lt_compare (ma m : positive) (ea e : Z) :
  normal ma -> normal m ->
  (ea < e)%Z \/ (ea = e /\ (ma < m)%positive) ->
  val ma ea < val m e.
Proof.
  intros [_ Ha] [Hm _] [Hlt | [-> Hle]]; unfold val.
  - pose proof (Qpower_le_compat_l 2 (ea + 1) e ltac:(lia) ltac:(done)) as Hp.
    rewrite pow2_Q_add in Hp. change (2 ^ 1) with 2 in Hp.
    apply inject_Z_lt in Ha. apply inject_Z_le in Hm.
    change (inject_Z (2 ^ 53)) with (9007199254740992 # 1) in Ha.
    change (inject_Z (2 ^ 52)) with (4503599627370496 # 1) in Hm.
    pose proof (pow2_Q_pos ea). pose proof (pow2_Q_pos e).
    set (A := inject_Z (Z.pos ma)) in *. set (M := inject_Z (Z.pos m)) in *.
    set (a := 2 ^ ea) in *. set (b := 2 ^ e) in *.
    apply Qlt_le_trans with ((9007199254740992 # 1) * a).
    + by apply Qmult_lt_compat_r.
    + apply Qle_trans with ((4503599627370496 # 1) * b); [lra|].
      apply Qmult_le_compat_r; [done | by apply Qlt_le_weak].
  - apply Qmult_lt_compat_r; [apply pow2_Q_pos|].
    apply inject_Z_lt. lia.
Qed.

(** The comparison of two normal numbers is that of their values. *)
Lemma geb_val (m ma : positive) (e ea : Z) :
  normal m -> normal ma ->
  geb (S754_finite false m e) (S754_finite false ma ea) = true
  <-> val ma ea <= val m e.
Proof.
  intros Hm Ha. rewrite geb_finite. split.
  - intros [[=] | (m0 & e0 & [= <- <-] & Hc)]. by apply val_le_compare.
  - intros Hle. right. exists m, e. split; [done|].
    destruct (Z.lt_trichotomy ea e) as [Hlt|[Heq|Hgt]]; [by left| |].
    + right. split; [done|]. apply Pos.le_nlt. intros Hlt. subst ea.
      pose proof (val_lt_compare m ma e e Hm Ha ltac:(right; done)) as Hv.
      apply (Qlt_irrefl (val m e)). by apply Qlt_le_trans with (val ma e).
    + exfalso.
      pose proof (val_lt_compare m ma e ea Hm Ha ltac:(left; lia)) as Hv.
      apply (Qlt_irrefl (val m e)). by apply Qlt_le_trans with (val ma ea).
Qed.

Lemma not_geb_val (m ma : positive) (e ea : Z) :
  normal m -> normal ma ->
  val m e < val ma ea ->
  geb (S754_finite false m e) (S754_finite false ma ea) = false.
Proof.
  intros Hm Ha Hlt. apply not_true_false. intros Hge%geb_val; [|done|done].
  apply (Qlt_irrefl (val m e)). by apply Qlt_le_trans with (val ma ea).
Qed.

(** Three roundings of a quotient of at most 999.99 do not move its
    hundredths. *)
Lemma hundredths_kept (N P R D N' : Q) :
  101 <= N -> N <= 99999 ->
  Qabs (P - N * (1 # 100)) <= eps * (N * (1 # 100)) ->
  Qabs (R - P) <= eps * P ->
  Qabs (D - R) <= eps * R ->
  Qabs (N' - 100 * D) <= 1 # 2 ->
  (N - 1 < N' /\ N' < N + 1) /\ 1 < R /\ R < 1000.
Proof.
  unfold eps. change (1 # 2 ^ 52) with (1 # 4503599627370496).
  rewrite !Qabs_Qle_condition. intros H1 H2 [P1 P2] [R1 R2] [D1 D2] [N1 N2].
  repeat split; lra.
Qed.

(** A canonical quotient [n / 100] between 1.01 and 999.99, read and
    multiplied by the scale [S], lies strictly between [S] and [1000 S],
    and its quotient by [S] has the hundredths [n] again. *)
Lemma canonical_value (mS : positive) (eS n : Z) :
  normal mS -> (-40 <= eS <= 0)%Z -> (101 <= n <= 99999)%Z ->
  exists mr er,
    mul (of_decimal false n (-2)) (S754_finite false mS eS) = S754_finite false mr er
    /\ normal mr
    /\ val mS eS < val mr er
    /\ val mr er < 1000 * val mS eS
    /\ toFixed (div (S754_finite false mr er) (S754_finite false mS eS)) 2
       = fixed_digits 2 n.
Proof.
  intros HmS HeS Hn.
  destruct n as [|np|np]; [lia| |lia].
  change (of_decimal false (Z.pos np) (-2)) with (of_ratio false (Z.pos np) (Z.pos 100)).
  pose proof (digits_range np 6 17 ltac:(lia) ltac:(lia)) as Hdig.
  destruct (of_ratio_spec false np 100) as (mp & ep & -> & Hmp & Hep & Hperr).
  { change (Z.pos (digits2_pos 100)) with 7%Z. lia. }
  change (Z.pos (digits2_pos 100)) with 7%Z in Hep.
  destruct (mul_spec false false mp mS ep eS Hmp HmS ltac:(lia))
    as (mr & er & -> & Hmr & Her & Hrerr).
  exists mr, er. split; [reflexivity|]. split; [exact Hmr|].
  destruct (div_spec false false mr mS er eS Hmr HmS ltac:(lia))
    as (m' & e' & Hdiv & Hm' & He' & Hderr).
  destruct (scaled_spec m' e') as (Hn0 & Hs).
  set (S := val mS eS) in *. set (P := val mp ep) in *. set (R := val mr er) in *.
  set (D := val m' e') in *. set (N := inject_Z (Z.pos np)).
  assert (HS : 0 < S) by apply val_pos.
  assert (HSi : 0 < / S) by (by apply Qinv_lt_0_compat).
  assert (HSne : ~ S == 0) by (intros Hz; rewrite Hz in HS; by apply Qlt_irrefl in HS).
  assert (HP : Qabs (P - N * (1 # 100)) <= eps * (N * (1 # 100))).
  { assert (E : Z.pos np # 100 == N * (1 # 100)).
    { unfold N. rewrite (Qmake_Qdiv (Z.pos np) 100). reflexivity. }
    by rewrite <- E. }
  assert (HR : Qabs (R * / S - P) <= eps * P).
  { pose proof (Qabs_scale R (P * S) (eps * (P * S)) (/ S) HSi Hrerr) as H.
    assert (E1 : P * S * / S == P) by (by field).
    assert (E2 : eps * (P * S) * / S == eps * P) by (by field).
    by rewrite E1, E2 in H. }
  assert (HD : Qabs (D - R * / S) <= eps * (R * / S)) by exact Hderr.
  assert (HN1 : 101 <= N) by (unfold N; change 101 with (inject_Z 101); apply inject_Z_le; lia).
  assert (HN2 : N <= 99999)
    by (unfold N; change 99999 with (inject_Z 99999); apply inject_Z_le; lia).
  destruct (hundredths_kept N P (R * / S) D _ HN1 HN2 HP HR HD Hs)
    as ((K1 & K2) & K3 & K4).
  assert (Hsame : scaled 2 m' e' = Z.pos np).
  { unfold N in K1, K2.
    change 1 with (inject_Z 1) in K1, K2.
    rewrite <- inject_Z_plus in K2.
    assert (E : inject_Z (Z.pos np) - inject_Z 1 == inject_Z (Z.pos np - 1)).
    { unfold Z.sub. rewrite inject_Z_plus, inject_Z_opp. reflexivity. }
    rewrite E in K1. rewrite <- Zlt_Qlt in K1, K2. lia. }
  split; [|split].
  - apply (Qmult_lt_compat_r _ _ S HS) in K3.
    assert (E : R * / S * S == R) by (by field).
    by rewrite E, Qmult_1_l in K3.
  - apply (Qmult_lt_compat_r _ _ S HS) in K4.
    assert (E : R * / S * S == R) by (by field).
    by rewrite E in K4.
  - rewrite Hdiv, toFixed_digits, Hsame; [done|].
    apply far_below_ten_21. lia.
Qed.

Lemma scales_apart :
  1000 * val 8589934592000000 (-33) == val 8388608000000000 (-23)
  /\ 1000 * val 8388608000000000 (-23) == val 8192000000000000 (-13).
Proof. split; reflexivity. Qed.

(** X20. The canonical texts are fixed points of the canonicalisation. A
    text "$q trillion", "$q billion" or "$q million" whose quotient [q] is
    written with two decimals and lies between 1.00 and 999.99 is read and
    written back as the same text, as the scrapers do with the market cap
    of every row. *)
Theorem canonical_text_fixed (n : Z) :
  (100 <= n <= 99999)%Z ->
  let q := fixed_digits 2 n in
  marketCapNumToText (marketCapTextToNum ("$" ++ q ++ " trillion"))
  = ("$" ++ q ++ " trillion")%string
  /\ marketCapNumToText (marketCapTextToNum ("$" ++ q ++ " billion"))
     = ("$" ++ q ++ " billion")%string
  /\ marketCapNumToText (marketCapTextToNum ("$" ++ q ++ " million"))
     = ("$" ++ q ++ " million")%string.
Proof.
  intros Hn q. unfold q. clear q.
  destruct (Z.eq_dec n 100%Z) as [->|Hne]; [vm_compute; done|].
  assert (HnT : normal 8192000000000000) by (unfold normal; lia).
  assert (HnB : normal 8388608000000000) by (unfold normal; lia).
  assert (HnM : normal 8589934592000000) by (unfold normal; lia).
  destruct scales_apart as [EMB EBT].
  rewrite text_trillion, text_billion, text_million by lia.
  rewrite trillion_eq, billion_eq, million_eq.
  split; [|split].
  - destruct (canonical_value 8192000000000000 (-13) n HnT ltac:(lia) ltac:(lia))
      as (mr & er & -> & Hmr & Hlo & Hhi & Htext).
    unfold marketCapNumToText. rewrite trillion_eq.
    assert (G : geb (S754_finite false mr er) (S754_finite false 8192000000000000 (-13))
                = true) by (apply geb_val; [done|done|by apply Qlt_le_weak]).
    by rewrite G, Htext.
  - destruct (canonical_value 8388608000000000 (-23) n HnB ltac:(lia) ltac:(lia))
      as (mr & er & -> & Hmr & Hlo & Hhi & Htext).
    unfold marketCapNumToText. rewrite trillion_eq, billion_eq.
    assert (G1 : geb (S754_finite false mr er) (S754_finite false 8192000000000000 (-13))
                 = false) by (apply not_geb_val; [done|done|by rewrite <- EBT]).
    assert (G2 : geb (S754_finite false mr er) (S754_finite false 8388608000000000 (-23))
                 = true) by (apply geb_val; [done|done|by apply Qlt_le_weak]).
    by rewrite G1, G2, Htext.
  - destruct (canonical_value 8589934592000000 (-33) n HnM ltac:(lia) ltac:(lia))
      as (mr & er & -> & Hmr & Hlo & Hhi & Htext).
    unfold marketCapNumToText. rewrite trillion_eq, billion_eq, million_eq.
    assert (G2 : geb (S754_finite false mr er) (S754_finite false 8388608000000000 (-23))
                 = false) by (apply not_geb_val; [done|done|by rewrite <- EMB]).
    assert (G1 : geb (S754_finite false mr er) (S754_finite false 8192000000000000 (-13))
                 = false).
    { apply not_geb_val; [done|done|]. rewrite <- EBT.
      apply Qlt_trans with (val 8388608000000000 (-23)); [by rewrite <- EMB|].
      pose proof (val_pos 8388608000000000 (-23)). lra. }
    assert (G3 : geb (S754_finite false mr er) (S754_finite false 8589934592000000 (-33))
                 = true) by (apply geb_val; [done|done|by apply Qlt_le_weak]).
    by rewrite G1, G2, G3, Htext.
Qed.

Lemma canonical_text_fixed_witness :
  (100 <= 230 <= 99999)%Z
  /\ marketCapNumToText (marketCapTextToNum ("$" ++ fixed_digits 2 230 ++ " billion"))
     = ("$" ++ fixed_digits 2 230 ++ " billion")%string
  /\ fixed_digits 2 230 = "2.30".
Proof.
  assert (H : (100 <= 230 <= 99999)%Z) by lia.
  split; [assumption|].
  split; [exact (proj1 (proj2 (canonical_text_fixed 230 H))) | vm_compute; reflexivity].
Defined.

End EngineProperties.
